(** * Viral reel generator: a shallow embedding of [app.py]

    The development follows the two stages of the program:

    - the Segment Selector ([analyze_videos_with_gemini]): materialise the
      uploads, call the model with a bounded retry loop, parse the answer
      through a cascade of three strategies;
    - the Video Assembler ([process_video_segments]): validate each segment,
      crop and resize it to 1080x1920, concatenate, mix background music;
    - the page script that glues both and removes the temporary files.

    Conventions.  Python exceptions are values of [exn] carried by the
    error monad [res].  Python [int]s are [Z].  The numbers of an edit
    decision list are Python [int]s or IEEE binary64 [float]s, infinities
    and NaN included, and the validation of a segment replays Python's
    arithmetic on them.  The geometry and the durations handed to the later
    steps of the video library are modelled by the rational numbers they
    denote ([Q]); the module [Binary64] replays the geometry computation on
    binary64 numbers and checks that both agree.  The generative model, the
    JSON decoder and the video library are collaborators of the program:
    the first two are parameters, the third is represented by the data the
    program hands to it. *)

From Stdlib Require Import ZArith QArith Floats Uint63 Lia Lqa.
From stdpp Require Import base list gmap strings.

Set Warnings "-register-all,-inexact-float".

Open Scope Z_scope.

(** ** Python strings *)

(** A [str] is a sequence of Unicode code points. *)
Definition str : Type := list N.

(** An ASCII literal as a [str]. *)
Definition codes (s : string) : str :=
  map Ascii.N_of_ascii (String.list_ascii_of_string s).

(** [p] is a prefix of [s]: [s.startswith(p)]. *)
Fixpoint starts_with (p s : str) : bool :=
  match p, s with
  | [], _ => true
  | _ :: _, [] => false
  | a :: p', b :: s' => (a =? b)%N && starts_with p' s'
  end.

(** [needle in hay]. *)
Fixpoint contains (needle hay : str) : bool :=
  starts_with needle hay ||
  match hay with
  | [] => false
  | _ :: t => contains needle t
  end.

(** ** Python results: exceptions as values *)

(** The exceptions the program can meet.  [Exception msg] is a plain
    exception whose [str(e)] is [msg]; the others are the built-in
    classes, all subclasses of [Exception] ([JSONDecodeError] is the one of
    the [json] module, a subclass of [ValueError]). *)
Inductive exn : Type :=
| KeyError (key : string)
| TypeError
| IndexError
| ZeroDivisionError
| NameError
| OSError
| ValueError
| OverflowError
| RecursionError
| JSONDecodeError
| Exception (msg : str).

Inductive res (A : Type) : Type :=
| Ok (a : A)
| Raise (e : exn).

Arguments Ok {A} a.
Arguments Raise {A} e.

#[global] Instance res_ret : MRet res := fun A a => Ok a.
#[global] Instance res_bind : MBind res := fun A B k m =>
  match m with
  | Ok a => k a
  | Raise e => Raise e
  end.

(** Comparisons on rationals, as booleans. *)
Definition Qltb (a b : Q) : bool := negb (Qle_bool b a).
Definition Qgtb (a b : Q) : bool := Qltb b a.

(** ** Geometry normalisation (lines 198-223) *)

Module Geometry.

(** [int(x)] on a float: truncation towards zero. *)
Definition py_int (q : Q) : Z := Z.quot (Qnum q) (Zpos (Qden q)).

Definition target_w : Z := 1080.
Definition target_h : Z := 1920.
Definition target_ratio : Q := inject_Z target_w / inject_Z target_h.

(** The rectangle handed to [sub.crop(x1=, y1=, width=, height=)]. *)
Record crop_box : Type := CropBox {
  x1 : Z;
  y1 : Z;
  crop_w : Z;
  crop_h : Z
}.

(** What [cropped.resize((target_w, target_h))] yields: the crop rectangle
    taken from the source and the size of the resulting clip. *)
Record normalized : Type := Normalized {
  box : crop_box;
  out_w : Z;
  out_h : Z
}.

(** Step 1 of the source: the crop rectangle.  [orig_w / orig_h] is a true
    division and raises on a zero height. *)
Definition crop_region (orig_w orig_h : Z) : res crop_box :=
  if orig_h =? 0 then Raise ZeroDivisionError
  else
    let orig_ratio := (inject_Z orig_w / inject_Z orig_h)%Q in
    if Qgtb orig_ratio target_ratio then
      let crop_w := py_int (inject_Z orig_h * target_ratio) in
      let crop_h := orig_h in
      let x1 := (orig_w - crop_w) / 2 in
      let y1 := 0 in
      Ok (CropBox x1 y1 crop_w crop_h)
    else
      let crop_w := orig_w in
      let crop_h := py_int (inject_Z orig_w / target_ratio) in
      let x1 := 0 in
      let y1 := (orig_h - crop_h) / 2 in
      Ok (CropBox x1 y1 crop_w crop_h).

(** Steps 1 and 2 together. *)
Definition normalize (orig_w orig_h : Z) : res normalized :=
  b ← crop_region orig_w orig_h;
  Ok (Normalized b target_w target_h).

(** Pixels trimmed on each side of the source frame. *)
Definition left_margin (b : crop_box) : Z := x1 b.
Definition right_margin (orig_w : Z) (b : crop_box) : Z :=
  orig_w - (x1 b + crop_w b).
Definition top_margin (b : crop_box) : Z := y1 b.
Definition bottom_margin (orig_h : Z) (b : crop_box) : Z :=
  orig_h - (y1 b + crop_h b).

(** Scale factors applied by the resize. *)
Definition scale_x (n : normalized) : Q := inject_Z (out_w n) / inject_Z (crop_w (box n)).
Definition scale_y (n : normalized) : Q := inject_Z (out_h n) / inject_Z (crop_h (box n)).

End Geometry.

(** ** The same computation on IEEE binary64 numbers

    Python evaluates [orig_w / orig_h], [orig_h * target_ratio] and
    [orig_w / target_ratio] on binary64 floats.  This module replays
    [crop_region] with the kernel's binary64 operations, so that the
    rational model above can be compared with it. *)

Module Binary64.

(** [float(z)] for an integer in the range of exact conversion. *)
Definition float_of_int (z : Z) : float := PrimFloat.of_uint63 (Uint63.of_Z z).

(** [int(f)]: truncation towards zero of a finite float [(-1)^s * m * 2^e]
    ([Z.shiftl] by a negative amount shifts right). *)
Definition int_of_float (f : float) : Z :=
  match Prim2SF f with
  | S754_finite s m e =>
      let v := Z.shiftl (Z.pos m) e in
      if s then - v else v
  | _ => 0
  end.

Definition target_ratio : float :=
  PrimFloat.div (float_of_int Geometry.target_w) (float_of_int Geometry.target_h).

Definition crop_region (orig_w orig_h : Z) : res Geometry.crop_box :=
  if orig_h =? 0 then Raise ZeroDivisionError
  else
    let orig_ratio := PrimFloat.div (float_of_int orig_w) (float_of_int orig_h) in
    if PrimFloat.ltb target_ratio orig_ratio then
      let crop_w := int_of_float (PrimFloat.mul (float_of_int orig_h) target_ratio) in
      let crop_h := orig_h in
      let x1 := (orig_w - crop_w) / 2 in
      let y1 := 0 in
      Ok (Geometry.CropBox x1 y1 crop_w crop_h)
    else
      let crop_w := orig_w in
      let crop_h := int_of_float (PrimFloat.div (float_of_int orig_w) target_ratio) in
      let x1 := 0 in
      let y1 := (orig_h - crop_h) / 2 in
      Ok (Geometry.CropBox x1 y1 crop_w crop_h).

(** The test of line 207 gives the same answer as the comparison of
    [16 * w] with [9 * h]. *)
Definition test_agrees (w h : Z) : bool :=
  Bool.eqb (PrimFloat.ltb target_ratio
              (PrimFloat.div (float_of_int w) (float_of_int h)))
           (9 * h <? 16 * w).

(** The two truncated products of lines 209 and 216 are the integer
    quotients [9 * x / 16] and [16 * x / 9]. *)
Definition sizes_agree (x : Z) : bool :=
  (int_of_float (PrimFloat.mul (float_of_int x) target_ratio) =? 9 * x / 16) &&
  (int_of_float (PrimFloat.div (float_of_int x) target_ratio) =? 16 * x / 9).

(** [p i && p (i+1) && ... && p (i+fuel-1)]. *)
Fixpoint all_from (fuel : nat) (i : Z) (p : Z -> bool) : bool :=
  match fuel with
  | O => true
  | S k => p i && all_from k (i + 1) p
  end.

(** Frame sizes of common video formats, landscape and portrait. *)
Definition common_sizes : list (Z * Z) :=
  [(640, 360); (640, 480); (854, 480); (960, 540); (1280, 720); (1440, 1080);
   (1920, 1080); (2560, 1440); (3840, 2160); (4096, 2160); (7680, 4320);
   (360, 640); (480, 640); (480, 854); (540, 960); (720, 1280); (1080, 1440);
   (1080, 1920); (1440, 2560); (2160, 3840); (2160, 4096); (4320, 7680);
   (1080, 1080); (1, 1)].

Definition same_box (a b : res Geometry.crop_box) : bool :=
  match a, b with
  | Ok x, Ok y =>
      (Geometry.x1 x =? Geometry.x1 y) && (Geometry.y1 x =? Geometry.y1 y) &&
      (Geometry.crop_w x =? Geometry.crop_w y) &&
      (Geometry.crop_h x =? Geometry.crop_h y)
  | _, _ => false
  end.

End Binary64.

(** ** Python values *)

Module Py.

(** *** Numbers *)

(** What a binary64 float stands for: a rational number, an infinity, or
    no number at all. *)
Inductive value : Type :=
| Finite (q : Q)
| PlusInfinity
| MinusInfinity
| NotANumber.

(** [2 ^ e] for an exponent of either sign. *)
Definition power_of_two (e : Z) : Q :=
  match e with
  | Z0 => 1
  | Zpos p => inject_Z (2 ^ Zpos p)
  | Zneg p => 1 # (2 ^ p)
  end.

(** The value of a float [(-1)^s * m * 2^e], in lowest terms. *)
Definition float_value (f : float) : value :=
  match Prim2SF f with
  | S754_zero _ => Finite 0
  | S754_infinity false => PlusInfinity
  | S754_infinity true => MinusInfinity
  | S754_nan => NotANumber
  | S754_finite s m e =>
      Finite (Qred (inject_Z (if s then Zneg m else Zpos m) * power_of_two e))
  end.

(** A Python number: an [int] of any size or a [float]. *)
Inductive number : Type :=
| Int (z : Z)
| Float (f : float).

Definition num_value (n : number) : value :=
  match n with
  | Int z => Finite (inject_Z z)
  | Float f => float_value f
  end.

(** Python compares two numbers by their values, also an [int] with a
    [float]; a comparison with NaN has no outcome. *)
Definition value_compare (a b : value) : option comparison :=
  match a, b with
  | NotANumber, _ | _, NotANumber => None
  | Finite p, Finite q => Some (p ?= q)%Q
  | MinusInfinity, MinusInfinity => Some Eq
  | PlusInfinity, PlusInfinity => Some Eq
  | MinusInfinity, _ => Some Lt
  | _, MinusInfinity => Some Gt
  | PlusInfinity, _ => Some Gt
  | _, PlusInfinity => Some Lt
  end.

Definition num_compare (a b : number) : option comparison :=
  value_compare (num_value a) (num_value b).

(** [a < b], [a > b], [a <= b] and [a >= b]: all false on NaN. *)
Definition py_lt (a b : number) : bool :=
  match num_compare a b with Some Lt => true | _ => false end.
Definition py_gt (a b : number) : bool :=
  match num_compare a b with Some Gt => true | _ => false end.
Definition py_le (a b : number) : bool :=
  match num_compare a b with Some Lt | Some Eq => true | _ => false end.
Definition py_ge (a b : number) : bool :=
  match num_compare a b with Some Gt | Some Eq => true | _ => false end.

(** [float(z)]: the nearest float, ties to even; an [int] beyond the range
    of the floats raises. *)
Definition float_of_int (z : Z) : res float :=
  match binary_normalize prec emax z 0 false with
  | S754_infinity _ => Raise OverflowError
  | x => Ok (SF2Prim x)
  end.

Definition as_float (n : number) : res float :=
  match n with
  | Int z => float_of_int z
  | Float f => Ok f
  end.

(** [a - b] and [a + b]: exact on two [int]s; otherwise both operands are
    taken as floats and the result is the rounded binary64 one. *)
Definition num_sub (a b : number) : res number :=
  match a, b with
  | Int x, Int y => Ok (Int (x - y))
  | _, _ =>
      x ← as_float a;
      y ← as_float b;
      Ok (Float (x - y)%float)
  end.

Definition num_add (a b : number) : res number :=
  match a, b with
  | Int x, Int y => Ok (Int (x + y))
  | _, _ =>
      x ← as_float a;
      y ← as_float b;
      Ok (Float (x + y)%float)
  end.

(** *** Objects *)

(** The objects [json.loads] builds.  A [float] is a binary64 number:
    [json.loads] also accepts [NaN], [Infinity] and [-Infinity].  A [dict]
    keeps its items in order and is read by its first matching key. *)
Inductive pyval : Type :=
| PyNone
| PyBool (b : bool)
| PyInt (z : Z)
| PyFloat (f : float)
| PyStr (s : str)
| PyList (l : list pyval)
| PyDict (items : list (str * pyval)).

(** Truth value of an object, as tested by [if x:]. *)
Definition truthy (v : pyval) : bool :=
  match v with
  | PyNone => false
  | PyBool b => b
  | PyInt z => negb (z =? 0)
  | PyFloat f => negb (f =? 0)%float
  | PyStr s => negb (Nat.eqb (length s) 0)
  | PyList l => negb (Nat.eqb (length l) 0)
  | PyDict d => negb (Nat.eqb (length d) 0)
  end.

(** The items a [for] loop visits: list elements, dict keys, the
    characters of a string; other objects are not iterable. *)
Definition iterate (v : pyval) : res (list pyval) :=
  match v with
  | PyList l => Ok l
  | PyDict d => Ok (map (fun kv => PyStr (fst kv)) d)
  | PyStr s => Ok (map (fun c => PyStr [c]) s)
  | _ => Raise TypeError
  end.

Fixpoint dict_get (key : str) (items : list (str * pyval)) : option pyval :=
  match items with
  | [] => None
  | (k, v) :: rest => if decide (k = key) then Some v else dict_get key rest
  end.

(** [obj[key]] for a string key: only a dict can be subscripted by a
    string; a missing key raises [KeyError]. *)
Definition getitem (obj : pyval) (key : string) : res pyval :=
  match obj with
  | PyDict d =>
      match dict_get (codes key) d with
      | Some v => Ok v
      | None => Raise (KeyError key)
      end
  | _ => Raise TypeError
  end.

(** The number an object is in a comparison or a subtraction ([bool] is
    a subclass of [int]); the other objects raise there. *)
Definition as_number (v : pyval) : res number :=
  match v with
  | PyInt z => Ok (Int z)
  | PyFloat f => Ok (Float f)
  | PyBool b => Ok (Int (Z.b2z b))
  | _ => Raise TypeError
  end.

(** The integer an object stands for as a list index; a float is not
    accepted there. *)
Definition as_index (v : pyval) : res Z :=
  match v with
  | PyInt z => Ok z
  | PyBool b => Ok (Z.b2z b)
  | _ => Raise TypeError
  end.

(** [l[i]] on a list: a negative index counts from the end. *)
Definition list_getitem {A : Type} (l : list A) (i : Z) : res A :=
  let n := Z.of_nat (length l) in
  let j := if i <? 0 then i + n else i in
  if (j <? 0) || (n <=? j) then Raise IndexError
  else
    match l !! Z.to_nat j with
    | Some x => Ok x
    | None => Raise IndexError
    end.

(** [range(n)]. *)
Definition range (n : Z) : list Z := map Z.of_nat (seq 0 (Z.to_nat n)).

End Py.

(** ** The world a run acts on *)

Module World.
Import Py.

(** Temporary files are named by numbers. *)
Definition path : Type := nat.

(** What the video library reads from a video file; the duration is the
    float it parses from the file's header. *)
Record video_info : Type := VideoInfo {
  duration : float;
  width : Z;
  height : Z;
  has_audio : bool
}.

(** What a file holds: uploaded video bytes (with what the video library
    makes of them, if anything), uploaded audio bytes (with their duration,
    if they decode), or a rendered reel. *)
Inductive content : Type :=
| VideoBytes (v : option video_info)
| AudioBytes (d : option Q)
| Rendered.

(** What a run does that can be observed from outside. *)
Inductive event : Type :=
| Generate                                   (* model.generate_content(...) *)
| Sleep (seconds : Z)                        (* time.sleep(seconds) *)
| RateLimitWarning (wait_time retry : Z)     (* st.warning("... Waiting ...") *)
| UiError (msg : string) (cause : option exn) (* st.error(f"msg: {e}") *)
| UiCode (text : str)                        (* st.code(text) *)
| UiVideo (p : path)                         (* st.video(p) and the download *)
| UiStatus (label : string).                 (* status.write / status.update *)

(** The state of a run: the disk, the remote service's call counter, what
    was shown or slept so far, and [temp_paths], the one mutable list the
    Segment Selector fills and hands to the caller on every return. *)
Record world : Type := World_ {
  fs : gmap path content;      (* the files on disk *)
  next_tmp : path;             (* the next temporary file name *)
  calls : nat;                 (* generate_content calls made so far *)
  log : list event;            (* events, oldest first *)
  temp_paths : list path       (* the run's list of temporary video files *)
}.

(** Stateful computations that may raise.  The state reached when an
    exception is raised is kept: effects are not rolled back. *)
Definition M (A : Type) : Type := world -> res A * world.

#[global] Instance M_ret : MRet M := fun A a w => (Ok a, w).
#[global] Instance M_bind : MBind M := fun A B k m w =>
  match m w with
  | (Ok a, w') => k a w'
  | (Raise e, w') => (Raise e, w')
  end.

Definition raise {A : Type} (e : exn) : M A := fun w => (Raise e, w).

Definition lift {A : Type} (r : res A) : M A := fun w => (r, w).

(** [try: m  except Exception as e: handler e]. *)
Definition try_except {A : Type} (m : M A) (handler : exn -> M A) : M A :=
  fun w =>
    match m w with
    | (Ok a, w') => (Ok a, w')
    | (Raise e, w') => handler e w'
    end.

Definition emit (e : event) : M unit := fun w =>
  (Ok tt, World_ (fs w) (next_tmp w) (calls w) (log w ++ [e]) (temp_paths w)).

(** [tempfile.NamedTemporaryFile(delete=False)] followed by writing [c]
    and closing: a new file under a fresh name. *)
Definition new_temp_file (c : content) : M path := fun w =>
  let p := next_tmp w in
  (Ok p, World_ (<[p := c]> (fs w)) (S p) (calls w) (log w) (temp_paths w)).

(** [temp_paths.append(p)]. *)
Definition append_temp_path (p : path) : M unit := fun w =>
  (Ok tt, World_ (fs w) (next_tmp w) (calls w) (log w) (temp_paths w ++ [p])).

Definition get_temp_paths : M (list path) := fun w => (Ok (temp_paths w), w).

(** [temp_paths = []] at the start of an analysis. *)
Definition clear_temp_paths : M unit := fun w =>
  (Ok tt, World_ (fs w) (next_tmp w) (calls w) (log w) []).

(** A step that leaves the disk, the temporary names and the run's list
    of temporary files as they were. *)
Definition keeps_files (w w' : world) : Prop :=
  fs w' = fs w /\ next_tmp w' = next_tmp w /\ temp_paths w' = temp_paths w.

Definition preserves {A : Type} (m : M A) : Prop :=
  forall w, keeps_files w (snd (m w)).

(** ** The collaborators of a run

    Everything the program does not decide itself: what the generative
    model answers to each call, what [json.loads] makes of a text, the
    names the service gives the uploaded files, and which of the fallible
    steps fail. *)

Inductive gen_outcome : Type :=
| Generated (text : str)        (* the call returns; [response.text] is [text] *)
| GenFailed (msg : str).        (* the call raises [e] with [str(e) = msg] *)

Record env : Type := Env {
  generate_content : nat -> gen_outcome;   (* outcome of the k-th call *)
  json_loads : str -> res Py.pyval;        (* json.loads(text): the object,
                                              JSONDecodeError, or another
                                              exception (RecursionError on
                                              deep nesting, ValueError on
                                              an over-long integer) *)
  write_ok : nat -> bool;                  (* writing the i-th upload to disk *)
  upload_ok : nat -> bool;                 (* genai.upload_file of the i-th *)
  file_name : nat -> str;                  (* [file.name] of the i-th upload *)
  processing_polls : nat -> nat;           (* polls that see PROCESSING *)
  becomes_active : nat -> bool;            (* final state is ACTIVE *)
  list_models_ok : bool;                   (* genai.list_models() *)
  encode_ok : gmap path content -> bool;   (* write_videofile, which reads
                                              its sources from the disk
                                              as it finds it *)
  remove_ok : path -> bool                 (* os.remove(path) is permitted *)
}.

(** [os.remove(p)]: fails when the file is absent or cannot be removed. *)
Definition os_remove (E : env) (p : path) : M unit := fun w =>
  match fs w !! p with
  | Some _ =>
      if remove_ok E p
      then (Ok tt, World_ (delete p (fs w)) (next_tmp w) (calls w) (log w) (temp_paths w))
      else (Raise OSError, w)
  | None => (Raise OSError, w)
  end.

End World.

(** ** Segment Selector ([analyze_videos_with_gemini], lines 44-169) *)

Module Selector.
Import Py World.

(** An uploaded video: what the video library will make of its bytes. *)
Record upload : Type := Upload { up_video : option video_info }.

Section WithEnv.
Variable E : env.

(** *** The retry loop (lines 108-124) *)

Definition max_retries : Z := 3.

Definition rate_limit_message : str :=
  codes "Rate limit exceeded. Please wait a few minutes and try again, or use a different API key.".

(** The test of line 116 on [str(e)]. *)
Definition rate_limited (msg : str) : bool :=
  contains (codes "429") msg || contains (codes "Resource exhausted") msg.

(** The state after one more [generate_content] call, and after the
    warning and the sleep that follow a rate-limited one. *)
Definition after_call (w : world) : world :=
  World_ (fs w) (next_tmp w) (S (calls w)) (log w ++ [Generate]) (temp_paths w).

(** One [model.generate_content([prompt] + uploaded_files)]. *)
Definition call_generate : M gen_outcome := fun w =>
  (Ok (generate_content E (calls w)), after_call w).

Definition after_backoff (attempt : Z) (w : world) : world :=
  World_ (fs w) (next_tmp w) (calls w)
    ((log w ++ [RateLimitWarning (2 ^ attempt * 2) (attempt + 2)])
       ++ [Sleep (2 ^ attempt * 2)])
    (temp_paths w).

(** [for attempt in range(max_retries)], by recursion on the attempts that
    remain.  Leaving the loop by [break] returns the response; running out
    of attempts without one leaves [response] unbound. *)
Fixpoint retry_loop (attempts : list Z) : M str :=
  match attempts with
  | [] => raise NameError
  | attempt :: rest =>
      r ← call_generate;
      match r with
      | Generated response => mret response
      | GenFailed msg =>
          if rate_limited msg then
            if attempt <? max_retries - 1 then
              let wait_time := 2 ^ attempt * 2 in
              _ ← emit (RateLimitWarning wait_time (attempt + 2));
              _ ← emit (Sleep wait_time);
              retry_loop rest
            else raise (Exception rate_limit_message)
          else raise (Exception msg)
      end
  end.

Definition generate_with_retry : M str := retry_loop (range max_retries).

(** [genai.list_models()] in the handler of line 125. *)
Definition list_models : M unit :=
  if list_models_ok E then mret tt
  else raise (Exception (codes "list_models failed")).

(** Lines 108-131: the response, or [None] when the function is about to
    return [None, temp_paths]. *)
Definition generate_or_report : M (option str) :=
  try_except
    (response ← generate_with_retry; mret (Some response))
    (fun e =>
       _ ← emit (UiError "Error generating content" (Some e));
       _ ← list_models;
       mret (@None str)).

(** The seconds slept, in order, among some events. *)
Definition sleeps (events : list event) : list Z :=
  omap (fun e => match e with Sleep s => Some s | _ => None end) events.

(** The number of [generate_content] calls among some events. *)
Definition attempts_made (events : list event) : nat :=
  length (omap (fun e => match e with Generate => Some tt | _ => None end) events).

(** *** Reading the answer (lines 133-165) *)

(** The characters [\s] matches in a [str] pattern. *)
Definition is_space (c : N) : bool :=
  (((9 <=? c) && (c <=? 13)) || ((28 <=? c) && (c <=? 32)) ||
   (c =? 133) || (c =? 160) || (c =? 5760) ||
   ((8192 <=? c) && (c <=? 8202)) ||
   (c =? 8232) || (c =? 8233) || (c =? 8239) || (c =? 8287) || (c =? 12288))%N.

Definition open_bracket : N := 91.
Definition close_bracket : N := 93.
Definition slash : N := 47.
Definition newline : N := 10.
Definition fence : str := codes "```".

(** [\s*], greedy: what is left after the leading white space. *)
Fixpoint skip_spaces (s : str) : str :=
  match s with
  | [] => []
  | c :: t => if is_space c then skip_spaces t else s
  end.

(** [.*?\]\s*```] with DOTALL, read after the opening bracket: the shortest
    run of characters that ends with a closing bracket followed by optional
    white space and a fence.  The result includes that bracket. *)
Fixpoint lazy_body (s : str) : option str :=
  match s with
  | [] => None
  | c :: t =>
      if (c =? close_bracket)%N && starts_with fence (skip_spaces t)
      then Some [c]
      else cons c <$> lazy_body t
  end.

(** The whole pattern [```(?:json)?\s*(\[.*?\])\s*```] anchored at the
    start of [s]; the result is group 1. *)
Definition match_fenced_at (s : str) : option str :=
  if starts_with fence s then
    let r := drop 3 s in
    let r := if starts_with (codes "json") r then drop 4 r else r in
    match skip_spaces r with
    | c :: t => if (c =? open_bracket)%N then cons c <$> lazy_body t else None
    | [] => None
    end
  else None.

(** [re.search(r'```(?:json)?\s*(\[.*?\])\s*```', text, re.DOTALL)]:
    group 1 of the leftmost match. *)
Fixpoint search_fenced (text : str) : option str :=
  match match_fenced_at text with
  | Some g => Some g
  | None =>
      match text with
      | [] => None
      | _ :: t => search_fenced t
      end
  end.

(** [.*\]], greedy with DOTALL: the longest prefix that ends with a
    closing bracket. *)
Fixpoint upto_last_close (s : str) : option str :=
  match s with
  | [] => None
  | c :: t =>
      match upto_last_close t with
      | Some r => Some (c :: r)
      | None => if (c =? close_bracket)%N then Some [c] else None
      end
  end.

(** [re.search(r'(\[.*\])', text, re.DOTALL)]: group 1 of the leftmost
    match, from the first opening bracket to the last closing bracket. *)
Fixpoint search_bracket (text : str) : option str :=
  match text with
  | [] => None
  | c :: t =>
      if (c =? open_bracket)%N then cons c <$> upto_last_close t
      else search_bracket t
  end.

(** [re.sub(r'//.*$', '', s, flags=re.MULTILINE)]: on every line, what
    starts at the first [//] is removed up to the end of the line.
    [in_comment] tells that such a [//] was met on the current line. *)
Fixpoint strip_from (in_comment : bool) (s : str) : str :=
  match s with
  | [] => []
  | c :: t =>
      if in_comment then
        if (c =? newline)%N then c :: strip_from false t else strip_from true t
      else
        match t with
        | c' :: _ =>
            if (c =? slash)%N && (c' =? slash)%N then strip_from true t
            else c :: strip_from false t
        | [] => [c]
        end
  end.

Definition strip_comments (s : str) : str := strip_from false s.

(** [try: segments = json.loads(s) ... except: pass]: under a bare
    [except:] every failure of the decoder is a fall-through. *)
Definition decoded (r : res pyval) : option pyval :=
  match r with
  | Ok v => Some v
  | Raise _ => None
  end.

(** Second strategy (lines 143-149): the fenced block, decoded. *)
Definition parse_fenced (text : str) : option pyval :=
  match search_fenced text with
  | Some group1 => decoded (json_loads E group1)
  | None => None
  end.

(** Third strategy (lines 152-160): the bracketed substring, comments
    removed, decoded. *)
Definition parse_bracketed (text : str) : option pyval :=
  match search_bracket text with
  | Some group1 =>
      let cleaned := strip_comments group1 in
      decoded (json_loads E cleaned)
  | None => None
  end.

(** The handler of line 138: the two recoveries, then the report. *)
Definition recover (text : str) : M (option pyval) :=
  match parse_fenced text with
  | Some segments => mret (Some segments)
  | None =>
      match parse_bracketed text with
      | Some segments => mret (Some segments)
      | None =>
          _ ← emit (UiError "Failed to parse JSON from Gemini response." None);
          _ ← emit (UiCode text);
          mret None
      end
  end.

(** Lines 133-165: the value returned as [segments] ([None] after the
    failure was reported).  Line 138 catches [json.JSONDecodeError] only:
    any other exception of the direct parse leaves the block. *)
Definition parse_response (text : str) : M (option pyval) :=
  match json_loads E text with
  | Ok segments => mret (Some segments)
  | Raise JSONDecodeError => recover text
  | Raise e => raise e
  end.

(** The cascade in the words of the specification: an ordered list of
    strategies, each tried in turn until one succeeds. *)
Definition strategies : list (str -> option pyval) :=
  [(fun text => decoded (json_loads E text)); parse_fenced; parse_bracketed].

Fixpoint first_success (ss : list (str -> option pyval)) (text : str)
  : option pyval :=
  match ss with
  | [] => None
  | strategy :: rest =>
      match strategy text with
      | Some v => Some v
      | None => first_success rest text
      end
  end.

(** The state after the failure was reported with the raw text. *)
Definition report_malformed (text : str) (w : world) : world :=
  World_ (fs w) (next_tmp w) (calls w)
    ((log w ++ [UiError "Failed to parse JSON from Gemini response." None])
       ++ [UiCode text])
    (temp_paths w).

(** Comment stripping in the words of the specification, line by line:
    split at the newlines, cut each line at its first [//], join again. *)
Fixpoint split_lines (s : str) : list str :=
  match s with
  | [] => [[]]
  | c :: t =>
      if (c =? newline)%N then [] :: split_lines t
      else
        match split_lines t with
        | l :: ls => (c :: l) :: ls
        | [] => [[c]]
        end
  end.

Fixpoint join_lines (ls : list str) : str :=
  match ls with
  | [] => []
  | l :: rest =>
      match rest with
      | [] => l
      | _ :: _ => l ++ newline :: join_lines rest
      end
  end.

Fixpoint cut_comment (l : str) : str :=
  match l with
  | [] => []
  | c :: t =>
      match t with
      | c' :: _ =>
          if (c =? slash)%N && (c' =? slash)%N then [] else c :: cut_comment t
      | [] => [c]
      end
  end.

(** *** Uploading (lines 53-64) *)

(** The loop over [enumerate(video_files)]: write a temporary file, record
    its name, upload it. *)
Fixpoint materialize (video_files : list upload) (i : nat) : M unit :=
  match video_files with
  | [] => mret tt
  | uploaded_file :: rest =>
      if write_ok E i then
        p ← new_temp_file (VideoBytes (up_video uploaded_file));
        _ ← append_temp_path p;
        if upload_ok E i then materialize rest (S i)
        else raise (Exception (codes "upload failed"))
      else
        _ ← new_temp_file (VideoBytes None);
        raise OSError
  end.

Fixpoint wait_while_processing (polls : nat) : M unit :=
  match polls with
  | O => mret tt
  | S k => _ ← emit (Sleep 2); wait_while_processing k
  end.

(** [str(e)] of the exception of line 42 for a file named [name]. *)
Definition failed_to_process (name : str) : str :=
  codes "File " ++ name ++ codes " failed to process".

(** Lines 34-42, over the uploads by their index: each file is polled
    until it leaves PROCESSING, with a sleep of 2 seconds before each new
    poll; a file that ends in another state than ACTIVE raises, and the
    message carries its name. *)
Fixpoint wait_for_files_active (files : list nat) : M unit :=
  match files with
  | [] => mret tt
  | f :: rest =>
      _ ← wait_while_processing (processing_polls E f);
      if becomes_active E f then wait_for_files_active rest
      else raise (Exception (failed_to_process (file_name E f)))
  end.

(** *** The whole stage *)

(** Lines 108-165: ask the model and read its answer. *)
Definition read_answer : M (option pyval * list path) :=
  response ← generate_or_report;
  match response with
  | None => paths ← get_temp_paths; mret (@None pyval, paths)
  | Some text =>
      segments ← parse_response text;
      paths ← get_temp_paths;
      mret (segments, paths)
  end.

Definition analyze_videos_with_gemini (video_files : list upload)
  : M (option pyval * list path) :=
  _ ← clear_temp_paths;
  try_except
    (_ ← materialize video_files 0;
     _ ← wait_for_files_active (seq 0 (length video_files));
     read_answer)
    (fun e =>
       _ ← emit (UiError "An error occurred during AI analysis" (Some e));
       paths ← get_temp_paths;
       mret (@None pyval, paths)).

End WithEnv.

End Selector.

(** ** Video Assembler ([process_video_segments], lines 171-280) *)

Module Assembler.
Import Py World.

(** The colour filter applied to a clip, with the arguments of the call. *)
Inductive effect : Type :=
| NoFilter
| BlackWhite                               (* vfx.blackwhite *)
| Colorx (factor : Q)                      (* vfx.colorx, 1.3 *)
| LumContrast (lum contrast thr : Z)       (* vfx.lum_contrast, 0, 30, 128 *)
| GammaCorr (gamma : Q).                   (* vfx.gamma_corr, 1.2 *)

Inductive fade : Type :=
| NoFade
| CrossFadeIn (d : Q)                      (* crossfadein(0.5) *)
| FadeInOut (d_in d_out : Q).              (* fadein(0.5).fadeout(0.5) *)

(** A processed clip, described by what was asked of the video library:
    the file opened, the arguments of [subclip] and the duration it gave
    the new clip, the crop and the resize, the filter and the transition. *)
Record clip : Type := Clip {
  clip_path : path;
  clip_start : number;
  clip_end : number;
  clip_duration : number;
  clip_geometry : Geometry.normalized;
  clip_effect : effect;
  clip_fade : fade;
  clip_sound : bool
}.

(** The rational a duration stands for in the later steps, whose
    arithmetic is modelled on rationals.  A duration that is infinite or
    not a number stands for none: 0 is used for it, and the encode refuses
    the video (see [write_videofile]). *)
Definition seconds (n : number) : Q :=
  match num_value n with
  | Finite q => q
  | _ => 0%Q
  end.

Definition clip_seconds (c : clip) : Q := seconds (clip_duration c).

(** The duration is a number of seconds. *)
Definition is_finite (n : number) : bool :=
  match num_value n with
  | Finite _ => true
  | _ => false
  end.

(** [original_clip.subclip(t_start, t_end)] of the video library on a clip
    of duration [d]; the result is the [duration] of the new clip.  A
    negative time is counted from the end of the clip; a start beyond the
    end raises; the frame at the start is then read to size the new clip,
    at a position [int(fps * t_start + 0.00001)], which raises when the
    start is infinite or not a number; the new clip lasts
    [t_end - t_start]. *)
Definition subclip (d : float) (t_start t_end : number) : res number :=
  t_start ← (if py_lt t_start (Int 0) then num_add (Float d) t_start
             else Ok t_start);
  if py_gt t_start (Float d) then Raise ValueError
  else
    match num_value t_start with
    | NotANumber => Raise ValueError
    | PlusInfinity | MinusInfinity => Raise OverflowError
    | Finite _ =>
        t_end ← (if py_lt t_end (Int 0) then num_add (Float d) t_end
                 else Ok t_end);
        num_sub t_end t_start
    end.

(** [VideoFileClip(p)]. *)
Definition open_video (disk : gmap path content) (p : path) : res video_info :=
  match disk !! p with
  | Some (VideoBytes (Some v)) => Ok v
  | _ => Raise OSError
  end.

Definition str_eqb (a b : str) : bool := bool_decide (a = b).

Definition apply_filter (filter_type : str) : effect :=
  if str_eqb filter_type (codes "Black & White") then BlackWhite
  else if str_eqb filter_type (codes "Vibrant") then Colorx (13 # 10)
  else if str_eqb filter_type (codes "Cinematic") then LumContrast 0 30 128
  else if str_eqb filter_type (codes "Vintage") then GammaCorr (12 # 10)
  else NoFilter.

Definition apply_transition (transition_type : str) : fade :=
  if str_eqb transition_type (codes "Crossfade (0.5s)") then CrossFadeIn (1 # 2)
  else if str_eqb transition_type (codes "Fade In/Out") then FadeInOut (1 # 2) (1 # 2)
  else NoFade.

Section Segments.
Variable disk : gmap path content.
Variable temp_paths : list path.
Variable transition_type filter_type : str.

(** [end] after lines 189-190. *)
Definition clamp_end (end_time : number) (source_duration : float) : number :=
  if py_gt end_time (Float source_duration) then Float source_duration
  else end_time.

(** The constant of line 193. *)
Definition shortest : number := Float 0.5.

(** One turn of the loop of line 178: [None] stands for [continue],
    [Some c] for the clip appended to [clips]. *)
Definition process_segment (segment : pyval) : res (option clip) :=
  idx ← getitem segment "source_index";
  start ← getitem segment "start_time";
  end_ ← getitem segment "end_time";
  idx_value ← as_number idx;
  if py_ge idx_value (Int (Z.of_nat (length temp_paths))) then Ok None
  else
    i ← as_index idx;
    p ← list_getitem temp_paths i;
    original_clip ← open_video disk p;
    end_value ← as_number end_;
    let end_value := clamp_end end_value (duration original_clip) in
    start_value ← as_number start;
    if py_ge start_value end_value then Ok None
    else
      difference ← num_sub end_value start_value;
      if py_lt difference shortest then Ok None
      else
        sub_duration ← subclip (duration original_clip) start_value end_value;
        geometry ← Geometry.normalize (width original_clip) (height original_clip);
        Ok (Some (Clip p start_value end_value sub_duration geometry
                    (apply_filter filter_type)
                    (apply_transition transition_type)
                    (has_audio original_clip))).

(** The loop of line 178 over the items of [segments]. *)
Fixpoint process_loop (segments : list pyval) (clips : list clip)
  : res (list clip) :=
  match segments with
  | [] => Ok clips
  | segment :: rest =>
      r ← process_segment segment;
      match r with
      | None => process_loop rest clips
      | Some c => process_loop rest (clips ++ [c])
      end
  end.

(** The loop in the words of the specification: the entries are taken in
    list order; each one is either skipped, or accepted, or stops the
    whole loop with its exception. *)
Fixpoint outcomes (segments : list pyval) : res (list (option clip)) :=
  match segments with
  | [] => Ok []
  | segment :: rest =>
      match process_segment segment with
      | Ok r =>
          match outcomes rest with
          | Ok rs => Ok (r :: rs)
          | Raise e => Raise e
          end
      | Raise e => Raise e
      end
  end.

(** The accepted clips among some outcomes, in order. *)
Definition accepted (rs : list (option clip)) : list clip := omap id rs.

End Segments.

(** *** Sound *)

(** Audio clips, described by how they were built. *)
Inductive audio : Type :=
| SourceSound (d : Q)                        (* the sound of the sub-clips *)
| MusicFile (p : path) (d : Q)               (* AudioFileClip(p) *)
| Loop (a : audio) (d : Q)                   (* a.fx(vfx.loop, duration=d) *)
| Subclip (a : audio) (t_start t_end : Q)    (* a.subclip(t_start, t_end) *)
| Volumex (a : audio) (factor : Q)           (* a.volumex(factor) *)
| CompositeAudio (a b : audio).              (* CompositeAudioClip([a, b]) *)

(** [max(a, b)]. *)
Definition py_max (a b : Q) : Q := if Qltb a b then b else a.

(** The [duration] attribute the video library gives each of them: a loop
    lasts what was asked, a sub-clip lasts [t_end - t_start], a volume
    change keeps the duration, a composite ends with its last track. *)
Fixpoint audio_duration (a : audio) : Q :=
  match a with
  | SourceSound d => d
  | MusicFile _ d => d
  | Loop _ d => d
  | Subclip _ t_start t_end => (t_end - t_start)%Q
  | Volumex a' _ => audio_duration a'
  | CompositeAudio a' b' => py_max (audio_duration a') (audio_duration b')
  end.

Record video : Type := Video {
  v_clips : list clip;
  v_duration : Q;
  v_audio : option audio
}.

(** [np.maximum(0, t)]. *)
Definition not_below_zero (t : Q) : Q := if Qltb t 0 then 0%Q else t.

(** The end of the last sounding clip when the clips are played one
    after the other.  [t] is the sum of the durations of the clips before:
    a clip starts at [np.maximum(0, t)] and its sound ends one duration
    later. *)
Fixpoint sound_end (t : Q) (clips : list clip) : option Q :=
  match clips with
  | [] => None
  | c :: rest =>
      let e := (not_below_zero t + clip_seconds c)%Q in
      match sound_end (t + clip_seconds c)%Q rest with
      | Some e' => Some (if clip_sound c then py_max e e' else e')
      | None => if clip_sound c then Some e else None
      end
  end.

(** The last of [np.maximum(0, np.cumsum([0] + durations))]. *)
Definition total_duration (clips : list clip) : Q :=
  not_below_zero (foldl (fun acc c => (acc + clip_seconds c)%Q) 0%Q clips).

(** [concatenate_videoclips(clips, method="compose")]: the clips in list
    order; the duration is the sum of theirs, or 0 when that is negative;
    there is a sound track when one of the clips has one. *)
Definition concatenate_videoclips (clips : list clip) : video :=
  Video clips (total_duration clips) (SourceSound <$> sound_end 0%Q clips).

(** An uploaded audio file: its duration, if it decodes. *)
Record audio_upload : Type := AudioUpload { au_duration : option Q }.

Section WithEnv.
Variable E : env.

(** Lines 258-266: the music is looped or cut to the length of the video,
    lowered, and mixed with the sound of the video if there is one. *)
Definition mix_music (music : audio) (final_video : video) : video :=
  let music :=
    if Qltb (audio_duration music) (v_duration final_video)
    then Loop music (v_duration final_video)
    else Subclip music 0%Q (v_duration final_video) in
  let music := Volumex music (2 # 10) in
  let final_audio :=
    match v_audio final_video with
    | Some own => CompositeAudio own music
    | None => music
    end in
  Video (v_clips final_video) (v_duration final_video) (Some final_audio).

(** Lines 251-268. *)
Definition add_background_music (audio_file : audio_upload) (final_video : video)
  : M video :=
  audio_temp ← new_temp_file (AudioBytes (au_duration audio_file));
  music ← lift (match au_duration audio_file with
                | Some d => Ok (MusicFile audio_temp d)
                | None => Raise OSError
                end);
  let final_video := mix_music music final_video in
  _ ← os_remove E audio_temp;
  mret final_video.

Definition get_disk : M (gmap path content) := fun w => (Ok (fs w), w).

(** [final_video.write_videofile(output_tfile.name, ...)].  The encoder
    needs a number of frames, [int(duration * fps)]: it fails on a video
    one of whose clips has a duration that is infinite or not a number.
    Otherwise its outcome is the environment's; it reads its sources from
    the disk while it runs, where the music file, removed at line 268, is
    no longer found. *)
Definition write_videofile (final_video : video) (p : path) : M unit := fun w =>
  if forallb (fun c => is_finite (clip_duration c)) (v_clips final_video)
     && encode_ok E (fs w)
  then (Ok tt, w)
  else (Raise (Exception (codes "write_videofile failed")), w).

(** The whole stage; [None] is the failure value the caller tests. *)
Definition process_video_segments (segments : pyval) (temp_paths : list path)
    (transition_type : str) (audio_file : option audio_upload)
    (filter_type : str) : M (option path) :=
  try_except
    (items ← lift (iterate segments);
     disk ← get_disk;
     clips ← lift (process_loop disk temp_paths transition_type filter_type items []);
     match clips with
     | [] => mret None
     | _ :: _ =>
         let final_video := concatenate_videoclips clips in
         final_video ←
           match audio_file with
           | Some a => add_background_music a final_video
           | None => mret final_video
           end;
         output_tfile ← new_temp_file Rendered;
         _ ← write_videofile final_video output_tfile;
         mret (Some output_tfile)
     end)
    (fun e =>
       _ ← emit (UiError "Error processing video" (Some e));
       mret None).

End WithEnv.

End Assembler.

(** ** The page script (lines 322-386) *)

Module Page.
Import Py World Selector Assembler.

Section WithEnv.
Variable E : env.

(** Lines 329-331: more than four uploads are reported and cut down to the
    first four. *)
Definition limit_uploads (uploaded_files : list upload) : M (list upload) :=
  if negb (Nat.eqb (length uploaded_files) 0) && (4 <? length uploaded_files)%nat
  then
    _ ← emit (UiError "Please upload a maximum of 4 videos." None);
    mret (take 4 uploaded_files)
  else mret uploaded_files.

(** [if segments:] on the first component of the analysis. *)
Definition segments_truthy (segments : option pyval) : bool :=
  match segments with
  | Some v => truthy v
  | None => false
  end.

(** Lines 382-386: [os.remove] on each path, errors swallowed. *)
Fixpoint cleanup (paths : list path) : M unit :=
  match paths with
  | [] => mret tt
  | p :: rest =>
      _ ← try_except (os_remove E p) (fun _ => mret tt);
      cleanup rest
  end.

(** Lines 347-386, the branch taken when a key and uploads are present.
    The result is the path of the reel that was shown, if any. *)
Definition run (uploaded_files : list upload) (transition_option : str)
    (bg_music : option audio_upload) (filter_option : str) : M (option path) :=
  _ ← emit (UiStatus "Analyzing footage");
  '(segments, temp_paths) ← analyze_videos_with_gemini E uploaded_files;
  shown ←
    (if segments_truthy segments then
       _ ← emit (UiStatus "Analysis Complete");
       final_video_path ←
         process_video_segments E (default PyNone segments) temp_paths
           transition_option bg_music filter_option;
       match final_video_path with
       | Some p => _ ← emit (UiVideo p); mret (Some p)
       | None => _ ← emit (UiStatus "Failed to generate video"); mret None
       end
     else
       _ ← emit (UiStatus "Could not analyze videos");
       mret None);
  _ ← cleanup temp_paths;
  mret shown.

(** One execution of the script with the button in state [generate_btn]. *)
Definition page (api_key : str) (uploaded_files : list upload)
    (generate_btn : bool) (transition_option : str)
    (bg_music : option audio_upload) (filter_option : str) : M (option path) :=
  uploaded_files ← limit_uploads uploaded_files;
  if generate_btn then
    match api_key with
    | [] => _ ← emit (UiError "API Key is missing!" None); mret None
    | _ :: _ =>
        match uploaded_files with
        | [] => _ ← emit (UiError "Please upload at least one video." None); mret None
        | _ :: _ => run uploaded_files transition_option bg_music filter_option
        end
    end
  else mret None.

End WithEnv.

End Page.

(** ** Concrete runs used below *)

Module Examples.
Import Py World Selector Assembler Page.

(** An empty disk, nothing called or shown yet. *)
Definition w0 : world := World_ ∅ 0%nat 0%nat [] [].

(** The names the service gives the uploads: [files/video0],
    [files/video1], ... *)
Definition service_name (i : nat) : str :=
  codes "files/video" ++ [(48 + N.of_nat i)%N].

(** A service that answers every generation call with a 429 error, and
    where every other step succeeds. *)
Definition always_429 : env :=
  Env (fun _ => GenFailed (codes "429 Resource has been exhausted"))
      (fun _ => Raise JSONDecodeError)
      (fun _ => true) (fun _ => true) service_name (fun _ => 0%nat) (fun _ => true)
      true (fun _ => true) (fun _ => true).

(** A 20-second landscape source with sound. *)
Definition landscape_20s : video_info := VideoInfo 20 1920 1080 true.

(** A segment object as [json.loads] builds it. *)
Definition segment (source_index : Z) (start_time end_time : float) : pyval :=
  PyDict [(codes "source_index", PyInt source_index);
          (codes "start_time", PyFloat start_time);
          (codes "end_time", PyFloat end_time);
          (codes "reason", PyStr (codes "best take"))].

(** A service whose first answer decodes to the given object, and where
    every other step succeeds. *)
Definition answers (segments : pyval) : env :=
  Env (fun _ => Generated (codes "[...]"))
      (fun _ => Ok segments)
      (fun _ => true) (fun _ => true) service_name (fun _ => 0%nat) (fun _ => true)
      true (fun _ => true) (fun _ => true).

(** The end-to-end scenario of the specification: two 20-second sources,
    one segment of 6 seconds and one of 0.3 seconds. *)
Definition two_sources : list upload :=
  [Upload (Some landscape_20s); Upload (Some landscape_20s)].

Definition scenario_segments : pyval :=
  PyList [segment 0 2 8; segment 1 5 5.3].

(** The disk once both sources were written, and the state of the run at
    that point. *)
Definition two_sources_disk : gmap path content :=
  <[1%nat := VideoBytes (Some landscape_20s)]>
    (<[0%nat := VideoBytes (Some landscape_20s)]> ∅).

Definition two_sources_written : world :=
  World_ two_sources_disk 2%nat 1%nat [] [0%nat; 1%nat].

(** The clip the scenario keeps: 2s to 8s of the first source. *)
Definition kept_clip : clip :=
  Clip 0%nat (Float 2) (Float 8) (Float 6)
    (Geometry.Normalized (Geometry.CropBox 656 0 607 1080) 1080 1920)
    NoFilter NoFade true.

(** Ten seconds of a 20-second source with sound, and what [subclip]
    makes of the range from -5s to 8s of the same source: a clip of -7
    seconds. *)
Definition first_ten_seconds : clip :=
  Clip 0%nat (Float 0) (Float 10) (Float 10)
    (Geometry.Normalized (Geometry.CropBox 656 0 607 1080) 1080 1920)
    NoFilter NoFade true.

Definition from_minus_five : clip :=
  Clip 0%nat (Float (-5)) (Float 8) (Float (-7))
    (Geometry.Normalized (Geometry.CropBox 656 0 607 1080) 1080 1920)
    NoFilter NoFade true.



(** An entry without its [source_index]. *)
Definition no_source_index : pyval :=
  PyDict [(codes "start_time", PyFloat 2); (codes "end_time", PyFloat 8)].

(** A decoder that accepts the texts that start with an opening bracket,
    end with a closing bracket and hold no slash, whatever is between. *)
Definition bracketed_only (text : str) : res pyval :=
  match text, last text with
  | c :: _, Some c' =>
      if (c =? open_bracket)%N && (c' =? close_bracket)%N
         && negb (contains [slash] text)
      then Ok (PyList []) else Raise JSONDecodeError
  | _, _ => Raise JSONDecodeError
  end.

Definition decodes_bracketed : env :=
  Env (fun _ => Generated []) bracketed_only
      (fun _ => true) (fun _ => true) service_name (fun _ => 0%nat) (fun _ => true)
      true (fun _ => true) (fun _ => true).

(** An answer nested too deep for the decoder: 2000 opening brackets
    followed by 2000 closing ones. *)
Definition deep_answer : str :=
  replicate 2000%nat open_bracket ++ replicate 2000%nat close_bracket.

(** A decoder with a recursion limit of 1000: a text that starts with 1000
    opening brackets makes it raise [RecursionError]; it decodes none of
    the other texts. *)
Definition recursion_limit (text : str) : res pyval :=
  if starts_with (replicate 1000%nat open_bracket) text then Raise RecursionError
  else Raise JSONDecodeError.

Definition answers_too_deep : env :=
  Env (fun _ => Generated deep_answer) recursion_limit
      (fun _ => true) (fun _ => true) service_name (fun _ => 0%nat) (fun _ => true)
      true (fun _ => true) (fun _ => true).

(** The answer of the end-to-end scenario: an array inside a fenced
    block, after a sentence. *)
Definition fenced_answer : str := codes "Here is the edit:
```json
[{...}]
```".

(** An array with a comment on each line. *)
Definition commented_answer : str := codes "Sure: [
  1, // first take
  2  // second take
] done".

(** A service that answers 429 once and then returns an empty array. *)
Definition busy_once : env :=
  Env (fun k => match k with
                | O => GenFailed (codes "429 Resource has been exhausted")
                | S _ => Generated (codes "[]")
                end)
      (fun _ => Ok (PyList []))
      (fun _ => true) (fun _ => true) service_name (fun _ => 0%nat) (fun _ => true)
      true (fun _ => true) (fun _ => true).

(** A service that answers 429 once and then refuses the key. *)
Definition busy_then_refused : env :=
  Env (fun k => match k with
                | O => GenFailed (codes "429 Resource has been exhausted")
                | S _ => GenFailed (codes "403 API key not valid")
                end)
      (fun _ => Raise JSONDecodeError)
      (fun _ => true) (fun _ => true) service_name (fun _ => 0%nat) (fun _ => true)
      true (fun _ => true) (fun _ => true).

(** A service where the file of index 1 needs three polls and then fails,
    the others being ready at once. *)
Definition second_file_fails : env :=
  Env (fun _ => Generated (codes "[]"))
      (fun _ => Ok (PyList []))
      (fun _ => true) (fun _ => true) service_name
      (fun f => match f with 1%nat => 3%nat | _ => 0%nat end)
      (fun f => match f with 1%nat => false | _ => true end)
      true (fun _ => true) (fun _ => true).

(** A service where the first file is seen PROCESSING twice and the
    second once before they become ACTIVE. *)
Definition slow_service : env :=
  Env (fun _ => Generated (codes "[]"))
      (fun _ => Ok (PyList []))
      (fun _ => true) (fun _ => true) service_name
      (fun f => match f with 0%nat => 2%nat | _ => 1%nat end)
      (fun _ => true)
      true (fun _ => true) (fun _ => true).

(** A service whose answer decodes, on a machine where the encoding
    fails. *)
Definition encoder_fails : env :=
  Env (fun _ => Generated (codes "[...]"))
      (fun _ => Ok scenario_segments)
      (fun _ => true) (fun _ => true) service_name (fun _ => 0%nat) (fun _ => true)
      true (fun _ => false) (fun _ => true).

(** A machine where the encoding fails when the music file, written as
    file 2 of the scenario, is no longer on the disk. *)
Definition encoder_reads_music : env :=
  Env (fun _ => Generated (codes "[...]"))
      (fun _ => Ok scenario_segments)
      (fun _ => true) (fun _ => true) service_name (fun _ => 0%nat) (fun _ => true)
      true
      (fun disk => match disk !! 2%nat with
                   | Some (AudioBytes _) => true
                   | _ => false
                   end)
      (fun _ => true).

(** A machine where the first upload cannot be written to the disk, and
    one where it cannot be sent to the service. *)
Definition disk_full : env :=
  Env (fun _ => Generated (codes "[...]"))
      (fun _ => Ok scenario_segments)
      (fun _ => false) (fun _ => true) service_name (fun _ => 0%nat) (fun _ => true)
      true (fun _ => true) (fun _ => true).

Definition network_down : env :=
  Env (fun _ => Generated (codes "[...]"))
      (fun _ => Ok scenario_segments)
      (fun _ => true) (fun _ => false) service_name (fun _ => 0%nat) (fun _ => true)
      true (fun _ => true) (fun _ => true).

(** A disk that already holds a file of another run. *)
Definition used_disk : world :=
  World_ (<[0%nat := Rendered]> ∅) 1%nat 0%nat [] [].

End Examples.

(** ** Measures used in the statements below *)

Module Measures.
Import Py World.

(** The polls that see PROCESSING over some files. *)
Definition total_polls (E : env) (files : list nat) : nat :=
  foldr (fun f acc => (processing_polls E f + acc)%nat) 0%nat files.

(** The state after some more events. *)
Definition logged (events : list event) (w : world) : world :=
  World_ (fs w) (next_tmp w) (calls w) (log w ++ events) (temp_paths w).

(** The backtick, of which a fence is made. *)
Definition backtick : N := 96.

(** The number of newlines of a text. *)
Definition newlines (s : str) : nat :=
  length (omap (fun c => if (c =? Selector.newline)%N then Some tt else None) s).

(** The start of a comment. *)
Definition two_slashes : str := [Selector.slash; Selector.slash].

(** What line 330 shows for some uploads. *)
Definition limit_events (uploaded_files : list Selector.upload) : list event :=
  if (4 <? length uploaded_files)%nat
  then [UiError "Please upload a maximum of 4 videos." None]
  else [].

(** The state after a new temporary file was written. *)
Definition with_file (c : content) (w : world) : world :=
  World_ (<[next_tmp w := c]> (fs w)) (S (next_tmp w)) (calls w) (log w)
    (temp_paths w).

End Measures.

(** * Properties *)

(** ** Boolean comparisons on rationals *)

Lemma Qltb_lt (a b : Q) : Qltb a b = true <-> (a < b)%Q.
Proof.
  unfold Qltb. rewrite negb_true_iff. split.
  - intros H. apply Qnot_le_lt. intros Hle.
    apply Qle_bool_iff in Hle. congruence.
  - intros H. destruct (Qle_bool b a) eqn:E; [|reflexivity].
    apply Qle_bool_iff in E. exfalso. exact (Qlt_not_le _ _ H E).
Qed.



(** ** Geometry normalisation *)

Section GeometryFacts.
Import Geometry.

Lemma target_ratio_value : target_ratio = (1080 # 1920)%Q.
Proof. reflexivity. Qed.

(** [int(orig_h * target_ratio)] is the integer quotient [9 * h / 16]. *)
Lemma crop_w_closed (h : Z) :
  0 <= h -> py_int (inject_Z h * target_ratio) = 9 * h / 16.
Proof.
  intros Hh. rewrite target_ratio_value. unfold py_int. cbn [Qnum Qden Qmult inject_Z].
  rewrite Z.quot_div_nonneg by lia.
  replace (h * 1080) with ((9 * h) * 120) by lia.
  change (Z.pos (1 * 1920)) with (16 * 120).
  apply Z.div_mul_cancel_r; lia.
Qed.

(** [int(orig_w / target_ratio)] is the integer quotient [16 * w / 9]. *)
Lemma crop_h_closed (w : Z) :
  0 <= w -> py_int (inject_Z w / target_ratio) = 16 * w / 9.
Proof.
  intros Hw. rewrite target_ratio_value. unfold py_int.
  cbn [Qnum Qden Qmult Qdiv Qinv inject_Z].
  rewrite Z.quot_div_nonneg by lia.
  replace (w * 1920) with ((16 * w) * 120) by lia.
  change (Z.pos (1 * 1080)) with (9 * 120).
  apply Z.div_mul_cancel_r; lia.
Qed.

(** The test [orig_ratio > target_ratio] compares [16 * w] with [9 * h]. *)
Lemma wider_than_target (w h : Z) :
  0 < h -> Qgtb (inject_Z w / inject_Z h) target_ratio = (9 * h <? 16 * w).
Proof.
  intros Hh. rewrite target_ratio_value.
  destruct h as [|p|p]; try lia.
  unfold Qgtb, Qltb, Qle_bool. cbn [Qnum Qden Qmult Qdiv Qinv inject_Z].
  rewrite Z.ltb_antisym. f_equal.
  rewrite Pos.mul_1_l, Z.mul_1_r.
  destruct (Z.leb_spec (w * 1920) (1080 * Z.pos p)),
           (Z.leb_spec (16 * w) (9 * Z.pos p)); try reflexivity; lia.
Qed.

Lemma crop_region_closed (w h : Z) :
  0 <= w -> 0 < h ->
  crop_region w h =
    Ok (if 9 * h <? 16 * w
        then CropBox ((w - 9 * h / 16) / 2) 0 (9 * h / 16) h
        else CropBox 0 ((h - 16 * w / 9) / 2) w (16 * w / 9)).
Proof.
  intros Hw Hh. unfold crop_region.
  destruct (Z.eqb_spec h 0) as [->|_]; [lia|].
  rewrite wider_than_target by assumption.
  destruct (9 * h <? 16 * w).
  - rewrite crop_w_closed by lia. reflexivity.
  - rewrite crop_h_closed by lia. reflexivity.
Qed.


(** C3, as the code has it.  For every source frame the result is exactly
    1080x1920 and only one axis is cropped.  Along the cropped axis the
    leading margin is the floor of half the trimmed total and the trailing
    margin is the rest, so the two margins are equal when the trimmed total
    is even and the trailing one is one pixel larger when it is odd. *)
Theorem C3_normalize_size_and_margins (w h : Z) :
  0 < w -> 0 < h ->
  exists n, normalize w h = Ok n /\
    out_w n = 1080 /\ out_h n = 1920 /\
    let b := box n in
    (crop_w b = w \/ crop_h b = h) /\
    0 <= left_margin b /\ 0 <= top_margin b /\
    left_margin b = (w - crop_w b) / 2 /\
    top_margin b = (h - crop_h b) / 2 /\
    right_margin w b = left_margin b + (w - crop_w b) mod 2 /\
    bottom_margin h b = top_margin b + (h - crop_h b) mod 2 /\
    (Z.even (w - crop_w b) = true -> left_margin b = right_margin w b) /\
    (Z.even (h - crop_h b) = true -> top_margin b = bottom_margin h b).
Proof.
  intros Hw Hh. unfold normalize.
  rewrite crop_region_closed by lia.
  eexists. split; [reflexivity|].
  cbn [out_w out_h box]. split; [reflexivity|]. split; [reflexivity|].
  unfold left_margin, right_margin, top_margin, bottom_margin.
  destruct (Z.ltb_spec (9 * h) (16 * w)) as [Hlt|Hge];
    cbn [x1 y1 crop_w crop_h].
  - pose proof (Z.div_mod (9 * h) 16 ltac:(lia)) as Hd.
    pose proof (Z.mod_pos_bound (9 * h) 16 ltac:(lia)) as Hm.
    set (c := 9 * h / 16) in *.
    assert (Hc : 0 <= w - c) by lia.
    pose proof (Z.div_mod (w - c) 2 ltac:(lia)) as Hd2.
    pose proof (Z.mod_pos_bound (w - c) 2 ltac:(lia)) as Hm2.
    replace (h - h) with 0 by lia. change (0 / 2) with 0. change (0 mod 2) with 0.
    repeat split; try lia.
    intros He. rewrite Zmod_even, He in Hd2. lia.
  - pose proof (Z.div_mod (16 * w) 9 ltac:(lia)) as Hd.
    pose proof (Z.mod_pos_bound (16 * w) 9 ltac:(lia)) as Hm.
    set (c := 16 * w / 9) in *.
    assert (Hc : 0 <= h - c) by lia.
    pose proof (Z.div_mod (h - c) 2 ltac:(lia)) as Hd2.
    pose proof (Z.mod_pos_bound (h - c) 2 ltac:(lia)) as Hm2.
    replace (w - w) with 0 by lia. change (0 / 2) with 0. change (0 mod 2) with 0.
    repeat split; try lia.
    intros He. rewrite Zmod_even, He in Hd2. lia.
Qed.

(** C3 at a 1280x720 source: the trimmed total is 875 pixels. *)
Lemma C3_normalize_size_and_margins_witness :
  exists n, normalize 1280 720 = Ok n /\
    out_w n = 1080 /\ out_h n = 1920 /\
    let b := box n in
    (crop_w b = 1280 \/ crop_h b = 720) /\
    0 <= left_margin b /\ 0 <= top_margin b /\
    left_margin b = (1280 - crop_w b) / 2 /\
    top_margin b = (720 - crop_h b) / 2 /\
    right_margin 1280 b = left_margin b + (1280 - crop_w b) mod 2 /\
    bottom_margin 720 b = top_margin b + (720 - crop_h b) mod 2 /\
    (Z.even (1280 - crop_w b) = true -> left_margin b = right_margin 1280 b) /\
    (Z.even (720 - crop_h b) = true -> top_margin b = bottom_margin 720 b).
Proof. apply (C3_normalize_size_and_margins 1280 720); lia. Defined.

(** C3 as stated fails on a 1920x1080 source: the crop is 607 pixels wide,
    1313 pixels are trimmed, 656 on the left and 657 on the right. *)
Lemma C3_unequal_margins_1920x1080 :
  exists n, normalize 1920 1080 = Ok n /\
    out_w n = 1080 /\ out_h n = 1920 /\
    crop_w (box n) = 607 /\
    left_margin (box n) = 656 /\
    right_margin 1920 (box n) = 657 /\
    left_margin (box n) <> right_margin 1920 (box n).
Proof.
  eexists. split; [reflexivity|]. cbn. repeat split; try reflexivity. discriminate.
Qed.

(** C9.  A clip that is already 1080x1920 is cropped to its full frame
    (offsets 0, 0 and size 1080x1920) and resized to 1080x1920 with scale
    factor 1 on both axes: normalising it again changes nothing. *)
Theorem C9_normalize_idempotent :
  normalize target_w target_h =
    Ok (Normalized (CropBox 0 0 1080 1920) 1080 1920) /\
  (forall n, normalize target_w target_h = Ok n ->
     left_margin (box n) = 0 /\ right_margin target_w (box n) = 0 /\
     top_margin (box n) = 0 /\ bottom_margin target_h (box n) = 0 /\
     (scale_x n == 1)%Q /\ (scale_y n == 1)%Q /\
     normalize (out_w n) (out_h n) = Ok n).
Proof.
  split; [reflexivity|].
  intros n Hn. change (normalize target_w target_h)
    with (Ok (Normalized (CropBox 0 0 1080 1920) 1080 1920)) in Hn.
  injection Hn as <-. repeat split; reflexivity.
Qed.

End GeometryFacts.

(** ** Binary64 and the rational model *)

Section Binary64Facts.
Import Binary64.

Lemma all_from_spec (fuel : nat) (i : Z) (p : Z -> bool) :
  all_from fuel i p = true ->
  forall z, i <= z < i + Z.of_nat fuel -> p z = true.
Proof.
  revert i. induction fuel as [|k IH]; intros i H z Hz; [lia|].
  cbn [all_from] in H. apply andb_true_iff in H as [Hi Hrest].
  destruct (Z.eq_dec z i) as [->|Hne]; [exact Hi|].
  apply (IH (i + 1) Hrest). lia.
Qed.

Lemma all_from_range (n i : Z) (p : Z -> bool) :
  all_from (Z.to_nat n) i p = true ->
  forall z, i <= z < i + n -> p z = true.
Proof.
  intros H z Hz. apply (all_from_spec _ _ _ H). lia.
Qed.

Lemma sizes_agree_upto_8192 : all_from (Z.to_nat 8192) 1 sizes_agree = true.
Proof. vm_compute. reflexivity. Qed.

Lemma test_agrees_upto_512 :
  all_from (Z.to_nat 512) 1
    (fun w => all_from (Z.to_nat 512) 1 (fun h => test_agrees w h)) = true.
Proof. vm_compute. reflexivity. Qed.

(** On binary64 numbers the truncated products are the exact integer
    quotients for every dimension up to 8192. *)
Lemma binary64_sizes (x : Z) :
  1 <= x <= 8192 ->
  int_of_float (PrimFloat.mul (float_of_int x) target_ratio) = 9 * x / 16 /\
  int_of_float (PrimFloat.div (float_of_int x) target_ratio) = 16 * x / 9.
Proof.
  intros Hx.
  pose proof (all_from_range _ _ _ sizes_agree_upto_8192 x ltac:(lia)) as H.
  unfold sizes_agree in H. apply andb_true_iff in H as [H1 H2].
  apply Z.eqb_eq in H1, H2. auto.
Qed.

(** For every frame up to 512x512 the binary64 computation and the
    rational one give the same crop rectangle. *)
Lemma binary64_crop_region (w h : Z) :
  1 <= w <= 512 -> 1 <= h <= 512 ->
  Binary64.crop_region w h = Geometry.crop_region w h.
Proof.
  intros Hw Hh.
  rewrite crop_region_closed by lia.
  pose proof (all_from_range _ _ _ test_agrees_upto_512 w ltac:(lia)) as Hrow.
  cbv beta in Hrow.
  pose proof (all_from_range _ _ _ Hrow h ltac:(lia)) as Htest.
  unfold test_agrees in Htest. apply Bool.eqb_prop in Htest.
  destruct (binary64_sizes w ltac:(lia)) as (_ & Hcw).
  destruct (binary64_sizes h ltac:(lia)) as (Hch & _).
  unfold Binary64.crop_region.
  destruct (Z.eqb_spec h 0) as [->|_]; [lia|].
  rewrite Htest. destruct (9 * h <? 16 * w).
  - rewrite Hch. reflexivity.
  - rewrite Hcw. reflexivity.
Qed.

(** The same on the frame sizes of common video formats. *)
Lemma binary64_common_sizes :
  forallb (fun s => same_box (Binary64.crop_region (fst s) (snd s))
                             (Geometry.crop_region (fst s) (snd s)))
    common_sizes = true.
Proof. vm_compute. reflexivity. Qed.

End Binary64Facts.

(** ** Python numbers *)

Section NumberFacts.
Import Py.

Lemma value_compare_antisym (a b : value) :
  value_compare b a = CompOpp <$> value_compare a b.
Proof.
  destruct a as [p| | |], b as [q| | |]; cbn; try reflexivity.
  rewrite <- Qcompare_antisym. reflexivity.
Qed.

(** [a >= b] is [b <= a] and [a > b] is [b < a], also on NaN. *)
Lemma py_ge_le (a b : number) : py_ge a b = py_le b a.
Proof.
  unfold py_ge, py_le, num_compare.
  rewrite (value_compare_antisym (num_value a) (num_value b)).
  destruct (value_compare (num_value a) (num_value b)) as [[]|]; reflexivity.
Qed.

Lemma py_gt_lt (a b : number) : py_gt a b = py_lt b a.
Proof.
  unfold py_gt, py_lt, num_compare.
  rewrite (value_compare_antisym (num_value a) (num_value b)).
  destruct (value_compare (num_value a) (num_value b)) as [[]|]; reflexivity.
Qed.

(** On two [int]s the comparisons are those of the integers. *)
Lemma py_ge_int (x y : Z) : py_ge (Int x) (Int y) = (y <=? x).
Proof.
  unfold py_ge, num_compare. cbn [num_value value_compare].
  unfold Qcompare. cbn [Qnum Qden inject_Z]. rewrite !Z.mul_1_r.
  destruct (Z.compare_spec x y), (Z.leb_spec y x); try reflexivity; lia.
Qed.

(** What the comparisons say about the values. *)
Lemma py_lt_finite (a b : number) (p q : Q) :
  num_value a = Finite p -> num_value b = Finite q ->
  py_lt a b = true <-> (p < q)%Q.
Proof.
  intros Ha Hb. unfold py_lt, num_compare. rewrite Ha, Hb. cbn [value_compare].
  rewrite Qlt_alt. destruct (p ?= q)%Q; split; congruence.
Qed.

Lemma py_le_finite (a b : number) (p q : Q) :
  num_value a = Finite p -> num_value b = Finite q ->
  py_le a b = true <-> (p <= q)%Q.
Proof.
  intros Ha Hb. unfold py_le, num_compare. rewrite Ha, Hb. cbn [value_compare].
  rewrite Qle_alt. destruct (p ?= q)%Q; split; congruence.
Qed.

Lemma py_lt_false_finite (a b : number) (p q : Q) :
  num_value a = Finite p -> num_value b = Finite q ->
  py_lt a b = false <-> (q <= p)%Q.
Proof.
  intros Ha Hb. rewrite <- not_true_iff_false, (py_lt_finite _ _ _ _ Ha Hb).
  split; [apply Qnot_lt_le|apply Qle_not_lt].
Qed.

Lemma py_le_false_finite (a b : number) (p q : Q) :
  num_value a = Finite p -> num_value b = Finite q ->
  py_le a b = false <-> (q < p)%Q.
Proof.
  intros Ha Hb. rewrite <- not_true_iff_false, (py_le_finite _ _ _ _ Ha Hb).
  split; [apply Qnot_le_lt|apply Qlt_not_le].
Qed.

End NumberFacts.

(** ** The retry loop *)

Section RetryFacts.
Import Py World Selector.
Variable E : env.

Lemma retry_loop_success attempt rest w response :
  generate_content E (calls w) = Generated response ->
  retry_loop E (attempt :: rest) w = (Ok response, after_call w).
Proof.
  intros H. cbn [retry_loop]. unfold mbind, M_bind, call_generate. rewrite H.
  reflexivity.
Qed.

Lemma retry_loop_backoff attempt rest w msg :
  generate_content E (calls w) = GenFailed msg ->
  rate_limited msg = true ->
  attempt < max_retries - 1 ->
  retry_loop E (attempt :: rest) w = retry_loop E rest (after_backoff attempt (after_call w)).
Proof.
  intros H Hr Ha. cbn [retry_loop]. unfold mbind, M_bind, call_generate.
  rewrite H, Hr. apply Z.ltb_lt in Ha. rewrite Ha. reflexivity.
Qed.

Lemma retry_loop_exhausted attempt rest w msg :
  generate_content E (calls w) = GenFailed msg ->
  rate_limited msg = true ->
  max_retries - 1 <= attempt ->
  retry_loop E (attempt :: rest) w =
    (Raise (Exception rate_limit_message), after_call w).
Proof.
  intros H Hr Ha. cbn [retry_loop]. unfold mbind, M_bind, call_generate.
  rewrite H, Hr. apply Z.ltb_ge in Ha. rewrite Ha. reflexivity.
Qed.

Lemma retry_loop_other_error attempt rest w msg :
  generate_content E (calls w) = GenFailed msg ->
  rate_limited msg = false ->
  retry_loop E (attempt :: rest) w = (Raise (Exception msg), after_call w).
Proof.
  intros H Hr. cbn [retry_loop]. unfold mbind, M_bind, call_generate.
  rewrite H, Hr. reflexivity.
Qed.

Lemma range_max_retries : range max_retries = [0; 1; 2].
Proof. reflexivity. Qed.

(** Whatever the service answers, the loop makes at most three calls and
    sleeps 2s, then 4s, and never a third time. *)
Lemma retry_at_most_three_attempts w :
  exists new,
    log (snd (generate_with_retry E w)) = log w ++ new /\
    (attempts_made new <= 3)%nat /\
    (sleeps new = [] \/ sleeps new = [2] \/ sleeps new = [2; 4]).
Proof.
  unfold generate_with_retry. rewrite range_max_retries.
  destruct (generate_content E (calls w)) as [t|m] eqn:H0.
  { rewrite (retry_loop_success _ _ _ _ H0). exists [Generate]. cbn. auto. }
  destruct (rate_limited m) eqn:R0.
  2:{ rewrite (retry_loop_other_error _ _ _ _ H0 R0). exists [Generate]. cbn. auto. }
  rewrite (retry_loop_backoff _ _ _ _ H0 R0) by (cbv; reflexivity).
  set (w1 := after_backoff 0 (after_call w)).
  assert (L1 : log w1 = log w ++ [Generate; RateLimitWarning 2 2; Sleep 2]).
  { subst w1. cbn. rewrite <- !app_assoc. reflexivity. }
  destruct (generate_content E (calls w1)) as [t|m1] eqn:H1.
  { rewrite (retry_loop_success _ _ _ _ H1). cbn [snd after_call log]. rewrite L1.
    rewrite <- app_assoc. eexists. split; [reflexivity|]. cbn. auto. }
  destruct (rate_limited m1) eqn:R1.
  2:{ rewrite (retry_loop_other_error _ _ _ _ H1 R1). cbn [snd after_call log]. rewrite L1.
      rewrite <- app_assoc. eexists. split; [reflexivity|]. cbn. auto. }
  rewrite (retry_loop_backoff _ _ _ _ H1 R1) by (cbv; reflexivity).
  set (w2 := after_backoff 1 (after_call w1)).
  assert (L2 : log w2 = log w ++ [Generate; RateLimitWarning 2 2; Sleep 2;
                                   Generate; RateLimitWarning 4 3; Sleep 4]).
  { subst w2. cbn [after_backoff after_call log]. rewrite L1.
    rewrite <- !app_assoc. reflexivity. }
  destruct (generate_content E (calls w2)) as [t|m2] eqn:H2.
  { rewrite (retry_loop_success _ _ _ _ H2). cbn [snd after_call log]. rewrite L2.
    rewrite <- app_assoc. eexists. split; [reflexivity|]. cbn. auto. }
  destruct (rate_limited m2) eqn:R2.
  2:{ rewrite (retry_loop_other_error _ _ _ _ H2 R2). cbn [snd after_call log]. rewrite L2.
      rewrite <- app_assoc. eexists. split; [reflexivity|]. cbn. auto. }
  rewrite (retry_loop_exhausted _ _ _ _ H2 R2) by (cbv; discriminate).
  cbn [snd after_call log]. rewrite L2.
  rewrite <- app_assoc. eexists. split; [reflexivity|]. cbn. auto.
Qed.

(** C1, as the code has it.  When the service keeps answering with a
    rate-limit error, the loop makes three calls in all, sleeps 2s after the
    first and 4s after the second, and the third error ends the analysis:
    no third sleep, no fourth call, no response.  Whatever the service
    answers, there are never more than three calls. *)
Theorem C1_three_attempts_two_sleeps (w : world) :
  (forall k : nat, (k < 3)%nat ->
     exists msg, generate_content E (calls w + k) = GenFailed msg /\
                 rate_limited msg = true) ->
  exists w',
    generate_with_retry E w = (Raise (Exception rate_limit_message), w') /\
    calls w' = (calls w + 3)%nat /\
    log w' = log w ++ [Generate; RateLimitWarning 2 2; Sleep 2;
                       Generate; RateLimitWarning 4 3; Sleep 4;
                       Generate] /\
    sleeps (drop (length (log w)) (log w')) = [2; 4] /\
    attempts_made (drop (length (log w)) (log w')) = 3%nat /\
    fs w' = fs w /\ temp_paths w' = temp_paths w /\
    (forall response, fst (generate_or_report E w) <> Ok (Some response)).
Proof.
  intros H.
  destruct (H 0%nat ltac:(lia)) as (m0 & H0 & R0).
  destruct (H 1%nat ltac:(lia)) as (m1 & H1 & R1).
  destruct (H 2%nat ltac:(lia)) as (m2 & H2 & R2).
  rewrite Nat.add_0_r in H0.
  replace (calls w + 1)%nat with (S (calls w)) in H1 by lia.
  replace (calls w + 2)%nat with (S (S (calls w))) in H2 by lia.
  assert (Hrun : generate_with_retry E w =
    (Raise (Exception rate_limit_message),
     after_call (after_backoff 1 (after_call (after_backoff 0 (after_call w)))))).
  { unfold generate_with_retry. rewrite range_max_retries.
    rewrite (retry_loop_backoff _ _ _ _ H0 R0) by (cbv; reflexivity).
    rewrite (retry_loop_backoff _ _ _ m1) by (try (cbv; reflexivity); assumption).
    rewrite (retry_loop_exhausted _ _ _ m2) by (try (cbv; discriminate); assumption).
    reflexivity. }
  eexists. split; [exact Hrun|].
  assert (Hlog : log (after_call (after_backoff 1 (after_call (after_backoff 0 (after_call w)))))
            = log w ++ [Generate; RateLimitWarning 2 2; Sleep 2;
                        Generate; RateLimitWarning 4 3; Sleep 4; Generate]).
  { cbn. rewrite <- !app_assoc. reflexivity. }
  split; [cbn; lia|]. split; [exact Hlog|].
  rewrite Hlog, drop_app_length.
  repeat split; try reflexivity.
  intros response. unfold generate_or_report, try_except, mbind, M_bind.
  rewrite Hrun. unfold emit, list_models.
  destruct (list_models_ok E); cbn; discriminate.
Qed.

End RetryFacts.

(** C1 on a service that always answers 429. *)
Lemma C1_three_attempts_two_sleeps_witness :
  exists w',
    Selector.generate_with_retry Examples.always_429 Examples.w0 =
      (Raise (Exception Selector.rate_limit_message), w') /\
    World.calls w' = 3%nat /\
    World.log w' = [World.Generate; World.RateLimitWarning 2 2; World.Sleep 2;
                    World.Generate; World.RateLimitWarning 4 3; World.Sleep 4;
                    World.Generate].
Proof.
  destruct (C1_three_attempts_two_sleeps Examples.always_429 Examples.w0)
    as (w' & Hrun & Hcalls & Hlog & _).
  - intros k _. eexists. split; reflexivity.
  - exists w'. repeat split; assumption.
Defined.

(** C1 as stated fails: with a service that always answers 429 the loop
    stops at the third error, having slept 2s and 4s only; there is no 8s
    sleep and no fourth call. *)
Lemma C1_no_third_sleep_no_fourth_call :
  let w' := snd (Selector.generate_with_retry Examples.always_429 Examples.w0) in
  fst (Selector.generate_with_retry Examples.always_429 Examples.w0) =
    Raise (Exception Selector.rate_limit_message) /\
  Selector.sleeps (World.log w') = [2; 4] /\
  Selector.sleeps (World.log w') <> [2; 4; 8] /\
  Selector.attempts_made (World.log w') = 3%nat /\
  World.calls w' = 3%nat.
Proof. cbn. repeat split; try reflexivity. discriminate. Qed.

(** ** Reading the answer *)

Section ParserFacts.
Import Py World Selector.

Lemma split_lines_cons (s : str) : exists l ls, split_lines s = l :: ls.
Proof.
  induction s as [|c t IH]; cbn.
  - eauto.
  - destruct (c =? newline)%N; [eauto|].
    destruct IH as (l & ls & ->). eauto.
Qed.

Lemma join_lines_cons (c : N) (l : str) (r : list str) :
  join_lines ((c :: l) :: r) = c :: join_lines (l :: r).
Proof. destruct r; reflexivity. Qed.

Lemma split_lines_step (c : N) (t l : str) (ls : list str) :
  (c =? newline)%N = false ->
  split_lines t = l :: ls ->
  split_lines (c :: t) = (c :: l) :: ls.
Proof. intros Hc Ht. cbn [split_lines]. rewrite Hc, Ht. reflexivity. Qed.

Lemma split_lines_newline (t : str) :
  split_lines (newline :: t) = [] :: split_lines t.
Proof. reflexivity. Qed.

(** The scanner with its flag agrees with the line-by-line description,
    both outside and inside a comment. *)
Lemma strip_from_lines (s : str) :
  strip_from false s = join_lines (map cut_comment (split_lines s)) /\
  strip_from true s = join_lines ([] :: tail (map cut_comment (split_lines s))).
Proof.
  induction s as [|c t [IHf IHt]].
  - split; reflexivity.
  - destruct (split_lines_cons t) as (l & ls & Hsplit).
    split.
    + (* outside a comment *)
      destruct t as [|c' t'].
      * cbn. destruct (c =? newline)%N eqn:Hnl; [|reflexivity].
        apply N.eqb_eq in Hnl. subst c. reflexivity.
      * destruct (split_lines_cons t') as (l' & ls' & Hsplit').
        destruct ((c =? slash)%N && (c' =? slash)%N) eqn:Hsl.
        -- assert (Hstep : strip_from false (c :: c' :: t') = strip_from true (c' :: t')).
           { cbn [strip_from]. rewrite Hsl. reflexivity. }
           rewrite Hstep, IHt.
           apply andb_true_iff in Hsl as [Hc Hc'].
           apply N.eqb_eq in Hc, Hc'. subst c c'.
           rewrite (split_lines_step slash t' l' ls' eq_refl Hsplit').
           rewrite (split_lines_step slash (slash :: t') (slash :: l') ls' eq_refl
                      (split_lines_step slash t' l' ls' eq_refl Hsplit')).
           reflexivity.
        -- assert (Hstep : strip_from false (c :: c' :: t') = c :: strip_from false (c' :: t')).
           { cbn [strip_from]. rewrite Hsl. reflexivity. }
           rewrite Hstep, IHf.
           destruct (c =? newline)%N eqn:Hnl.
           ++ apply N.eqb_eq in Hnl. subst c.
              rewrite split_lines_newline, Hsplit. reflexivity.
           ++ rewrite (split_lines_step c _ l ls Hnl Hsplit), Hsplit.
              cbn [map]. rewrite <- join_lines_cons. f_equal. f_equal.
              destruct (c' =? newline)%N eqn:Hnl'.
              ** apply N.eqb_eq in Hnl'. subst c'.
                 rewrite split_lines_newline in Hsplit.
                 inversion Hsplit; subst. reflexivity.
              ** rewrite (split_lines_step c' t' l' ls' Hnl' Hsplit') in Hsplit.
                 inversion Hsplit; subst.
                 cbn [cut_comment]. rewrite Hsl. reflexivity.
    + (* inside a comment *)
      cbn [strip_from]. destruct (c =? newline)%N eqn:Hnl.
      * apply N.eqb_eq in Hnl. subst c.
        rewrite IHf, split_lines_newline, Hsplit. reflexivity.
      * rewrite IHt, (split_lines_step c t l ls Hnl Hsplit), Hsplit. reflexivity.
Qed.

Lemma strip_comments_lines (s : str) :
  strip_comments s = join_lines (map cut_comment (split_lines s)).
Proof. apply strip_from_lines. Qed.

Lemma starts_with_app (p s : str) :
  starts_with p s = true -> s = p ++ drop (length p) s.
Proof.
  revert s. induction p as [|a p IH]; intros s H.
  - reflexivity.
  - destruct s as [|b s]; [discriminate|]. cbn in H.
    apply andb_true_iff in H as [Hab Hp]. apply N.eqb_eq in Hab. subst b.
    cbn. f_equal. apply IH, Hp.
Qed.

Lemma skip_spaces_app (s : str) :
  exists ws, s = ws ++ skip_spaces s /\ Forall (fun c => is_space c = true) ws.
Proof.
  induction s as [|c t (ws & Ht & Hws)].
  - exists []. split; [reflexivity|constructor].
  - cbn [skip_spaces]. destruct (is_space c) eqn:Hc.
    + exists (c :: ws). split; [cbn; f_equal; exact Ht|constructor; assumption].
    + exists []. split; [reflexivity|constructor].
Qed.

(** What the lazy body stops at: the first closing bracket that is
    followed by white space and a fence. *)
Lemma lazy_body_app (s r : str) :
  lazy_body s = Some r ->
  exists body ws post,
    r = body ++ [close_bracket] /\
    s = r ++ ws ++ fence ++ post /\
    Forall (fun c => is_space c = true) ws.
Proof.
  revert r. induction s as [|c t IH]; intros r H; [discriminate|].
  cbn [lazy_body] in H.
  destruct ((c =? close_bracket)%N && starts_with fence (skip_spaces t)) eqn:Hstop.
  - injection H as <-. apply andb_true_iff in Hstop as [Hc Hf].
    apply N.eqb_eq in Hc. subst c.
    destruct (skip_spaces_app t) as (ws & Ht & Hws).
    apply starts_with_app in Hf.
    exists [], ws, (drop (length fence) (skip_spaces t)).
    split; [reflexivity|]. split; [|assumption].
    cbn [app]. f_equal. rewrite <- Hf. exact Ht.
  - destruct (lazy_body t) as [r'|] eqn:Hr'; [|discriminate].
    injection H as <-.
    destruct (IH r' eq_refl) as (body & ws & post & -> & Ht & Hws).
    exists (c :: body), ws, post. split; [reflexivity|]. split; [|assumption].
    cbn [app]. f_equal. exact Ht.
Qed.

Lemma match_fenced_at_app (s g : str) :
  match_fenced_at s = Some g ->
  exists tag ws1 body ws2 post,
    s = fence ++ tag ++ ws1 ++ g ++ ws2 ++ fence ++ post /\
    (tag = [] \/ tag = codes "json") /\
    Forall (fun c => is_space c = true) ws1 /\
    Forall (fun c => is_space c = true) ws2 /\
    g = open_bracket :: body ++ [close_bracket].
Proof.
  unfold match_fenced_at. intros H.
  destruct (starts_with fence s) eqn:Hf; [|discriminate].
  apply starts_with_app in Hf. change (length fence) with 3%nat in Hf.
  set (r := drop 3 s) in *.
  set (r' := if starts_with (codes "json") r then drop 4 r else r) in *.
  assert (Htag : exists tag, r = tag ++ r' /\ (tag = [] \/ tag = codes "json")).
  { subst r'. destruct (starts_with (codes "json") r) eqn:Hj.
    - apply starts_with_app in Hj. exists (codes "json"). split; [exact Hj|auto].
    - exists []. split; [reflexivity|auto]. }
  destruct Htag as (tag & Hr & Htag).
  destruct (skip_spaces_app r') as (ws1 & Hr' & Hws1).
  destruct (skip_spaces r') as [|c t]; [discriminate|].
  destruct (c =? open_bracket)%N eqn:Hc; [|discriminate].
  apply N.eqb_eq in Hc. subst c.
  destruct (lazy_body t) as [b|] eqn:Hb; [|discriminate].
  injection H as <-.
  destruct (lazy_body_app _ _ Hb) as (body & ws2 & post & -> & Ht & Hws2).
  exists tag, ws1, body, ws2, post.
  split; [|auto].
  rewrite Hf, Hr, Hr', Ht. cbn [app]. rewrite <- !app_assoc. reflexivity.
Qed.

(** What the fenced-block search returns: a bracketed text that stands
    in the answer between a fence (with an optional [json] tag) and a
    fence, white space apart. *)
Lemma search_fenced_app (text g : str) :
  search_fenced text = Some g ->
  exists pre tag ws1 body ws2 post,
    text = pre ++ fence ++ tag ++ ws1 ++ g ++ ws2 ++ fence ++ post /\
    (tag = [] \/ tag = codes "json") /\
    Forall (fun c => is_space c = true) ws1 /\
    Forall (fun c => is_space c = true) ws2 /\
    g = open_bracket :: body ++ [close_bracket].
Proof.
  induction text as [|c t IH]; intros H.
  - cbn in H. discriminate.
  - cbn [search_fenced] in H.
    destruct (match_fenced_at (c :: t)) as [g'|] eqn:Hm.
    + injection H as <-.
      destruct (match_fenced_at_app _ _ Hm) as (tag & ws1 & body & ws2 & post & Ht & Hrest).
      exists [], tag, ws1, body, ws2, post. split; [exact Ht|exact Hrest].
    + destruct (IH H) as (pre & tag & ws1 & body & ws2 & post & Ht & Hrest).
      exists (c :: pre), tag, ws1, body, ws2, post.
      split; [cbn [app]; f_equal; exact Ht|exact Hrest].
Qed.

Lemma upto_last_close_none (s : str) :
  upto_last_close s = None -> close_bracket ∉ s.
Proof.
  induction s as [|c t IH]; intros H.
  - apply not_elem_of_nil.
  - cbn [upto_last_close] in H.
    destruct (upto_last_close t); [discriminate|].
    destruct (c =? close_bracket)%N eqn:Hc; [discriminate|].
    apply N.eqb_neq in Hc. apply not_elem_of_cons. split; [congruence|auto].
Qed.

Lemma upto_last_close_app (s r : str) :
  upto_last_close s = Some r ->
  exists body post,
    r = body ++ [close_bracket] /\ s = r ++ post /\ close_bracket ∉ post.
Proof.
  revert r. induction s as [|c t IH]; intros r H; [discriminate|].
  cbn [upto_last_close] in H.
  destruct (upto_last_close t) as [r'|] eqn:Hr'.
  - injection H as <-.
    destruct (IH r' eq_refl) as (body & post & -> & Ht & Hpost).
    exists (c :: body), post. split; [reflexivity|]. split; [|assumption].
    cbn [app]. f_equal. exact Ht.
  - destruct (c =? close_bracket)%N eqn:Hc; [|discriminate].
    injection H as <-. apply N.eqb_eq in Hc. subst c.
    exists [], t. split; [reflexivity|]. split; [reflexivity|].
    apply upto_last_close_none, Hr'.
Qed.

(** What the bracket search returns: the text from the first opening
    bracket of the answer to its last closing bracket. *)
Lemma search_bracket_app (text g : str) :
  search_bracket text = Some g ->
  exists pre body post,
    text = pre ++ g ++ post /\
    g = open_bracket :: body ++ [close_bracket] /\
    (open_bracket ∉ pre) /\ (close_bracket ∉ post).
Proof.
  induction text as [|c t IH]; intros H; [discriminate|].
  cbn [search_bracket] in H.
  destruct (c =? open_bracket)%N eqn:Hc.
  - apply N.eqb_eq in Hc. subst c.
    destruct (upto_last_close t) as [r|] eqn:Hr; [|discriminate].
    injection H as <-.
    destruct (upto_last_close_app _ _ Hr) as (body & post & -> & Ht & Hpost).
    exists [], body, post. split; [cbn [app]; f_equal; exact Ht|].
    split; [reflexivity|]. split; [apply not_elem_of_nil|assumption].
  - apply N.eqb_neq in Hc.
    destruct (IH H) as (pre & body & post & Ht & Hg & Hpre & Hpost).
    exists (c :: pre), body, post. split; [cbn [app]; f_equal; exact Ht|].
    split; [assumption|]. split; [|assumption].
    apply not_elem_of_cons. split; [congruence|assumption].
Qed.

Section Cascade.
Variable E : env.

Lemma first_success_strategies (text : str) :
  first_success (strategies E) text =
    match decoded (json_loads E text) with
    | Some v => Some v
    | None =>
        match parse_fenced E text with
        | Some v => Some v
        | None => parse_bracketed E text
        end
    end.
Proof.
  unfold strategies. cbn [first_success].
  destruct (decoded (json_loads E text)); [reflexivity|].
  destruct (parse_fenced E text); [reflexivity|].
  destruct (parse_bracketed E text); reflexivity.
Qed.

(** The handler of line 138 tries the two recoveries in order and reports
    the raw text when both fail. *)
Lemma recover_first_success (text : str) (w : world) :
  recover E text w =
    match first_success [parse_fenced E; parse_bracketed E] text with
    | Some segments => (Ok (Some segments), w)
    | None => (Ok None, report_malformed text w)
    end.
Proof.
  unfold recover. cbn [first_success].
  destruct (parse_fenced E text); [reflexivity|].
  destruct (parse_bracketed E text); reflexivity.
Qed.

(** C4, as the code has it.  The answer is read by three strategies tried
    in this order: the whole text; the bracketed text of the first fenced
    block; the text from the first opening bracket to the last closing
    bracket with its [//] comments cut line by line.  When the whole text
    decodes or fails with a JSON decoding error, the first strategy whose
    text decodes gives the edit decision list, and when none does the stage
    returns no list, after an error message and the raw text were shown.
    When decoding the whole text raises another exception, the two other
    strategies are not tried and nothing is shown: the exception leaves the
    parsing block. *)
Theorem C4_parse_cascade (text : str) (w : world) :
  ((forall e, json_loads E text = Raise e -> e = JSONDecodeError) ->
   parse_response E text w =
     match first_success (strategies E) text with
     | Some segments => (Ok (Some segments), w)
     | None => (Ok None, report_malformed text w)
     end) /\
  (forall e, json_loads E text = Raise e -> e <> JSONDecodeError ->
     parse_response E text w = (Raise e, w)) /\
  strategies E =
    [(fun t => decoded (json_loads E t)); parse_fenced E; parse_bracketed E] /\
  parse_fenced E text =
    (search_fenced text ≫= (fun g => decoded (json_loads E g))) /\
  parse_bracketed E text =
    (search_bracket text ≫=
       (fun g => decoded (json_loads E (join_lines (map cut_comment (split_lines g)))))) /\
  (forall g, search_fenced text = Some g ->
     exists pre tag ws1 body ws2 post,
       text = pre ++ fence ++ tag ++ ws1 ++ g ++ ws2 ++ fence ++ post /\
       (tag = [] \/ tag = codes "json") /\
       Forall (fun c => is_space c = true) ws1 /\
       Forall (fun c => is_space c = true) ws2 /\
       g = open_bracket :: body ++ [close_bracket]) /\
  (forall g, search_bracket text = Some g ->
     exists pre body post,
       text = pre ++ g ++ post /\
       g = open_bracket :: body ++ [close_bracket] /\
       (open_bracket ∉ pre) /\ (close_bracket ∉ post)).
Proof.
  split; [|split; [|split; [|split; [|split; [|split]]]]].
  - intros Honly. rewrite first_success_strategies. unfold parse_response.
    destruct (json_loads E text) as [v|e] eqn:Hdirect; [reflexivity|].
    rewrite (Honly e eq_refl). cbn [decoded]. rewrite recover_first_success.
    cbn [first_success].
    destruct (parse_fenced E text); [reflexivity|].
    destruct (parse_bracketed E text); reflexivity.
  - intros e He Hother. unfold parse_response. rewrite He.
    destruct e; try reflexivity. exfalso. apply Hother. reflexivity.
  - reflexivity.
  - unfold parse_fenced. destruct (search_fenced text); reflexivity.
  - unfold parse_bracketed. destruct (search_bracket text) as [g|]; [|reflexivity].
    cbn. rewrite strip_comments_lines. reflexivity.
  - apply search_fenced_app.
  - apply search_bracket_app.
Qed.

End Cascade.

End ParserFacts.

(** The fenced block of the end-to-end scenario is found, and the
    fenced-block strategy decodes it although the whole text does not
    decode. *)
Example fenced_answer_is_recovered :
  Selector.search_fenced Examples.fenced_answer = Some (codes "[{...}]") /\
  World.json_loads Examples.decodes_bracketed Examples.fenced_answer =
    Raise JSONDecodeError /\
  Selector.parse_response Examples.decodes_bracketed Examples.fenced_answer
    Examples.w0 = (Ok (Some (Py.PyList [])), Examples.w0).
Proof. repeat split; vm_compute; reflexivity. Qed.

(** An array with [//] comments is read by the third strategy: the text
    between the first opening and the last closing bracket, each line cut
    at its comment. *)
Example commented_answer_is_recovered :
  Selector.search_fenced Examples.commented_answer = None /\
  Selector.search_bracket Examples.commented_answer = Some (codes "[
  1, // first take
  2  // second take
]") /\
  (Selector.strip_comments <$> Selector.search_bracket Examples.commented_answer)
    = Some (codes "[
  1, 
  2  
]") /\
  Selector.parse_response Examples.decodes_bracketed Examples.commented_answer
    Examples.w0 = (Ok (Some (Py.PyList [])), Examples.w0).
Proof. repeat split; vm_compute; reflexivity. Qed.

(** The bracket search is greedy: with two arrays in the text it returns
    everything from the first opening bracket to the last closing one. *)
Example bracket_search_is_greedy :
  Selector.search_bracket (codes "x [1] y [2] z") = Some (codes "[1] y [2]").
Proof. vm_compute. reflexivity. Qed.

(** A text without any array: the three strategies fail, the error and the
    raw text are shown and no list is returned. *)
Example unreadable_answer_is_reported :
  Selector.parse_response Examples.decodes_bracketed (codes "no array here")
    Examples.w0 =
  (Ok None,
   World.World_ ∅ 0%nat 0%nat
     [World.UiError "Failed to parse JSON from Gemini response." None;
      World.UiCode (codes "no array here")] []).
Proof. vm_compute. reflexivity. Qed.

(** C4 as stated fails.  On an answer nested too deep for the decoder,
    decoding the whole text raises [RecursionError], which line 138 does not
    catch.  None of the three strategies would decode the text, and the
    bracket strategy has a text to try; but the two recoveries are not
    tried and the parser shows nothing: the analysis ends in its general
    handler, and the raw text is not shown. *)
Lemma C4_other_decoder_error_skips_recovery :
  Selector.first_success (Selector.strategies Examples.answers_too_deep)
    Examples.deep_answer = None /\
  Selector.search_bracket Examples.deep_answer = Some Examples.deep_answer /\
  Selector.parse_response Examples.answers_too_deep Examples.deep_answer
    Examples.w0 = (Raise RecursionError, Examples.w0) /\
  Selector.analyze_videos_with_gemini Examples.answers_too_deep
    Examples.two_sources Examples.w0 =
  (Ok (None, [0%nat; 1%nat]),
   World.World_ Examples.two_sources_disk 2%nat 1%nat
     [World.Generate;
      World.UiError "An error occurred during AI analysis" (Some RecursionError)]
     [0%nat; 1%nat]).
Proof. repeat split; vm_compute; reflexivity. Qed.

(** ** Segment validation *)

Section SegmentFacts.
Import Py World Assembler.
Variable disk : gmap path content.
Variable temp_paths : list path.
Variable transition_type filter_type : str.

Abbreviation process_segment := (process_segment disk temp_paths transition_type filter_type).
Abbreviation process_loop := (process_loop disk temp_paths transition_type filter_type).
Abbreviation outcomes := (outcomes disk temp_paths transition_type filter_type).



Lemma list_getitem_in_range {A : Type} (l : list A) (i : Z) (x : A) :
  0 <= i -> l !! Z.to_nat i = Some x -> list_getitem l i = Ok x.
Proof.
  intros Hi Hx. unfold list_getitem.
  pose proof (lookup_lt_Some _ _ _ Hx) as Hlt.
  destruct (Z.ltb_spec i 0); [lia|].
  destruct (Z.ltb_spec i 0); [lia|].
  destruct (Z.leb_spec (Z.of_nat (length l)) i); [lia|].
  cbn. rewrite Hx. reflexivity.
Qed.

(** The first lines of a turn on a well-formed entry whose index is in
    range: what is left is the validation of the time range. *)
Lemma process_segment_in_range segment idx start_obj end_obj start_time end_time p v :
  getitem segment "source_index" = Ok (PyInt idx) ->
  getitem segment "start_time" = Ok start_obj ->
  getitem segment "end_time" = Ok end_obj ->
  as_number start_obj = Ok start_time ->
  as_number end_obj = Ok end_time ->
  0 <= idx < Z.of_nat (length temp_paths) ->
  temp_paths !! Z.to_nat idx = Some p ->
  open_video disk p = Ok v ->
  process_segment segment =
    let end_value := clamp_end end_time (duration v) in
    if py_ge start_time end_value then Ok None
    else
      difference ← num_sub end_value start_time;
      if py_lt difference shortest then Ok None
      else
        sub_duration ← subclip (duration v) start_time end_value;
        geometry ← Geometry.normalize (width v) (height v);
        Ok (Some (Clip p start_time end_value sub_duration geometry
                    (apply_filter filter_type)
                    (apply_transition transition_type)
                    (has_audio v))).
Proof.
  intros Hi Hs He Hsn Hen Hrange Hp Hv.
  unfold Assembler.process_segment. rewrite Hi, Hs, He.
  cbn [mbind res_bind as_number as_index].
  rewrite py_ge_int.
  destruct (Z.leb_spec (Z.of_nat (length temp_paths)) idx) as [Hle|_]; [lia|].
  rewrite (list_getitem_in_range _ _ _ (proj1 Hrange) Hp).
  cbn [mbind res_bind]. rewrite Hv. cbn [mbind res_bind]. rewrite Hen.
  cbn [mbind res_bind]. rewrite Hsn. reflexivity.
Qed.

(** Such an entry is skipped exactly when its clamped end is at or before
    its start, or the difference of the two is below 0.5. *)
Lemma process_segment_skipped segment idx start_obj end_obj start_time end_time p v :
  getitem segment "source_index" = Ok (PyInt idx) ->
  getitem segment "start_time" = Ok start_obj ->
  getitem segment "end_time" = Ok end_obj ->
  as_number start_obj = Ok start_time ->
  as_number end_obj = Ok end_time ->
  0 <= idx < Z.of_nat (length temp_paths) ->
  temp_paths !! Z.to_nat idx = Some p ->
  open_video disk p = Ok v ->
  process_segment segment = Ok None <->
    py_le (clamp_end end_time (duration v)) start_time = true \/
    exists difference,
      num_sub (clamp_end end_time (duration v)) start_time = Ok difference /\
      py_lt difference shortest = true.
Proof.
  intros Hi Hs He Hsn Hen Hrange Hp Hv.
  rewrite (process_segment_in_range _ _ _ _ _ _ _ _ Hi Hs He Hsn Hen Hrange Hp Hv).
  cbv zeta. rewrite py_ge_le.
  destruct (py_le (clamp_end end_time (duration v)) start_time); [split; auto|].
  destruct (num_sub (clamp_end end_time (duration v)) start_time)
    as [difference|e]; cbn [mbind res_bind].
  - destruct (py_lt difference shortest) eqn:Hshort.
    + split; [|reflexivity]. intros _. right. exists difference. auto.
    + split.
      * destruct (subclip _ _ _); cbn [mbind res_bind]; [|discriminate].
        destruct (Geometry.normalize _ _); cbn [mbind res_bind]; discriminate.
      * intros [H|(d' & Hd' & Hlt)]; [discriminate|].
        injection Hd' as <-. congruence.
  - split; [discriminate|].
    intros [H|(d' & Hd' & _)]; discriminate.
Qed.


(** The loop computes the outcomes of the entries in list order and keeps
    the accepted clips, unless one entry raises. *)
Lemma process_loop_outcomes (segments : list pyval) (clips : list clip) :
  process_loop segments clips =
    match outcomes segments with
    | Ok rs => Ok (clips ++ accepted rs)
    | Raise e => Raise e
    end.
Proof.
  revert clips. induction segments as [|segment rest IH]; intros clips.
  - cbn. rewrite app_nil_r. reflexivity.
  - cbn [Assembler.process_loop Assembler.outcomes mbind res_bind].
    destruct (process_segment segment) as [[c|]|e];
      cbn [mbind res_bind]; [| |reflexivity].
    + rewrite IH. destruct (outcomes rest); [|reflexivity].
      unfold accepted. cbn. rewrite <- app_assoc. reflexivity.
    + rewrite IH. destruct (outcomes rest); reflexivity.
Qed.

Lemma outcomes_app_raise (pre rest : list pyval) (segment : pyval) rs e :
  outcomes pre = Ok rs ->
  process_segment segment = Raise e ->
  outcomes (pre ++ segment :: rest) = Raise e.
Proof.
  revert rs. induction pre as [|s pre IH]; intros rs Hpre Hseg.
  - cbn. rewrite Hseg. reflexivity.
  - cbn [app Assembler.outcomes] in *.
    destruct (process_segment s); [|discriminate].
    destruct (outcomes pre) as [rs'|] eqn:Hrs'; [|discriminate].
    rewrite (IH rs' eq_refl Hseg). reflexivity.
Qed.

(** An entry whose index is at or beyond the number of sources is
    skipped. *)
Lemma process_segment_index_too_large segment idx start_obj end_obj :
  getitem segment "source_index" = Ok (PyInt idx) ->
  getitem segment "start_time" = Ok start_obj ->
  getitem segment "end_time" = Ok end_obj ->
  Z.of_nat (length temp_paths) <= idx ->
  process_segment segment = Ok None.
Proof.
  intros Hi Hs He Hge. unfold Assembler.process_segment.
  rewrite Hi, Hs, He. cbn [mbind res_bind as_number].
  rewrite py_ge_int.
  destruct (Z.leb_spec (Z.of_nat (length temp_paths)) idx); [reflexivity|lia].
Qed.

Lemma process_segment_not_a_dict (segment : pyval) :
  (forall items, segment <> PyDict items) ->
  process_segment segment = Raise TypeError.
Proof.
  intros H. destruct segment; try reflexivity. exfalso. eapply H. reflexivity.
Qed.

Lemma process_segment_missing_field (items : list (str * pyval)) :
  dict_get (codes "source_index") items = None \/
  dict_get (codes "start_time") items = None \/
  dict_get (codes "end_time") items = None ->
  exists key, process_segment (PyDict items) = Raise (KeyError key).
Proof.
  intros H. unfold Assembler.process_segment, getitem.
  destruct (dict_get (codes "source_index") items); [|eexists; reflexivity].
  cbn [mbind res_bind].
  destruct (dict_get (codes "start_time") items); [|eexists; reflexivity].
  cbn [mbind res_bind].
  destruct (dict_get (codes "end_time") items); [|eexists; reflexivity].
  exfalso. destruct H as [H|[H|H]]; discriminate.
Qed.

(** When the loop raises, the stage reports the error and returns its
    failure value. *)
Lemma process_video_segments_raises E items audio_file w e :
  fs w = disk ->
  process_loop items [] = Raise e ->
  process_video_segments E (PyList items) temp_paths transition_type audio_file
      filter_type w =
    (Ok None,
     World_ (fs w) (next_tmp w) (calls w)
       (log w ++ [UiError "Error processing video" (Some e)]) (World.temp_paths w)).
Proof.
  intros Hdisk Hloop. unfold process_video_segments, try_except.
  unfold mbind, M_bind, lift, get_disk. cbn [iterate].
  rewrite <- Hdisk in Hloop. rewrite Hloop. reflexivity.
Qed.

(** C5, as the code has it.  The entries are taken in list order.  An
    entry whose index is at or beyond the number of sources is skipped, and
    so is an entry with an index in range whose clamped range is empty (the
    clamped end is at or before the start) or shorter than half a second
    (the difference Python computes is below 0.5); the next one is then
    processed.  An entry that is not an object, or that lacks
    one of its three fields, raises: the loop stops there, the entries that
    follow are not processed, and the stage returns its failure value. *)
Theorem C5_skip_or_abort (segments : list pyval) (clips : list clip) :
  process_loop segments clips =
    match outcomes segments with
    | Ok rs => Ok (clips ++ accepted rs)
    | Raise e => Raise e
    end /\
  (forall segment idx start_obj end_obj,
     getitem segment "source_index" = Ok (PyInt idx) ->
     getitem segment "start_time" = Ok start_obj ->
     getitem segment "end_time" = Ok end_obj ->
     Z.of_nat (length temp_paths) <= idx ->
     process_segment segment = Ok None) /\
  (forall segment idx start_obj end_obj start_time end_time p v,
     getitem segment "source_index" = Ok (PyInt idx) ->
     getitem segment "start_time" = Ok start_obj ->
     getitem segment "end_time" = Ok end_obj ->
     as_number start_obj = Ok start_time ->
     as_number end_obj = Ok end_time ->
     0 <= idx < Z.of_nat (length temp_paths) ->
     temp_paths !! Z.to_nat idx = Some p ->
     open_video disk p = Ok v ->
     py_le (clamp_end end_time (duration v)) start_time = true \/
     (exists difference,
        num_sub (clamp_end end_time (duration v)) start_time = Ok difference /\
        py_lt difference shortest = true) ->
     process_segment segment = Ok None) /\
  (forall segment, (forall items, segment <> PyDict items) ->
     process_segment segment = Raise TypeError) /\
  (forall items,
     dict_get (codes "source_index") items = None \/
     dict_get (codes "start_time") items = None \/
     dict_get (codes "end_time") items = None ->
     exists key, process_segment (PyDict items) = Raise (KeyError key)) /\
  (forall pre segment rest rs e,
     outcomes pre = Ok rs ->
     process_segment segment = Raise e ->
     process_loop (pre ++ segment :: rest) clips = Raise e) /\
  (forall E items audio_file w e,
     fs w = disk ->
     process_loop items [] = Raise e ->
     fst (process_video_segments E (PyList items) temp_paths transition_type
            audio_file filter_type w) = Ok None).
Proof.
  split; [apply process_loop_outcomes|].
  split; [apply process_segment_index_too_large|].
  split.
  { intros segment idx start_obj end_obj start_time end_time p v
      Hi Hs He Hsn Hen Hrange Hp Hv Hskip.
    apply (process_segment_skipped _ _ _ _ _ _ _ _ Hi Hs He Hsn Hen Hrange Hp Hv).
    exact Hskip. }
  split; [apply process_segment_not_a_dict|].
  split; [apply process_segment_missing_field|].
  split.
  - intros pre segment rest rs e Hpre Hseg.
    rewrite process_loop_outcomes, (outcomes_app_raise _ _ _ _ _ Hpre Hseg).
    reflexivity.
  - intros E items audio_file w e Hdisk Hloop.
    rewrite (process_video_segments_raises _ _ _ _ _ Hdisk Hloop). reflexivity.
Qed.

End SegmentFacts.


(** The tests run on binary64 numbers.  From 0.9s to 1.4s the difference
    Python computes is below 0.5 and the entry is skipped; from 0.1s to 0.6s
    it is rounded to 0.5 and a clip is cut, although the exact difference
    of these two floats is below one half. *)
Example rounding_decides_the_short_test :
  Assembler.process_segment Examples.two_sources_disk [0%nat; 1%nat] [] []
    (Examples.segment 0 0.9 1.4) = Ok None /\
  (exists c,
     Assembler.process_segment Examples.two_sources_disk [0%nat; 1%nat] [] []
       (Examples.segment 0 0.1 0.6) = Ok (Some c) /\
     Assembler.clip_duration c = Py.Float 0.5) /\
  Py.float_value 0.1 = Py.Finite (3602879701896397 # 36028797018963968) /\
  Py.float_value 0.6 = Py.Finite (5404319552844595 # 9007199254740992) /\
  ((5404319552844595 # 9007199254740992)
    - (3602879701896397 # 36028797018963968) < 1 # 2)%Q.
Proof.
  split; [vm_compute; reflexivity|].
  split; [eexists; split; vm_compute; reflexivity|].
  repeat split; vm_compute; reflexivity.
Qed.

(** C5 as stated fails: an entry without its [source_index], followed by
    a valid entry, makes the whole stage fail; the valid entry alone gives a
    reel. *)
Lemma C5_malformed_entry_aborts :
  fst (Assembler.process_video_segments (Examples.answers Py.PyNone)
         (Py.PyList [Examples.no_source_index; Examples.segment 0 2 8])
         [0%nat; 1%nat] [] None [] Examples.two_sources_written) = Ok None /\
  Assembler.process_loop Examples.two_sources_disk [0%nat; 1%nat] [] []
    [Examples.no_source_index; Examples.segment 0 2 8] [] =
    Raise (KeyError "source_index") /\
  fst (Assembler.process_video_segments (Examples.answers Py.PyNone)
         (Py.PyList [Examples.segment 0 2 8])
         [0%nat; 1%nat] [] None [] Examples.two_sources_written) = Ok (Some 2%nat).
Proof. repeat split; vm_compute; reflexivity. Qed.

(** C6 at a negative index.  With two sources, an entry whose
    [source_index] is -1 is not skipped: its clip is cut from the last
    source; with -3 the loop raises [IndexError] and nothing is assembled. *)
Lemma C6_negative_index_reads_from_the_end :
  (exists c,
     Assembler.process_loop Examples.two_sources_disk [0%nat; 1%nat] [] []
       [Examples.segment (-1) 2 8] [] = Ok [c] /\
     Assembler.clip_path c = 1%nat) /\
  Assembler.process_loop Examples.two_sources_disk [0%nat; 1%nat] [] []
    [Examples.segment (-3) 2 8; Examples.segment 0 2 8] [] = Raise IndexError /\
  Assembler.process_loop Examples.two_sources_disk [0%nat; 1%nat] [] []
    [Examples.segment 2 2 8; Examples.segment 0 2 8] [] =
  Assembler.process_loop Examples.two_sources_disk [0%nat; 1%nat] [] []
    [Examples.segment 0 2 8] [].
Proof.
  split; [|split].
  - eexists. split; [vm_compute; reflexivity|reflexivity].
  - vm_compute. reflexivity.
  - vm_compute. reflexivity.
Qed.

(** ** Background music *)

Section AudioFacts.
Import Py World Assembler.

Lemma py_max_le (a b : Q) : (a <= b)%Q -> (py_max a b == b)%Q.
Proof.
  intros H. unfold py_max. destruct (Qltb a b) eqn:E; [reflexivity|].
  apply Qle_antisym; [exact H|].
  destruct (Qlt_le_dec a b) as [Hlt|Hle]; [|exact Hle].
  apply Qltb_lt in Hlt. congruence.
Qed.

Lemma py_max_bound (a b c : Q) : (a <= c)%Q -> (b <= c)%Q -> (py_max a b <= c)%Q.
Proof. intros Ha Hb. unfold py_max. destruct (Qltb a b); assumption. Qed.

Lemma not_below_zero_nonneg (t : Q) : (0 <= not_below_zero t)%Q.
Proof.
  unfold not_below_zero. destruct (Qltb t 0) eqn:E; [apply Qle_refl|].
  destruct (Qlt_le_dec t 0) as [Hlt|Hle]; [|exact Hle].
  apply Qltb_lt in Hlt. congruence.
Qed.

Lemma not_below_zero_above (t : Q) : (t <= not_below_zero t)%Q.
Proof.
  unfold not_below_zero. destruct (Qltb t 0) eqn:E; [|apply Qle_refl].
  apply Qltb_lt in E. apply Qlt_le_weak. exact E.
Qed.

Lemma not_below_zero_id (t : Q) : (0 <= t)%Q -> not_below_zero t = t.
Proof.
  intros H. unfold not_below_zero. destruct (Qltb t 0) eqn:E; [|reflexivity].
  apply Qltb_lt in E. exfalso. exact (Qlt_not_le _ _ E H).
Qed.

(** The sum of the durations, started from [t]. *)
Lemma sum_from_above (clips : list clip) (t : Q) :
  Forall (fun c => (0 <= clip_seconds c)%Q) clips ->
  (t <= foldl (fun acc c => (acc + clip_seconds c)%Q) t clips)%Q.
Proof.
  intros Hall. revert t.
  induction Hall as [|c rest Hc _ IH]; intros t; cbn [foldl]; [apply Qle_refl|].
  specialize (IH (t + clip_seconds c)%Q). lra.
Qed.

Lemma sound_end_bound (clips : list clip) (t e : Q) :
  Forall (fun c => (0 <= clip_seconds c)%Q) clips ->
  (0 <= t)%Q ->
  sound_end t clips = Some e ->
  (e <= foldl (fun acc c => (acc + clip_seconds c)%Q) t clips)%Q.
Proof.
  intros Hall. revert t e.
  induction Hall as [|c rest Hc Hrest IH]; intros t e Ht H; [discriminate|].
  cbn [sound_end] in H. cbn [foldl]. rewrite (not_below_zero_id t Ht) in H.
  pose proof (sum_from_above rest (t + clip_seconds c)%Q Hrest) as Habove.
  destruct (sound_end (t + clip_seconds c) rest) as [e'|] eqn:He'.
  - assert (Ht' : (0 <= t + clip_seconds c)%Q) by lra.
    specialize (IH _ _ Ht' He').
    destruct (clip_sound c); injection H as <-.
    + apply py_max_bound; lra.
    + lra.
  - destruct (clip_sound c); [|discriminate]. injection H as <-. exact Habove.
Qed.

(** The sound of a concatenation of clips of non-negative durations never
    outlasts its picture. *)
Lemma concatenate_sound_within (clips : list clip) :
  Forall (fun c => (0 <= clip_seconds c)%Q) clips ->
  match v_audio (concatenate_videoclips clips) with
  | Some own => (audio_duration own <= v_duration (concatenate_videoclips clips))%Q
  | None => True
  end.
Proof.
  intros Hall. cbn [concatenate_videoclips v_audio v_duration].
  destruct (sound_end 0 clips) as [e|] eqn:He; cbn; [|exact I].
  pose proof (sound_end_bound _ _ _ Hall (Qle_refl 0) He) as Hb.
  unfold total_duration.
  pose proof (not_below_zero_above
                (foldl (fun acc c => (acc + clip_seconds c)%Q) 0%Q clips)).
  lra.
Qed.

Lemma value_compare_refl (a : value) :
  value_compare a a = Some Eq \/ value_compare a a = None.
Proof.
  destruct a as [q| | |]; cbn; auto.
  left. f_equal. apply Qeq_alt. reflexivity.
Qed.

Lemma clamp_end_not_above (end_time : number) (d : float) :
  py_gt (clamp_end end_time d) (Float d) = false.
Proof.
  unfold clamp_end. destruct (py_gt end_time (Float d)) eqn:E; [|exact E].
  unfold py_gt, num_compare.
  destruct (value_compare_refl (num_value (Float d))) as [-> | ->]; reflexivity.
Qed.

(** The value of the constant of line 193. *)
Lemma shortest_value : num_value shortest = Finite (1 # 2).
Proof. reflexivity. Qed.

(** With a start that is not negative, [subclip] cuts from the start to
    the end as they are, and the new clip lasts their difference. *)
Lemma subclip_nonnegative_start (d : float) (t_start t_end sub_duration : number) :
  py_lt t_start (Int 0) = false ->
  py_ge t_start t_end = false ->
  subclip d t_start t_end = Ok sub_duration ->
  num_sub t_end t_start = Ok sub_duration /\ is_finite t_start = true.
Proof.
  intros Hneg Hge. unfold subclip. rewrite Hneg. cbn [mbind res_bind].
  destruct (py_gt t_start (Float d)); [discriminate|].
  unfold is_finite.
  destruct (num_value t_start) as [s| | |] eqn:Hs; try discriminate.
  assert (Hend : py_lt t_end (Int 0) = false).
  { rewrite py_ge_le in Hge.
    destruct (num_value t_end) as [q| | |] eqn:Hq.
    - apply (py_lt_false_finite t_end (Int 0) q 0 Hq eq_refl).
      apply (py_le_false_finite _ _ _ _ Hq Hs) in Hge.
      apply (py_lt_false_finite t_start (Int 0) s 0 Hs eq_refl) in Hneg.
      lra.
    - unfold py_lt, num_compare. rewrite Hq. reflexivity.
    - unfold py_le, num_compare in Hge. rewrite Hq, Hs in Hge. discriminate.
    - unfold py_lt, num_compare. rewrite Hq. reflexivity. }
  rewrite Hend. cbn [mbind res_bind]. auto.
Qed.

(** What the validation leaves of an accepted clip: its end does not
    exceed the duration of its source, its start is not at or after its
    end, the difference of the two is not below 0.5, and the video library
    gave it its duration. *)
Lemma process_segment_accepts disk temp_paths transition_type filter_type segment c :
  process_segment disk temp_paths transition_type filter_type segment = Ok (Some c) ->
  py_ge (clip_start c) (clip_end c) = false /\
  (exists difference,
     num_sub (clip_end c) (clip_start c) = Ok difference /\
     py_lt difference shortest = false) /\
  exists v, open_video disk (clip_path c) = Ok v /\
    py_gt (clip_end c) (Float (duration v)) = false /\
    subclip (duration v) (clip_start c) (clip_end c) = Ok (clip_duration c).
Proof.
  unfold process_segment. intros H.
  repeat match type of H with
         | (mbind _ ?m) = _ =>
             let r := fresh "r" in
             destruct m as [r|] eqn:?; cbn [mbind res_bind] in H; [|discriminate]
         | (if ?b then _ else _) = _ =>
             destruct b eqn:?; [discriminate|]
         end.
  injection H as <-. cbn [clip_start clip_end clip_path clip_duration].
  split; [assumption|]. split; [eexists; split; eassumption|].
  eexists. split; [eassumption|]. split; [apply clamp_end_not_above|assumption].
Qed.

(** An accepted clip whose start is not negative lasts the difference that
    was tested: at least half a second when that is a number of seconds. *)
Lemma process_segment_accepts_duration disk temp_paths transition_type filter_type
    segment c :
  process_segment disk temp_paths transition_type filter_type segment = Ok (Some c) ->
  py_lt (clip_start c) (Int 0) = false ->
  num_sub (clip_end c) (clip_start c) = Ok (clip_duration c) /\
  py_lt (clip_duration c) shortest = false /\
  (is_finite (clip_duration c) = true -> (1 # 2 <= clip_seconds c)%Q) /\
  (0 <= clip_seconds c)%Q.
Proof.
  intros H Hneg.
  destruct (process_segment_accepts _ _ _ _ _ _ H)
    as (Hge & (difference & Hdiff & Hshort) & v & _ & _ & Hsub).
  destruct (subclip_nonnegative_start _ _ _ _ Hneg Hge Hsub) as (Hd & _).
  rewrite Hdiff in Hd. injection Hd as ->.
  split; [exact Hdiff|]. split; [exact Hshort|].
  unfold clip_seconds, seconds, is_finite.
  destruct (num_value (clip_duration c)) as [q| | |] eqn:Hq;
    try (split; [discriminate|apply Qle_refl]).
  apply (py_lt_false_finite _ _ _ _ Hq shortest_value) in Hshort.
  split; [intros _; exact Hshort|lra].
Qed.

Lemma outcomes_accepted_nonneg disk temp_paths transition_type filter_type segments rs :
  outcomes disk temp_paths transition_type filter_type segments = Ok rs ->
  Forall (fun c => py_lt (clip_start c) (Int 0) = false -> (0 <= clip_seconds c)%Q)
    (accepted rs).
Proof.
  revert rs. induction segments as [|segment rest IH]; intros rs H.
  - injection H as <-. constructor.
  - cbn [outcomes] in H.
    destruct (process_segment disk temp_paths transition_type filter_type segment)
      as [r|] eqn:Hr; [|discriminate].
    destruct (outcomes disk temp_paths transition_type filter_type rest)
      as [rs'|] eqn:Hrs; [|discriminate].
    injection H as <-. specialize (IH rs' eq_refl).
    destruct r as [c|]; [|exact IH].
    unfold accepted. cbn. constructor; [|exact IH].
    intros Hneg.
    apply (process_segment_accepts_duration _ _ _ _ _ _ Hr Hneg).
Qed.

(** The video the stage builds from accepted clips none of which has a
    negative start meets the assumption of the mixing step. *)
Lemma assembled_sound_within disk temp_paths transition_type filter_type segments clips :
  process_loop disk temp_paths transition_type filter_type segments [] = Ok clips ->
  Forall (fun c => py_lt (clip_start c) (Int 0) = false) clips ->
  match v_audio (concatenate_videoclips clips) with
  | Some own => (audio_duration own <= v_duration (concatenate_videoclips clips))%Q
  | None => True
  end.
Proof.
  intros H Hstarts. rewrite process_loop_outcomes in H.
  destruct (outcomes disk temp_paths transition_type filter_type segments)
    as [rs|] eqn:Hrs; [|discriminate].
  injection H as <-. apply concatenate_sound_within.
  pose proof (outcomes_accepted_nonneg _ _ _ _ _ _ Hrs) as Hall.
  cbn [app] in Hstarts. clear Hrs.
  induction Hall as [|c rest Hc _ IH]; [constructor|].
  apply Forall_cons in Hstarts as (Hstart & Hrest).
  constructor; [exact (Hc Hstart)|exact (IH Hrest)].
Qed.


End AudioFacts.


(** The end-to-end scenario of the specification: of the two entries the
    second, 0.3 seconds long, is dropped; the reel is one clip of 6 seconds
    cut from the first source, without filter or transition. *)
Example scenario_keeps_one_clip :
  Assembler.process_loop Examples.two_sources_disk [0%nat; 1%nat] [] []
    [Examples.segment 0 2 8; Examples.segment 1 5 5.3] [] =
    Ok [Examples.kept_clip] /\
  (Assembler.v_duration (Assembler.concatenate_videoclips [Examples.kept_clip]) == 6)%Q.
Proof. split; vm_compute; reflexivity. Qed.

(** A negative start is not rejected by the validation.  The video
    library counts it from the end of the source: the range from -5s to 8s
    of a 20-second source passes the tests, its difference being 13, and
    gives a clip of -7 seconds. *)
Example negative_start_is_counted_from_the_end :
  Assembler.process_loop Examples.two_sources_disk [0%nat; 1%nat] [] []
    [Examples.segment 0 0 10; Examples.segment 0 (-5) 8] [] =
    Ok [Examples.first_ten_seconds; Examples.from_minus_five] /\
  Py.num_sub (Py.Float 8) (Py.Float (-5)) = Ok (Py.Float 13) /\
  Assembler.clip_duration Examples.from_minus_five = Py.Float (-7).
Proof. repeat split; vm_compute; reflexivity. Qed.


(** ** Steps that do not touch the files *)

Section FrameFacts.
Import Py World.

Lemma keeps_files_refl w : keeps_files w w.
Proof. repeat split. Qed.

Lemma keeps_files_trans w1 w2 w3 :
  keeps_files w1 w2 -> keeps_files w2 w3 -> keeps_files w1 w3.
Proof. intros (?&?&?) (?&?&?). repeat split; congruence. Qed.

Lemma preserves_ret {A : Type} (a : A) : preserves (mret a).
Proof. intros w. apply keeps_files_refl. Qed.

Lemma preserves_raise {A : Type} (e : exn) : preserves (@raise A e).
Proof. intros w. apply keeps_files_refl. Qed.

Lemma preserves_lift {A : Type} (r : res A) : preserves (lift r).
Proof. intros w. apply keeps_files_refl. Qed.

Lemma preserves_emit (ev : event) : preserves (emit ev).
Proof. intros w. repeat split. Qed.

Lemma preserves_bind {A B : Type} (m : M A) (k : A -> M B) :
  preserves m -> (forall a, preserves (k a)) -> preserves (m ≫= k).
Proof.
  intros Hm Hk w. unfold mbind, M_bind. specialize (Hm w).
  destruct (m w) as [[a|e] w1]; cbn [snd] in *.
  - eapply keeps_files_trans; [exact Hm|apply Hk].
  - exact Hm.
Qed.

Lemma preserves_try_except {A : Type} (m : M A) (h : exn -> M A) :
  preserves m -> (forall e, preserves (h e)) -> preserves (try_except m h).
Proof.
  intros Hm Hh w. unfold try_except. specialize (Hm w).
  destruct (m w) as [[a|e] w1]; cbn [snd] in *.
  - exact Hm.
  - eapply keeps_files_trans; [exact Hm|apply Hh].
Qed.

End FrameFacts.

Create HintDb frame.

#[local] Hint Resolve preserves_ret preserves_raise preserves_lift preserves_emit
  preserves_bind preserves_try_except : frame.

(** ** The Segment Selector and the files *)

Section SelectorFiles.
Import Py World Selector.
Variable E : env.

Lemma preserves_retry_loop (attempts : list Z) : preserves (retry_loop E attempts).
Proof.
  induction attempts as [|attempt rest IH]; cbn [retry_loop]; [auto with frame|].
  apply preserves_bind; [intros w; repeat split|].
  intros [response|msg]; [auto with frame|].
  destruct (rate_limited msg); [|auto with frame].
  destruct (attempt <? max_retries - 1); auto with frame.
Qed.

Lemma preserves_generate_or_report : preserves (generate_or_report E).
Proof.
  unfold generate_or_report, generate_with_retry, list_models.
  apply preserves_try_except.
  - apply preserves_bind; [apply preserves_retry_loop|auto with frame].
  - intros e. destruct (list_models_ok E); auto with frame.
Qed.

Lemma preserves_recover (text : str) : preserves (recover E text).
Proof.
  unfold recover.
  destruct (parse_fenced E text); [auto with frame|].
  destruct (parse_bracketed E text); auto with frame.
Qed.

Lemma preserves_parse_response (text : str) : preserves (parse_response E text).
Proof.
  unfold parse_response.
  destruct (json_loads E text) as [v|e]; [auto with frame|].
  destruct e; auto using preserves_recover with frame.
Qed.

Lemma preserves_wait_while_processing (polls : nat) :
  preserves (wait_while_processing polls).
Proof. induction polls; cbn; auto with frame. Qed.

Lemma preserves_wait_for_files_active (files : list nat) :
  preserves (wait_for_files_active E files).
Proof.
  induction files as [|f rest IH]; cbn [wait_for_files_active]; [auto with frame|].
  apply preserves_bind; [apply preserves_wait_while_processing|].
  intros _. destruct (becomes_active E f); auto with frame.
Qed.

Lemma preserves_get_temp_paths : preserves get_temp_paths.
Proof. intros w. apply keeps_files_refl. Qed.

Lemma preserves_read_answer : preserves (read_answer E).
Proof.
  unfold read_answer.
  apply preserves_bind; [apply preserves_generate_or_report|].
  intros [text|].
  - apply preserves_bind; [apply preserves_parse_response|].
    intros segments. apply preserves_bind; [apply preserves_get_temp_paths|].
    auto with frame.
  - apply preserves_bind; [apply preserves_get_temp_paths|]. auto with frame.
Qed.

(** The answer, when there is one, carries the run's list of temporary
    files. *)
Lemma read_answer_paths w x w' :
  read_answer E w = (Ok x, w') -> snd x = temp_paths w'.
Proof.
  unfold read_answer, mbind, M_bind, get_temp_paths, mret, M_ret.
  destruct (generate_or_report E w) as [[[text|]|e] w1]; [| |discriminate].
  - destruct (parse_response E text w1) as [[segments|e] w2]; [|discriminate].
    intros H. injection H as <- <-. reflexivity.
  - intros H. injection H as <- <-. reflexivity.
Qed.

Ltac close_files :=
  repeat split; intros;
  repeat match goal with
         | H : _ ∈ [] |- _ => apply elem_of_nil in H; contradiction
         | H : _ ∈ [_] |- _ => apply list_elem_of_singleton in H
         end;
  try (cbn [length]; lia); try (apply lookup_insert_ne; lia).

(** What the upload loop does to the files: it appends fresh names to the
    list, at most one per upload, and leaves the older files alone. *)
Lemma materialize_files (video_files : list upload) (i : nat) (w : world) :
  let w' := snd (materialize E video_files i w) in
  exists new,
    temp_paths w' = temp_paths w ++ new /\
    (length new <= length video_files)%nat /\
    (next_tmp w <= next_tmp w')%nat /\
    (forall p, p ∈ new -> (next_tmp w <= p < next_tmp w')%nat) /\
    (forall p, (p < next_tmp w)%nat -> fs w' !! p = fs w !! p).
Proof.
  revert i w. induction video_files as [|f rest IH]; intros i w.
  - exists []. cbn. rewrite app_nil_r. close_files.
  - cbn [materialize]. destruct (write_ok E i).
    + unfold mbind, M_bind, new_temp_file, append_temp_path.
      cbn [fs next_tmp calls log temp_paths].
      destruct (upload_ok E i).
      * match goal with |- context [materialize E rest (S i) ?w1] =>
          specialize (IH (S i) w1) end.
        destruct IH as (new & Hpaths & Hlen & Hnext & Hnew & Hold).
        cbn [temp_paths next_tmp fs] in Hpaths, Hnext, Hnew, Hold.
        exists (next_tmp w :: new). cbn [length].
        split; [rewrite Hpaths, <- app_assoc; reflexivity|].
        split; [lia|]. split; [lia|]. split.
        -- intros p Hp. apply elem_of_cons in Hp as [->|Hp]; [lia|].
           specialize (Hnew p Hp). lia.
        -- intros p Hp. rewrite Hold by lia. apply lookup_insert_ne. lia.
      * cbn. exists [next_tmp w]. close_files.
    + unfold mbind, M_bind, new_temp_file, raise. cbn.
      exists []. rewrite app_nil_r. close_files.
Qed.

(** The stage always returns; what it returns carries the list of the
    temporary files it wrote, all of them new. *)
Lemma analyze_files (video_files : list upload) (w : world) :
  exists segments w',
    analyze_videos_with_gemini E video_files w =
      (Ok (segments, temp_paths w'), w') /\
    (length (temp_paths w') <= length video_files)%nat /\
    (next_tmp w <= next_tmp w')%nat /\
    (forall p, p ∈ temp_paths w' -> (next_tmp w <= p < next_tmp w')%nat) /\
    (forall p, (p < next_tmp w)%nat -> fs w' !! p = fs w !! p).
Proof.
  unfold analyze_videos_with_gemini.
  unfold mbind at 1. unfold M_bind at 1. unfold clear_temp_paths.
  set (w0 := World_ (fs w) (next_tmp w) (calls w) (log w) []).
  destruct (materialize_files video_files 0 w0) as (new & Hpaths & Hlen & Hnext & Hnew & Hold).
  cbn [temp_paths next_tmp fs w0 app] in Hpaths, Hnext, Hnew, Hold.
  unfold try_except. unfold mbind at 1. unfold M_bind at 1.
  destruct (materialize E video_files 0 w0) as [[[]|e] w1] eqn:Hm; cbn [snd] in *.
  - set (rest := (_ ← wait_for_files_active E (seq 0 (length video_files));
                  read_answer E)).
    assert (Hkeep : preserves rest).
    { apply preserves_bind; [apply preserves_wait_for_files_active|].
      intros _. apply preserves_read_answer. }
    specialize (Hkeep w1).
    destruct (rest w1) as [[[segments paths]|e] w2] eqn:Hrest; cbn [snd] in Hkeep;
      destruct Hkeep as (Hfs & Hnt & Htp).
    + assert (Hp : paths = temp_paths w2).
      { subst rest. unfold mbind, M_bind in Hrest.
        destruct (wait_for_files_active E (seq 0 (length video_files)) w1)
          as [[[]|e] w1']; [|discriminate].
        apply read_answer_paths in Hrest. exact Hrest. }
      subst paths. exists segments, w2.
      split; [reflexivity|]. rewrite Htp, Hnt, Hpaths.
      split; [assumption|]. split; [assumption|]. split; [assumption|].
      intros p Hp. rewrite Hfs. apply Hold, Hp.
    + eexists None, _. cbn. split; [reflexivity|]. cbn [temp_paths next_tmp fs].
      rewrite Htp, Hnt, Hfs, Hpaths.
      split; [assumption|]. split; [assumption|]. split; assumption.
  - eexists None, _. cbn. split; [reflexivity|]. cbn [temp_paths next_tmp fs].
    rewrite Hpaths.
    split; [assumption|]. split; [assumption|]. split; assumption.
Qed.

End SelectorFiles.

(** ** The Video Assembler and the files *)

Section AssemblerFiles.
Import Py World Selector Assembler Page.
Variable E : env.

Ltac lookups :=
  repeat first
    [ rewrite lookup_insert_eq
    | rewrite lookup_insert_ne by lia
    | rewrite lookup_delete_ne by lia ].

(** The two outcomes of the encode. *)
Ltac case_encode :=
  match goal with
  | |- context [if ?b && encode_ok ?E ?d then _ else _] =>
      destruct (b && encode_ok E d)
  end.

(** The stage always returns.  It leaves the run's list and the older
    files alone, and the reel it returns is a new file that it leaves on
    the disk. *)
Lemma process_files segments paths transition_type audio_file filter_type w :
  exists r w',
    process_video_segments E segments paths transition_type audio_file
      filter_type w = (Ok r, w') /\
    temp_paths w' = temp_paths w /\
    (next_tmp w <= next_tmp w')%nat /\
    (forall p, (p < next_tmp w)%nat -> fs w' !! p = fs w !! p) /\
    (forall p, r = Some p ->
       fs w' !! p = Some Rendered /\ (next_tmp w <= p < next_tmp w')%nat).
Proof.
  unfold process_video_segments, try_except, mbind, M_bind, lift, get_disk.
  destruct (iterate segments) as [items|e].
  2:{ cbn. eexists _, _. split; [reflexivity|]. cbn.
      repeat split; intros; try discriminate; try lia. }
  destruct (process_loop (fs w) paths transition_type filter_type items [])
    as [[|c clips]|e].
  - cbn. eexists _, _. split; [reflexivity|].
    repeat split; intros; try discriminate; try lia.
  - destruct audio_file as [a|].
    + unfold add_background_music, new_temp_file, os_remove, write_videofile,
        mbind, M_bind, lift.
      cbn [fs next_tmp calls log temp_paths].
      destruct (au_duration a) as [d|].
      * rewrite lookup_insert_eq.
        destruct (remove_ok E (next_tmp w)); cbn; try case_encode; cbn;
          eexists _, _; (split; [reflexivity|]); cbn;
          repeat split; intros; try discriminate; try lia;
          try (match goal with H : Some _ = Some _ |- _ => injection H as <- end);
          lookups; try reflexivity; try lia.
      * cbn. eexists _, _. split; [reflexivity|]. cbn.
        repeat split; intros; try discriminate; try lia. lookups. reflexivity.
    + unfold new_temp_file, write_videofile, mbind, M_bind.
      cbn; case_encode; cbn;
        eexists _, _; (split; [reflexivity|]); cbn;
        repeat split; intros; try discriminate; try lia;
        try (match goal with H : Some _ = Some _ |- _ => injection H as <- end);
        lookups; try reflexivity; try lia.
  - cbn. eexists _, _. split; [reflexivity|]. cbn.
    repeat split; intros; try discriminate; try lia.
Qed.

(** The cleanup loop always returns; it only removes files; each path of
    its list whose removal is permitted is absent afterwards. *)
Lemma cleanup_files (paths : list path) (w : world) :
  exists w',
    cleanup E paths w = (Ok tt, w') /\
    (forall p, p ∈ paths -> remove_ok E p = true -> fs w' !! p = None) /\
    (forall p, p ∉ paths -> fs w' !! p = fs w !! p) /\
    (forall p, fs w !! p = None -> fs w' !! p = None) /\
    temp_paths w' = temp_paths w /\ log w' = log w.
Proof.
  revert w. induction paths as [|q rest IH]; intros w.
  - exists w. split; [reflexivity|].
    repeat split; intros; try reflexivity; try assumption.
    match goal with H : _ ∈ [] |- _ => apply elem_of_nil in H; contradiction end.
  - cbn [cleanup]. unfold mbind, M_bind, try_except, os_remove.
    destruct (fs w !! q) as [c|] eqn:Hq.
    + destruct (remove_ok E q) eqn:Hok.
      * match goal with |- context [cleanup E rest ?w1] =>
          destruct (IH w1) as (w' & Hrun & Hgone & Hkeep & Hnone & Htp & Hlog) end.
        cbn [fs temp_paths log] in *.
        exists w'. split; [exact Hrun|].
        split; [|split; [|split; [|split; assumption]]].
        -- intros p Hp Hpok. apply elem_of_cons in Hp as [->|Hp]; [|auto].
           apply Hnone. apply lookup_delete_eq.
        -- intros p Hp. apply not_elem_of_cons in Hp as [Hne Hp].
           rewrite (Hkeep p Hp). apply lookup_delete_ne. congruence.
        -- intros p Hp. apply Hnone.
           destruct (decide (q = p)) as [->|Hne];
             [apply lookup_delete_eq|rewrite lookup_delete_ne by exact Hne; exact Hp].
      * cbn. destruct (IH w) as (w' & Hrun & Hgone & Hkeep & Hnone & Htp & Hlog).
        exists w'. split; [exact Hrun|].
        split; [|split; [|split; [|split; assumption]]].
        -- intros p Hp Hpok. apply elem_of_cons in Hp as [->|Hp]; [congruence|auto].
        -- intros p Hp. apply not_elem_of_cons in Hp as [Hne Hp]. auto.
        -- exact Hnone.
    + cbn. destruct (IH w) as (w' & Hrun & Hgone & Hkeep & Hnone & Htp & Hlog).
      exists w'. split; [exact Hrun|].
      split; [|split; [|split; [|split; assumption]]].
      -- intros p Hp Hpok. apply elem_of_cons in Hp as [->|Hp]; [auto|auto].
      -- intros p Hp. apply not_elem_of_cons in Hp as [Hne Hp]. auto.
      -- exact Hnone.
Qed.

End AssemblerFiles.

(** ** The whole run *)

Section RunFacts.
Import Py World Selector Assembler Page.
Variable E : env.

Lemma bind_ok {A B : Type} (m : M A) (k : A -> M B) (w w1 : world) (a : A) :
  m w = (Ok a, w1) -> (m ≫= k) w = k a w1.
Proof. intros H. unfold mbind, M_bind. rewrite H. reflexivity. Qed.

Lemma emit_ok (ev : event) (w : world) :
  emit ev w = (Ok tt, World_ (fs w) (next_tmp w) (calls w) (log w ++ [ev]) (temp_paths w)).
Proof. reflexivity. Qed.

(** A run always reaches its cleanup loop; at its end the recorded
    temporary files whose removal is permitted are gone, and the reel that
    was shown is still there. *)
Lemma run_files (uploaded_files : list upload)
    (transition_option : str) (bg_music : option audio_upload)
    (filter_option : str) (w : world) :
  exists shown w',
    run E uploaded_files transition_option bg_music filter_option w = (Ok shown, w') /\
    (forall p, p ∈ temp_paths w' -> remove_ok E p = true -> fs w' !! p = None) /\
    (forall p, shown = Some p -> fs w' !! p = Some Rendered) /\
    (length (temp_paths w') <= length uploaded_files)%nat /\
    (forall p, p ∈ temp_paths w' -> (next_tmp w <= p)%nat).
Proof.
  unfold run.
  rewrite (bind_ok _ _ _ _ _ (emit_ok _ w)).
  set (wa := World_ (fs w) (next_tmp w) (calls w)
               (log w ++ [UiStatus "Analyzing footage"]) (temp_paths w)).
  destruct (analyze_files E uploaded_files wa)
    as (segments & w1 & Han & Hlen & Hnext1 & Hfresh & Hold1).
  cbn [next_tmp wa] in Hnext1, Hfresh, Hold1.
  rewrite (bind_ok _ _ _ _ _ Han).
  destruct (segments_truthy segments).
  - set (ws := World_ (fs w1) (next_tmp w1) (calls w1)
                 (log w1 ++ [UiStatus "Analysis Complete"]) (temp_paths w1)).
    destruct (process_files E (default PyNone segments) (temp_paths w1)
                transition_option bg_music filter_option ws)
      as (r & w2 & Hp & Htp2 & Hnext2 & Hold2 & Hout).
    cbn [next_tmp temp_paths ws] in Htp2, Hnext2, Hold2, Hout.
    unfold mbind, M_bind, emit. fold ws. rewrite Hp.
    assert (Hnotin : forall p, (next_tmp w1 <= p)%nat -> p ∉ temp_paths w1).
    { intros p Hge Hin. specialize (Hfresh p Hin). lia. }
    destruct r as [out|]; unfold mret, M_ret; cbv beta iota.
    + match goal with |- context [cleanup E (temp_paths w1) ?wc] =>
        destruct (cleanup_files E (temp_paths w1) wc)
          as (w3 & Hc & Hgone & Hkeep & Hnone & Htp3 & Hlog3) end.
      cbn [fs temp_paths] in Hkeep, Hnone, Htp3.
      rewrite Hc. cbv beta iota. exists (Some out), w3. split; [reflexivity|].
      rewrite Htp3, Htp2.
      split; [exact Hgone|]. split; [|split; [exact Hlen|]].
      * intros p Hs. injection Hs as <-.
        destruct (Hout out eq_refl) as (Hrendered & Hrange).
        rewrite (Hkeep out (Hnotin out (proj1 Hrange))). exact Hrendered.
      * intros p Hin. specialize (Hfresh p Hin). lia.
    + match goal with |- context [cleanup E (temp_paths w1) ?wc] =>
        destruct (cleanup_files E (temp_paths w1) wc)
          as (w3 & Hc & Hgone & Hkeep & Hnone & Htp3 & Hlog3) end.
      cbn [fs temp_paths] in Hkeep, Hnone, Htp3.
      rewrite Hc. cbv beta iota. exists None, w3. split; [reflexivity|].
      rewrite Htp3, Htp2.
      split; [exact Hgone|]. split; [|split; [exact Hlen|]].
      * intros p Hs. discriminate.
      * intros p Hin. specialize (Hfresh p Hin). lia.
  - unfold mbind, M_bind, emit, mret, M_ret. cbv beta iota.
    match goal with |- context [cleanup E (temp_paths w1) ?wc] =>
      destruct (cleanup_files E (temp_paths w1) wc)
        as (w3 & Hc & Hgone & Hkeep & Hnone & Htp3 & Hlog3) end.
    cbn [fs temp_paths] in Hkeep, Hnone, Htp3.
    rewrite Hc. cbv beta iota. exists None, w3. split; [reflexivity|].
    rewrite Htp3.
    split; [exact Hgone|]. split; [|split; [exact Hlen|]].
    * intros p Hs. discriminate.
    * intros p Hin. specialize (Hfresh p Hin). lia.
Qed.

(** C8, as the code has it.  A run that was started always reaches the
    cleanup loop, which calls [os.remove] on every temporary video file the
    Segment Selector recorded and swallows its errors: each of these files
    whose removal is permitted is gone at the end of the run.  The cleanup
    does not cover the rendered reel: when the run shows a reel, its file is
    still on the disk at the end of the run. *)
Theorem C8_recorded_video_files_removed (uploaded_files : list upload)
    (transition_option : str) (bg_music : option audio_upload)
    (filter_option : str) (w : world) :
  exists shown w',
    run E uploaded_files transition_option bg_music filter_option w = (Ok shown, w') /\
    (forall p, p ∈ temp_paths w' -> remove_ok E p = true -> fs w' !! p = None) /\
    (forall p, shown = Some p -> fs w' !! p = Some Rendered) /\
    (length (temp_paths w') <= length uploaded_files)%nat /\
    (forall p, p ∈ temp_paths w' -> (next_tmp w <= p)%nat).
Proof. apply run_files. Qed.


End RunFacts.


(** C8 as stated fails.  In the scenario of the specification the run
    shows the reel written to file 2, and that file is still on the disk
    when the run ends.  When the background music does not decode, the
    assembly fails and the music that was written to file 2 stays on the
    disk as well. *)
Lemma C8_rendered_file_left_on_disk :
  fst (Page.page (Examples.answers Examples.scenario_segments) (codes "key")
         Examples.two_sources true [] None [] Examples.w0) = Ok (Some 2%nat) /\
  World.fs (snd (Page.page (Examples.answers Examples.scenario_segments) (codes "key")
                   Examples.two_sources true [] None [] Examples.w0)) !! 2%nat
    = Some World.Rendered /\
  fst (Page.page (Examples.answers Examples.scenario_segments) (codes "key")
         Examples.two_sources true []
         (Some (Assembler.AudioUpload None)) [] Examples.w0) = Ok None /\
  World.fs (snd (Page.page (Examples.answers Examples.scenario_segments) (codes "key")
                   Examples.two_sources true []
                   (Some (Assembler.AudioUpload None)) [] Examples.w0)) !! 2%nat
    = Some (World.AudioBytes None).
Proof. repeat split; vm_compute; reflexivity. Qed.

(** * Further properties of the code *)

(** ** More on the retry loop (lines 108-131) *)

Section RetryMore.
Import Py World Selector.
Variable E : env.

Lemma starts_with_prefix (p r : str) : starts_with p (p ++ r) = true.
Proof.
  induction p as [|a p IH]; [reflexivity|].
  cbn. rewrite N.eqb_refl. exact IH.
Qed.

Lemma contains_substring (needle hay : str) :
  contains needle hay = true <-> exists pre post, hay = pre ++ needle ++ post.
Proof.
  split.
  - induction hay as [|c t IH]; cbn [contains]; intros H.
    + apply orb_true_iff in H as [H|H]; [|discriminate].
      apply starts_with_app in H. exists [], (drop (length needle) []).
      exact H.
    + apply orb_true_iff in H as [H|H].
      * apply starts_with_app in H. exists [], (drop (length needle) (c :: t)).
        exact H.
      * destruct (IH H) as (pre & post & ->). exists (c :: pre), post. reflexivity.
  - intros (pre & post & ->). induction pre as [|c pre IH].
    + cbn [app]. destruct (needle ++ post) eqn:Heq; cbn [contains];
        rewrite <- Heq, starts_with_prefix; reflexivity.
    + cbn [app contains]. rewrite IH. apply orb_true_r.
Qed.

(** X1.  The test of line 116 holds exactly when [str(e)] has ["429"] or
    ["Resource exhausted"] as a substring, wherever it stands in the
    message. *)
Theorem rate_limited_iff_substring (msg : str) :
  rate_limited msg = true <->
  (exists pre post, msg = pre ++ codes "429" ++ post) \/
  (exists pre post, msg = pre ++ codes "Resource exhausted" ++ post).
Proof.
  unfold rate_limited. rewrite orb_true_iff, !contains_substring. reflexivity.
Qed.

(** The loop after [k] rate-limited answers, for [k] up to 2. *)
Lemma retry_loop_after_backoffs (w : world) (k : nat) :
  (k <= 2)%nat ->
  (forall j, (j < k)%nat ->
     exists msg, generate_content E (calls w + j) = GenFailed msg /\
                 rate_limited msg = true) ->
  exists w1,
    generate_with_retry E w = retry_loop E (drop k [0; 1; 2]) w1 /\
    calls w1 = (calls w + k)%nat /\
    fs w1 = fs w /\ next_tmp w1 = next_tmp w /\ temp_paths w1 = temp_paths w /\
    exists new, log w1 = log w ++ new /\
      sleeps new = take k [2; 4] /\ attempts_made new = k.
Proof.
  intros Hk H. unfold generate_with_retry. rewrite range_max_retries.
  destruct k as [|[|[|k]]]; [| | |lia].
  - exists w. split; [reflexivity|]. split; [lia|]. repeat split.
    exists []. rewrite app_nil_r. repeat split.
  - destruct (H 0%nat ltac:(lia)) as (m0 & H0 & R0). rewrite Nat.add_0_r in H0.
    rewrite (retry_loop_backoff E _ _ _ _ H0 R0) by (cbv; reflexivity).
    eexists. split; [reflexivity|]. cbn [calls fs next_tmp temp_paths log
      after_backoff after_call]. split; [lia|]. repeat split.
    eexists. rewrite <- !app_assoc. split; [reflexivity|]. split; reflexivity.
  - destruct (H 0%nat ltac:(lia)) as (m0 & H0 & R0). rewrite Nat.add_0_r in H0.
    destruct (H 1%nat ltac:(lia)) as (m1 & H1 & R1).
    replace (calls w + 1)%nat with (S (calls w)) in H1 by lia.
    rewrite (retry_loop_backoff E _ _ _ _ H0 R0) by (cbv; reflexivity).
    rewrite (retry_loop_backoff E _ _ _ m1) by (try (cbv; reflexivity); assumption).
    eexists. split; [reflexivity|]. cbn [calls fs next_tmp temp_paths log
      after_backoff after_call]. split; [lia|]. repeat split.
    eexists. rewrite <- !app_assoc. split; [reflexivity|]. split; reflexivity.
Qed.

(** X2.  When the first [k] calls (at most two) fail with a rate-limit
    error and the next one returns, the loop returns that response after
    [k + 1] calls, having slept 2s after the first failure and 4s after the
    second: a success ends the loop at once. *)
Theorem retry_returns_first_response (w : world) (k : nat) (response : str) :
  (k <= 2)%nat ->
  (forall j, (j < k)%nat ->
     exists msg, generate_content E (calls w + j) = GenFailed msg /\
                 rate_limited msg = true) ->
  generate_content E (calls w + k) = Generated response ->
  exists w' new,
    generate_with_retry E w = (Ok response, w') /\
    generate_or_report E w = (Ok (Some response), w') /\
    calls w' = (calls w + k + 1)%nat /\
    log w' = log w ++ new /\
    sleeps new = take k [2; 4] /\
    attempts_made new = S k.
Proof.
  intros Hk H Hok.
  destruct (retry_loop_after_backoffs w k Hk H)
    as (w1 & Hrun & Hcalls & _ & _ & _ & new & Hlog & Hsleeps & Hatt).
  rewrite <- Hcalls in Hok.
  assert (Hnext : exists attempt rest, drop k [0; 1; 2] = attempt :: rest).
  { destruct k as [|[|[|k]]]; [| | |lia]; cbn; eauto. }
  destruct Hnext as (attempt & rest & Hdrop).
  rewrite Hdrop, (retry_loop_success E _ _ _ _ Hok) in Hrun.
  exists (after_call w1), (new ++ [Generate]).
  split; [exact Hrun|]. split.
  { unfold generate_or_report, try_except, mbind, M_bind. rewrite Hrun. reflexivity. }
  cbn [after_call calls log]. split; [lia|].
  split; [rewrite Hlog, app_assoc; reflexivity|].
  unfold sleeps, attempts_made in *. rewrite !omap_app, length_app. cbn.
  rewrite app_nil_r. split; [exact Hsleeps|lia].
Qed.

(** X3.  An error that is not a rate-limit error is never retried: after
    [k] rate-limited answers (at most two) it ends the loop with the
    original exception, without a further call or sleep, and the analysis
    reports it and gives no response. *)
Theorem retry_stops_on_other_error (w : world) (k : nat) (msg : str) :
  (k <= 2)%nat ->
  (forall j, (j < k)%nat ->
     exists m, generate_content E (calls w + j) = GenFailed m /\
               rate_limited m = true) ->
  generate_content E (calls w + k) = GenFailed msg ->
  rate_limited msg = false ->
  exists w' new,
    generate_with_retry E w = (Raise (Exception msg), w') /\
    calls w' = (calls w + k + 1)%nat /\
    log w' = log w ++ new /\
    sleeps new = take k [2; 4] /\
    attempts_made new = S k /\
    (forall response, fst (generate_or_report E w) <> Ok (Some response)) /\
    (list_models_ok E = true ->
     generate_or_report E w =
       (Ok None,
        World_ (fs w') (next_tmp w') (calls w')
          (log w' ++ [UiError "Error generating content" (Some (Exception msg))])
          (temp_paths w'))).
Proof.
  intros Hk H Herr Hother.
  destruct (retry_loop_after_backoffs w k Hk H)
    as (w1 & Hrun & Hcalls & _ & _ & _ & new & Hlog & Hsleeps & Hatt).
  rewrite <- Hcalls in Herr.
  assert (Hnext : exists attempt rest, drop k [0; 1; 2] = attempt :: rest).
  { destruct k as [|[|[|k]]]; [| | |lia]; cbn; eauto. }
  destruct Hnext as (attempt & rest & Hdrop).
  rewrite Hdrop, (retry_loop_other_error E _ _ _ _ Herr Hother) in Hrun.
  exists (after_call w1), (new ++ [Generate]).
  split; [exact Hrun|].
  cbn [after_call calls log]. split; [lia|].
  split; [rewrite Hlog, app_assoc; reflexivity|].
  unfold sleeps, attempts_made in *. rewrite !omap_app, length_app. cbn.
  rewrite app_nil_r. split; [exact Hsleeps|]. split; [lia|].
  split.
  - intros response. unfold generate_or_report, try_except, mbind, M_bind.
    rewrite Hrun. unfold emit, list_models.
    destruct (list_models_ok E); cbn; discriminate.
  - intros Hlm. unfold generate_or_report, try_except, mbind, M_bind.
    rewrite Hrun. unfold emit, list_models. rewrite Hlm. reflexivity.
Qed.

End RetryMore.

(** X2 on a service that is busy once: one sleep of 2s, two calls. *)
Lemma retry_returns_first_response_witness :
  exists w' new,
    Selector.generate_with_retry Examples.busy_once Examples.w0 =
      (Ok (codes "[]"), w') /\
    World.log w' = new /\
    Selector.sleeps new = [2] /\
    Selector.attempts_made new = 2%nat.
Proof.
  destruct (retry_returns_first_response Examples.busy_once Examples.w0 1%nat
              (codes "[]"))
    as (w' & new & Hrun & _ & _ & Hlog & Hsleeps & Hatt).
  - lia.
  - intros j Hj. assert (j = 0%nat) as -> by lia. eexists. split; reflexivity.
  - reflexivity.
  - exists w', new. auto.
Defined.

(** X3 on a service that is busy once and then refuses the key. *)
Lemma retry_stops_on_other_error_witness :
  exists w' new,
    Selector.generate_with_retry Examples.busy_then_refused Examples.w0 =
      (Raise (Exception (codes "403 API key not valid")), w') /\
    World.log w' = new /\
    Selector.sleeps new = [2] /\
    Selector.attempts_made new = 2%nat.
Proof.
  destruct (retry_stops_on_other_error Examples.busy_then_refused Examples.w0 1%nat
              (codes "403 API key not valid"))
    as (w' & new & Hrun & _ & Hlog & Hsleeps & Hatt & _).
  - lia.
  - intros j Hj. assert (j = 0%nat) as -> by lia. eexists. split; reflexivity.
  - reflexivity.
  - reflexivity.
  - exists w', new. auto.
Defined.

(** ** Waiting for the uploads (lines 34-42) *)

Section WaitFacts.
Import Py World Selector Measures.
Variable E : env.

Lemma wait_while_processing_sleeps (polls : nat) (w : world) :
  wait_while_processing polls w = (Ok tt, logged (replicate polls (Sleep 2)) w).
Proof.
  revert w. induction polls as [|k IH]; intros w.
  - cbn. unfold logged. rewrite app_nil_r. destruct w; reflexivity.
  - cbn [wait_while_processing]. unfold mbind, M_bind, emit. rewrite IH.
    unfold logged. cbn [fs next_tmp calls log temp_paths replicate].
    rewrite <- app_assoc. reflexivity.
Qed.

Lemma logged_logged (a b : list event) (w : world) :
  logged b (logged a w) = logged (a ++ b) w.
Proof. unfold logged. cbn. rewrite <- app_assoc. reflexivity. Qed.

(** X4.  When every file becomes ACTIVE the wait returns normally, having
    slept exactly 2 seconds for each poll that saw PROCESSING and done
    nothing else. *)
Theorem wait_sleeps_two_seconds_per_poll (files : list nat) (w : world) :
  Forall (fun f => becomes_active E f = true) files ->
  wait_for_files_active E files w =
    (Ok tt, logged (replicate (total_polls E files) (Sleep 2)) w).
Proof.
  intros Hall. revert w. induction Hall as [|f rest Hf _ IH]; intros w.
  - cbn. unfold logged. rewrite app_nil_r. destruct w; reflexivity.
  - cbn [wait_for_files_active total_polls foldr]. fold (total_polls E rest).
    unfold mbind, M_bind. rewrite wait_while_processing_sleeps, Hf, IH.
    rewrite logged_logged, <- replicate_add. reflexivity.
Qed.

(** X5.  The first file that settles in a state other than ACTIVE makes the
    wait raise an exception whose message names that file, after the polls
    of the files up to and including it; the files after it are never
    polled. *)
Theorem wait_raises_at_first_failed_file (ready : list nat) (f : nat)
    (later : list nat) (w : world) :
  Forall (fun g => becomes_active E g = true) ready ->
  becomes_active E f = false ->
  wait_for_files_active E (ready ++ f :: later) w =
    (Raise (Exception (codes "File " ++ file_name E f ++ codes " failed to process")),
     logged (replicate (total_polls E (ready ++ [f])) (Sleep 2)) w).
Proof.
  intros Hall Hf. revert w. induction Hall as [|g rest Hg _ IH]; intros w.
  - cbn [app wait_for_files_active total_polls foldr].
    unfold mbind, M_bind. rewrite wait_while_processing_sleeps, Hf.
    rewrite Nat.add_0_r. reflexivity.
  - cbn [app wait_for_files_active total_polls foldr].
    fold (total_polls E (rest ++ [f])).
    unfold mbind, M_bind. rewrite wait_while_processing_sleeps, Hg, IH.
    rewrite logged_logged, <- replicate_add. reflexivity.
Qed.

End WaitFacts.

(** X4 on two files, the first seen PROCESSING twice and the second
    once: three sleeps of 2 seconds. *)
Lemma wait_sleeps_two_seconds_per_poll_witness :
  Selector.wait_for_files_active Examples.slow_service [0%nat; 1%nat]
    Examples.w0 =
  (Ok tt, Measures.logged [World.Sleep 2; World.Sleep 2; World.Sleep 2] Examples.w0).
Proof.
  apply (wait_sleeps_two_seconds_per_poll Examples.slow_service
           [0%nat; 1%nat] Examples.w0).
  repeat constructor.
Defined.

(** X5 on three files of which the second fails after three polls. *)
Lemma wait_raises_at_first_failed_file_witness :
  Selector.wait_for_files_active Examples.second_file_fails
    [0%nat; 1%nat; 2%nat] Examples.w0 =
  (Raise (Exception (codes "File files/video1 failed to process")),
   Measures.logged [World.Sleep 2; World.Sleep 2; World.Sleep 2] Examples.w0).
Proof.
  apply (wait_raises_at_first_failed_file Examples.second_file_fails
           [0%nat] 1%nat [2%nat] Examples.w0).
  - repeat constructor.
  - reflexivity.
Defined.

(** ** More on reading the answer (lines 133-165) *)

Section ParserMore.
Import Py World Selector Measures.

Lemma skip_spaces_spaces (ws s : str) :
  Forall (fun c => is_space c = true) ws ->
  skip_spaces (ws ++ s) = skip_spaces s.
Proof.
  induction 1 as [|c ws Hc _ IH]; [reflexivity|].
  cbn [app skip_spaces]. rewrite Hc. exact IH.
Qed.

Lemma skip_spaces_stop (c : N) (s : str) :
  is_space c = false -> skip_spaces (c :: s) = c :: s.
Proof. intros H. cbn [skip_spaces]. rewrite H. reflexivity. Qed.

Lemma fence_value : fence = [backtick; backtick; backtick].
Proof. reflexivity. Qed.

Lemma json_tag_value : codes "json" = [106; 115; 111; 110]%N.
Proof. reflexivity. Qed.

Lemma skip_spaces_fence (post : str) :
  skip_spaces (fence ++ post) = fence ++ post.
Proof. reflexivity. Qed.

Lemma starts_with_fence_head (c : N) (s : str) :
  c <> backtick -> starts_with fence (c :: s) = false.
Proof.
  intros H. rewrite fence_value. cbn [starts_with].
  destruct (N.eqb_spec backtick c) as [Heq|_]; [|reflexivity].
  exfalso. apply H. symmetry. exact Heq.
Qed.

(** After white space, a text that has no backtick before its closing
    bracket cannot start with a fence. *)
Lemma no_fence_before_close (l tail : str) :
  backtick ∉ l ->
  starts_with fence (skip_spaces (l ++ close_bracket :: tail)) = false.
Proof.
  induction l as [|c l IH]; intros Hl.
  - cbn [app]. rewrite skip_spaces_stop by reflexivity.
    apply starts_with_fence_head. discriminate.
  - apply not_elem_of_cons in Hl as [Hc Hl].
    cbn [app skip_spaces]. destruct (is_space c); [apply IH, Hl|].
    apply starts_with_fence_head. congruence.
Qed.

Lemma lazy_body_stops_at_fence (body ws2 post : str) :
  backtick ∉ body ->
  Forall (fun c => is_space c = true) ws2 ->
  lazy_body (body ++ close_bracket :: ws2 ++ fence ++ post) =
    Some (body ++ [close_bracket]).
Proof.
  intros Hbody Hws. induction body as [|c body IH].
  - cbn [app lazy_body]. rewrite N.eqb_refl, skip_spaces_spaces by assumption.
    rewrite skip_spaces_fence, starts_with_prefix. reflexivity.
  - apply not_elem_of_cons in Hbody as [Hc Hbody].
    cbn [app lazy_body]. rewrite (no_fence_before_close body _ Hbody).
    rewrite andb_false_r, (IH Hbody). reflexivity.
Qed.

Lemma match_fenced_at_wrapped (tag ws1 body ws2 post : str) :
  tag = [] \/ tag = codes "json" ->
  Forall (fun c => is_space c = true) ws1 ->
  Forall (fun c => is_space c = true) ws2 ->
  backtick ∉ body ->
  match_fenced_at
    (fence ++ tag ++ ws1 ++ (open_bracket :: body ++ [close_bracket])
       ++ ws2 ++ fence ++ post) =
    Some (open_bracket :: body ++ [close_bracket]).
Proof.
  intros Htag Hws1 Hws2 Hbody. unfold match_fenced_at.
  rewrite starts_with_prefix.
  change (drop 3 (fence ++ ?x)) with x.
  set (rest := (open_bracket :: body ++ [close_bracket]) ++ ws2 ++ fence ++ post).
  assert (Hrest : skip_spaces (ws1 ++ rest) =
                  open_bracket :: body ++ close_bracket :: ws2 ++ fence ++ post).
  { rewrite skip_spaces_spaces by assumption. subst rest. cbn [app].
    rewrite skip_spaces_stop by reflexivity. rewrite <- app_assoc. reflexivity. }
  assert (Hdone :
    match skip_spaces (ws1 ++ rest) with
    | c :: t => if (c =? open_bracket)%N then cons c <$> lazy_body t else None
    | [] => None
    end = Some (open_bracket :: body ++ [close_bracket])).
  { rewrite Hrest, N.eqb_refl, lazy_body_stops_at_fence by assumption. reflexivity. }
  destruct Htag as [->| ->].
  - cbn [app].
    assert (Hj : starts_with (codes "json") (ws1 ++ rest) = false).
    { destruct Hws1 as [|c ws1 Hc _].
      - reflexivity.
      - cbn [app]. rewrite json_tag_value. cbn [starts_with].
        destruct (N.eqb_spec 106 c) as [<-|_]; [discriminate|reflexivity]. }
    rewrite Hj. exact Hdone.
  - rewrite starts_with_prefix.
    change (drop 4 (codes "json" ++ ?x)) with x. exact Hdone.
Qed.

(** X6.  An array that stands in a fenced block is recovered exactly:
    when the text before the block has no backtick and the array has none
    either, the search returns the array, with or without the [json] tag
    and whatever white space surrounds it. *)
Theorem search_fenced_recovers_wrapped_array (pre tag ws1 body ws2 post : str) :
  backtick ∉ pre ->
  tag = [] \/ tag = codes "json" ->
  Forall (fun c => is_space c = true) ws1 ->
  Forall (fun c => is_space c = true) ws2 ->
  backtick ∉ body ->
  search_fenced
    (pre ++ fence ++ tag ++ ws1 ++ (open_bracket :: body ++ [close_bracket])
       ++ ws2 ++ fence ++ post) =
    Some (open_bracket :: body ++ [close_bracket]).
Proof.
  intros Hpre Htag Hws1 Hws2 Hbody.
  induction pre as [|c pre IH].
  - rewrite app_nil_l.
    pose proof (match_fenced_at_wrapped tag ws1 body ws2 post
                  Htag Hws1 Hws2 Hbody) as Hm.
    destruct (fence ++ tag ++ ws1 ++ (open_bracket :: body ++ [close_bracket])
                ++ ws2 ++ fence ++ post) eqn:Htext;
      [cbn in Hm; discriminate|cbn [search_fenced]; rewrite Hm; reflexivity].
  - apply not_elem_of_cons in Hpre as [Hc Hpre].
    rewrite <- app_comm_cons. cbn [search_fenced].
    assert (Hno : match_fenced_at (c :: pre ++ fence ++ tag ++ ws1 ++
                     (open_bracket :: body ++ [close_bracket]) ++ ws2 ++ fence ++ post)
                  = None).
    { unfold match_fenced_at. rewrite starts_with_fence_head by congruence.
      reflexivity. }
    rewrite Hno. apply IH, Hpre.
Qed.

Lemma upto_last_close_absent (s : str) :
  close_bracket ∉ s -> upto_last_close s = None.
Proof.
  induction s as [|c t IH]; intros H; [reflexivity|].
  apply not_elem_of_cons in H as [Hc Ht].
  cbn [upto_last_close]. rewrite (IH Ht).
  destruct (N.eqb_spec c close_bracket); [congruence|reflexivity].
Qed.

Lemma upto_last_close_spans (body post : str) :
  close_bracket ∉ post ->
  upto_last_close (body ++ close_bracket :: post) = Some (body ++ [close_bracket]).
Proof.
  intros Hpost. induction body as [|c body IH].
  - cbn [app upto_last_close]. rewrite (upto_last_close_absent _ Hpost).
    rewrite N.eqb_refl. reflexivity.
  - cbn [app upto_last_close]. rewrite IH. reflexivity.
Qed.

(** X7.  The bracket search returns the whole span from the first opening
    bracket of the text to its last closing bracket. *)
Theorem search_bracket_recovers_span (pre body post : str) :
  open_bracket ∉ pre ->
  close_bracket ∉ post ->
  search_bracket (pre ++ (open_bracket :: body ++ [close_bracket]) ++ post) =
    Some (open_bracket :: body ++ [close_bracket]).
Proof.
  intros Hpre Hpost. induction pre as [|c pre IH].
  - cbn [app search_bracket]. rewrite N.eqb_refl.
    rewrite <- app_assoc. cbn [app].
    rewrite (upto_last_close_spans _ _ Hpost). reflexivity.
  - apply not_elem_of_cons in Hpre as [Hc Hpre].
    cbn [app search_bracket].
    destruct (N.eqb_spec c open_bracket); [congruence|]. apply IH, Hpre.
Qed.

(** X8.  The bracket search fails exactly on the texts that have no
    closing bracket after an opening bracket. *)
Theorem search_bracket_none_iff (text : str) :
  search_bracket text = None <->
  ~ exists pre mid post, text = pre ++ open_bracket :: mid ++ close_bracket :: post.
Proof.
  split.
  - induction text as [|c t IH]; intros H (pre & mid & post & Heq).
    + destruct pre; discriminate.
    + cbn [search_bracket] in H.
      destruct (N.eqb_spec c open_bracket) as [->|Hc].
      * destruct (upto_last_close t) as [r|] eqn:Hr; [discriminate|].
        apply upto_last_close_none in Hr. apply Hr.
        destruct pre as [|x pre]; cbn [app] in Heq;
          [injection Heq as ->|injection Heq as _ ->].
        -- apply elem_of_app. right. apply elem_of_cons. left. reflexivity.
        -- apply elem_of_app. right. apply elem_of_cons. right.
           apply elem_of_app. right. apply elem_of_cons. left. reflexivity.
      * destruct pre as [|x pre]; cbn [app] in Heq; injection Heq as Hx Ht.
        -- congruence.
        -- apply (IH H). exists pre, mid, post. exact Ht.
  - intros Hno. destruct (search_bracket text) as [g|] eqn:Hg; [|reflexivity].
    exfalso. apply Hno.
    destruct (search_bracket_app _ _ Hg) as (pre & body & post & -> & -> & _).
    exists pre, body, post. cbn [app]. rewrite <- app_assoc. reflexivity.
Qed.

Lemma starts_with_two_slashes (c : N) (out : str) :
  starts_with two_slashes (c :: out) =
    (slash =? c)%N && match out with
                      | [] => false
                      | b :: _ => (slash =? b)%N
                      end.
Proof.
  unfold two_slashes. cbn [starts_with]. destruct out; [reflexivity|].
  rewrite andb_true_r. reflexivity.
Qed.

(** Outside a comment the scanner's output starts with a slash only if
    its input does. *)
Lemma strip_from_false_head (t : str) :
  head (strip_from false t) = Some slash -> head t = Some slash.
Proof.
  destruct t as [|c [|c' t']]; cbn [strip_from head]; try (intros H; exact H).
  destruct ((c =? slash)%N && (c' =? slash)%N) eqn:Hsl.
  - apply andb_true_iff in Hsl as [Hc _]. apply N.eqb_eq in Hc. subst c. reflexivity.
  - cbn [head]. intros H; exact H.
Qed.

Lemma strip_from_no_comment (s : str) :
  contains two_slashes (strip_from false s) = false /\
  contains two_slashes (strip_from true s) = false.
Proof.
  induction s as [|c t [IHf IHt]]; [split; reflexivity|].
  split.
  - destruct t as [|c' t'].
    + cbn [strip_from contains]. rewrite starts_with_two_slashes, andb_false_r.
      reflexivity.
    + destruct ((c =? slash)%N && (c' =? slash)%N) eqn:Hsl.
      * assert (Hstep : strip_from false (c :: c' :: t') = strip_from true (c' :: t')).
        { cbn [strip_from]. rewrite Hsl. reflexivity. }
        rewrite Hstep. exact IHt.
      * assert (Hstep : strip_from false (c :: c' :: t') =
                        c :: strip_from false (c' :: t')).
        { cbn [strip_from]. rewrite Hsl. reflexivity. }
        rewrite Hstep. cbn [contains]. rewrite IHf, orb_false_r.
        rewrite starts_with_two_slashes.
        destruct (N.eqb_spec slash c) as [<-|_]; [|reflexivity].
        cbn [andb].
        destruct (strip_from false (c' :: t')) as [|b out] eqn:Hout; [reflexivity|].
        destruct (N.eqb_spec slash b) as [<-|_]; [|reflexivity].
        pose proof (strip_from_false_head (c' :: t')) as Hhead.
        rewrite Hout in Hhead. specialize (Hhead eq_refl).
        injection Hhead as ->. rewrite !N.eqb_refl in Hsl. discriminate.
  - cbn [strip_from]. destruct (c =? newline)%N eqn:Hnl; [|exact IHt].
    apply N.eqb_eq in Hnl. subst c. cbn [contains]. rewrite IHf, orb_false_r.
    rewrite starts_with_two_slashes. reflexivity.
Qed.

Lemma strip_from_without_comment (s : str) :
  contains two_slashes s = false -> strip_from false s = s.
Proof.
  induction s as [|c t IH]; intros H; [reflexivity|].
  cbn [contains] in H. apply orb_false_iff in H as [Hstart Hrest].
  destruct t as [|c' t']; [reflexivity|].
  rewrite starts_with_two_slashes in Hstart.
  assert (Hsl : (c =? slash)%N && (c' =? slash)%N = false).
  { rewrite (N.eqb_sym c), (N.eqb_sym c'). exact Hstart. }
  assert (Hstep : strip_from false (c :: c' :: t') =
                  c :: strip_from false (c' :: t')).
  { cbn [strip_from]. rewrite Hsl. reflexivity. }
  rewrite Hstep, (IH Hrest). reflexivity.
Qed.

(** X9.  Comment stripping leaves no [//] in its result; it returns
    unchanged a text that has none; applying it twice is applying it
    once. *)
Theorem strip_comments_leaves_no_comment (s : str) :
  contains two_slashes (strip_comments s) = false /\
  (contains two_slashes s = false -> strip_comments s = s) /\
  strip_comments (strip_comments s) = strip_comments s.
Proof.
  unfold strip_comments.
  pose proof (proj1 (strip_from_no_comment s)) as Hnone.
  split; [exact Hnone|]. split; [apply strip_from_without_comment|].
  apply strip_from_without_comment, Hnone.
Qed.

Lemma strip_from_sublist (b : bool) (s : str) : strip_from b s `sublist_of` s.
Proof.
  revert b. induction s as [|c t IH]; intros b; [destruct b; constructor|].
  destruct b.
  - cbn [strip_from]. destruct (c =? newline)%N.
    + apply sublist_skip, IH.
    + apply sublist_cons, IH.
  - destruct t as [|c' t']; [reflexivity|].
    destruct ((c =? slash)%N && (c' =? slash)%N) eqn:Hsl.
    + assert (Hstep : strip_from false (c :: c' :: t') = strip_from true (c' :: t')).
      { cbn [strip_from]. rewrite Hsl. reflexivity. }
      rewrite Hstep. apply sublist_cons, IH.
    + assert (Hstep : strip_from false (c :: c' :: t') =
                      c :: strip_from false (c' :: t')).
      { cbn [strip_from]. rewrite Hsl. reflexivity. }
      rewrite Hstep. apply sublist_skip, IH.
Qed.

Lemma newlines_cons (c : N) (s : str) :
  newlines (c :: s) = ((if (c =? newline)%N then 1 else 0) + newlines s)%nat.
Proof. unfold newlines. cbn [omap list_omap]. destruct (c =? newline)%N; reflexivity. Qed.

Lemma strip_from_newlines (b : bool) (s : str) :
  newlines (strip_from b s) = newlines s.
Proof.
  revert b. induction s as [|c t IH]; intros b; [destruct b; reflexivity|].
  destruct b.
  - cbn [strip_from]. destruct (c =? newline)%N eqn:Hnl.
    + rewrite !newlines_cons, Hnl, IH. reflexivity.
    + rewrite newlines_cons, Hnl, IH. reflexivity.
  - destruct t as [|c' t']; [reflexivity|].
    destruct ((c =? slash)%N && (c' =? slash)%N) eqn:Hsl.
    + assert (Hstep : strip_from false (c :: c' :: t') = strip_from true (c' :: t')).
      { cbn [strip_from]. rewrite Hsl. reflexivity. }
      rewrite Hstep, IH. apply andb_true_iff in Hsl as [Hc _].
      apply N.eqb_eq in Hc. subst c. rewrite (newlines_cons slash). reflexivity.
    + assert (Hstep : strip_from false (c :: c' :: t') =
                      c :: strip_from false (c' :: t')).
      { cbn [strip_from]. rewrite Hsl. reflexivity. }
      rewrite Hstep, (newlines_cons c (strip_from false (c' :: t'))),
        (newlines_cons c (c' :: t')), IH. reflexivity.
Qed.

(** X10.  Comment stripping only removes characters, in place, and never
    removes a newline: the text keeps its lines. *)
Theorem strip_comments_only_removes (s : str) :
  strip_comments s `sublist_of` s /\
  newlines (strip_comments s) = newlines s.
Proof.
  split; [apply strip_from_sublist|apply strip_from_newlines].
Qed.

End ParserMore.

(** X6 on the answer of the end-to-end scenario. *)
Lemma search_fenced_recovers_wrapped_array_witness :
  Selector.search_fenced Examples.fenced_answer = Some (codes "[{...}]").
Proof.
  apply (search_fenced_recovers_wrapped_array
           (codes "Here is the edit:
") (codes "json") [10%N] (codes "{...}") [10%N] []).
  - apply (bool_decide_unpack _). vm_compute. exact I.
  - right. reflexivity.
  - repeat constructor.
  - repeat constructor.
  - apply (bool_decide_unpack _). vm_compute. exact I.
Defined.

(** X7 on a text with two arrays. *)
Lemma search_bracket_recovers_span_witness :
  Selector.search_bracket (codes "x [1] y [2] z") = Some (codes "[1] y [2]").
Proof.
  apply (search_bracket_recovers_span (codes "x ") (codes "1] y [2") (codes " z")).
  - apply (bool_decide_unpack _). vm_compute. exact I.
  - apply (bool_decide_unpack _). vm_compute. exact I.
Defined.

(** ** More on the Video Assembler (lines 171-280) *)

Section AssemblerMore.
Import Py World Assembler.
Variable disk : gmap path content.
Variable temp_paths : list path.
Variable transition_type filter_type : str.

Abbreviation step := (Assembler.process_segment disk temp_paths transition_type filter_type).
Abbreviation loop := (Assembler.process_loop disk temp_paths transition_type filter_type).
Abbreviation steps := (Assembler.outcomes disk temp_paths transition_type filter_type).

Lemma list_getitem_elem {A : Type} (l : list A) (i : Z) (x : A) :
  list_getitem l i = Ok x -> x ∈ l.
Proof.
  unfold list_getitem. intros H.
  destruct ((_ <? 0) || (_ <=? _)); [discriminate|].
  destruct (l !! _) as [y|] eqn:Hy; [|discriminate].
  injection H as <-. eapply list_elem_of_lookup_2, Hy.
Qed.

(** What an accepted clip is made of. *)
Lemma process_segment_clip segment c :
  step segment = Ok (Some c) ->
  clip_path c ∈ temp_paths /\
  Geometry.out_w (clip_geometry c) = 1080 /\
  Geometry.out_h (clip_geometry c) = 1920 /\
  clip_effect c = apply_filter filter_type /\
  clip_fade c = apply_transition transition_type.
Proof.
  unfold Assembler.process_segment. intros H.
  repeat match type of H with
         | (mbind _ ?m) = _ =>
             let r := fresh "r" in
             destruct m as [r|] eqn:?; cbn [mbind res_bind] in H; [|discriminate]
         | (if ?b then _ else _) = _ =>
             destruct b eqn:?; [discriminate|]
         end.
  injection H as <-.
  cbn [clip_path clip_geometry clip_effect clip_fade].
  split; [eapply list_getitem_elem; eassumption|].
  match goal with
  | Hn : Geometry.normalize _ _ = Ok ?n |- _ =>
      unfold Geometry.normalize in Hn;
      destruct (Geometry.crop_region _ _); cbn [mbind res_bind] in Hn;
      [injection Hn as <-|discriminate]
  end.
  repeat split.
Qed.

Lemma outcomes_length (segments : list pyval) rs :
  steps segments = Ok rs -> length rs = length segments.
Proof.
  revert rs. induction segments as [|segment rest IH]; intros rs H.
  - injection H as <-. reflexivity.
  - cbn [Assembler.outcomes] in H.
    destruct (step segment); [|discriminate].
    destruct (steps rest) as [rs'|]; [|discriminate].
    injection H as <-. cbn. rewrite (IH rs' eq_refl). reflexivity.
Qed.

Lemma outcomes_accepted_clips (segments : list pyval) rs :
  steps segments = Ok rs ->
  Forall (fun c => exists segment, segment ∈ segments /\ step segment = Ok (Some c))
    (accepted rs).
Proof.
  revert rs. induction segments as [|segment rest IH]; intros rs H.
  - injection H as <-. constructor.
  - cbn [Assembler.outcomes] in H.
    destruct (step segment) as [r|] eqn:Hr; [|discriminate].
    destruct (steps rest) as [rs'|]; [|discriminate].
    injection H as <-. specialize (IH rs' eq_refl).
    assert (Hrest : Forall (fun c => exists s, s ∈ segment :: rest /\
                                       step s = Ok (Some c)) (accepted rs')).
    { eapply Forall_impl; [exact IH|].
      intros c (s & Hs & Hc). exists s. split; [apply elem_of_cons; auto|exact Hc]. }
    destruct r as [c|]; [|exact Hrest].
    unfold accepted. cbn. constructor; [|exact Hrest].
    exists segment. split; [apply elem_of_cons; auto|exact Hr].
Qed.

(** X11.  Every clip the loop returns passed the tests of lines 189-193
    on the numbers as Python computes them: its end does not exceed the
    duration of its source, its start is not at or after its end, and the
    difference of the two is not below 0.5; when its start is not negative,
    that difference is the duration of the clip.  It is cut from one of the
    run's temporary files and is 1080x1920 with the selected filter and
    transition; there are never more clips than entries. *)
Theorem process_loop_clips_are_valid (segments : list pyval) (clips : list clip) :
  loop segments [] = Ok clips ->
  (length clips <= length segments)%nat /\
  Forall (fun c =>
            py_ge (clip_start c) (clip_end c) = false /\
            (exists difference,
               num_sub (clip_end c) (clip_start c) = Ok difference /\
               py_lt difference shortest = false /\
               (py_lt (clip_start c) (Int 0) = false ->
                clip_duration c = difference)) /\
            (exists v, open_video disk (clip_path c) = Ok v /\
                       py_gt (clip_end c) (Float (duration v)) = false) /\
            clip_path c ∈ temp_paths /\
            Geometry.out_w (clip_geometry c) = 1080 /\
            Geometry.out_h (clip_geometry c) = 1920 /\
            clip_effect c = apply_filter filter_type /\
            clip_fade c = apply_transition transition_type) clips.
Proof.
  intros H. rewrite process_loop_outcomes in H.
  destruct (steps segments) as [rs|] eqn:Hrs; [|discriminate].
  injection H as <-. cbn [app]. split.
  - rewrite <- (outcomes_length _ _ Hrs). unfold accepted.
    clear Hrs. induction rs as [|[c|] rs IH]; cbn; lia.
  - eapply Forall_impl; [apply (outcomes_accepted_clips _ _ Hrs)|].
    intros c (segment & _ & Hc). cbv beta.
    destruct (process_segment_accepts _ _ _ _ _ _ Hc)
      as (Hse & (difference & Hdiff & Hshort) & v & Hv & Hend & Hsub).
    destruct (process_segment_clip _ _ Hc) as (Hp & Hw & Hh & He & Hf).
    split; [exact Hse|]. split.
    { exists difference. split; [exact Hdiff|]. split; [exact Hshort|].
      intros Hneg.
      destruct (process_segment_accepts_duration _ _ _ _ _ _ Hc Hneg) as (Hd & _).
      rewrite Hdiff in Hd. injection Hd as ->. reflexivity. }
    split; [exists v; auto|].
    repeat split; assumption.
Qed.

(** X12.  The loop over a list that is the concatenation of two lists is
    the loop over the first followed by the loop over the second, started
    from the clips gathered so far: the clips come out in the order of their
    entries, and an error in the first part hides the second. *)
Theorem process_loop_app (first second : list pyval) (clips : list clip) :
  loop (first ++ second) clips =
    match loop first clips with
    | Ok clips' => loop second clips'
    | Raise e => Raise e
    end.
Proof.
  revert clips. induction first as [|segment rest IH]; intros clips.
  - reflexivity.
  - cbn [app Assembler.process_loop].
    destruct (step segment) as [[c|]|e]; cbn [mbind res_bind];
      [apply IH|apply IH|reflexivity].
Qed.

(** X13.  A [source_index] that is a float never gives a clip: the entry
    is skipped when the value is at or beyond the number of sources, and it
    raises [TypeError], which ends the assembly, otherwise, even for a whole
    value such as 0.0. *)
Theorem float_index_is_rejected segment (f : float) start_obj end_obj :
  getitem segment "source_index" = Ok (PyFloat f) ->
  getitem segment "start_time" = Ok start_obj ->
  getitem segment "end_time" = Ok end_obj ->
  let sources := Int (Z.of_nat (length temp_paths)) in
  (py_ge (Float f) sources = true -> step segment = Ok None) /\
  (py_ge (Float f) sources = false -> step segment = Raise TypeError) /\
  (forall q, float_value f = Finite q ->
     (py_ge (Float f) sources = true <->
      (inject_Z (Z.of_nat (length temp_paths)) <= q)%Q)).
Proof.
  intros Hi Hs He sources. unfold Assembler.process_segment.
  rewrite Hi, Hs, He. cbn [mbind res_bind as_number as_index]. fold sources.
  split; [intros ->; reflexivity|]. split; [intros ->; reflexivity|].
  intros q Hq. rewrite py_ge_le.
  apply (py_le_finite sources (Float f) _ q eq_refl Hq).
Qed.

End AssemblerMore.

Section StageMore.
Import Py World Assembler Measures.
Variable E : env.

(** X14.  When no entry survives validation, the list being empty
    included, the stage returns its failure value and does nothing else: no
    file is written, the music is not even read, nothing is shown. *)
Theorem no_valid_segment_no_effect (items : list pyval) (paths : list path)
    (transition_type : str) (audio_file : option audio_upload)
    (filter_type : str) (w : world) :
  process_loop (fs w) paths transition_type filter_type items [] = Ok [] ->
  process_video_segments E (PyList items) paths transition_type audio_file
    filter_type w = (Ok None, w).
Proof.
  intros H. unfold process_video_segments, try_except, mbind, M_bind, lift, get_disk.
  cbn [iterate]. rewrite H. reflexivity.
Qed.

(** X15.  When clips were accepted, the music decodes and its temporary
    file can be removed, that file is removed before the encoding starts:
    the encoder finds a disk without it, and whether the encoding succeeds
    or fails the stage leaves the output file and no music file. *)
Theorem music_file_is_removed_before_encoding (items : list pyval)
    (paths : list path) (transition_type : str) (a : audio_upload) (d : Q)
    (filter_type : str) (w : world) (c : clip) (clips : list clip) :
  process_loop (fs w) paths transition_type filter_type items [] = Ok (c :: clips) ->
  au_duration a = Some d ->
  remove_ok E (next_tmp w) = true ->
  fs w !! next_tmp w = None ->
  let disk := <[S (next_tmp w) := Rendered]> (fs w) in
  let after := World_ disk (S (S (next_tmp w))) (calls w) (log w) (temp_paths w) in
  disk !! next_tmp w = None /\
  process_video_segments E (PyList items) paths transition_type (Some a)
    filter_type w =
    if forallb (fun c => is_finite (clip_duration c)) (c :: clips)
       && encode_ok E disk
    then (Ok (Some (S (next_tmp w))), after)
    else (Ok None,
          logged [UiError "Error processing video"
                    (Some (Exception (codes "write_videofile failed")))] after).
Proof.
  intros Hloop Hd Hrm Hfresh disk after. split.
  { subst disk. rewrite lookup_insert_ne by lia. exact Hfresh. }
  unfold process_video_segments, try_except, mbind, M_bind, lift, get_disk.
  cbn [iterate]. rewrite Hloop.
  unfold add_background_music, new_temp_file, os_remove, write_videofile,
    mbind, M_bind, lift, mret, M_ret.
  cbn [fs next_tmp calls log temp_paths]. rewrite Hd, lookup_insert_eq, Hrm.
  cbn [fs next_tmp calls log temp_paths mix_music v_clips concatenate_videoclips].
  rewrite (delete_insert_id _ _ _ Hfresh). subst disk after.
  match goal with
  | |- context [if ?b then (Ok tt, _) else _] =>
      match goal with
      | |- _ = (if ?b' then _ else _) =>
          change b' with b; destruct b; reflexivity
      end
  end.
Qed.

(** X16.  When the encoding fails, the stage reports the error and returns
    its failure value, and the output file it had created stays on the
    disk. *)
Theorem output_file_stays_when_encoding_fails (items : list pyval)
    (paths : list path) (transition_type filter_type : str) (w : world)
    (c : clip) (clips : list clip) :
  process_loop (fs w) paths transition_type filter_type items [] = Ok (c :: clips) ->
  encode_ok E (<[next_tmp w := Rendered]> (fs w)) = false ->
  process_video_segments E (PyList items) paths transition_type None
    filter_type w =
    (Ok None,
     logged [UiError "Error processing video"
               (Some (Exception (codes "write_videofile failed")))]
       (with_file Rendered w)).
Proof.
  intros Hloop Henc.
  unfold process_video_segments, try_except, mbind, M_bind, lift, get_disk.
  cbn [iterate]. rewrite Hloop.
  unfold new_temp_file, write_videofile, mbind, M_bind, mret, M_ret.
  cbn [fs next_tmp calls log temp_paths]. rewrite Henc, andb_false_r.
  reflexivity.
Qed.

(** X17.  When the music does not decode, the stage fails before anything
    is rendered, and the temporary file the music was written to stays on
    the disk. *)
Theorem music_file_stays_when_it_does_not_decode (items : list pyval)
    (paths : list path) (transition_type filter_type : str) (a : audio_upload)
    (w : world) (c : clip) (clips : list clip) :
  process_loop (fs w) paths transition_type filter_type items [] = Ok (c :: clips) ->
  au_duration a = None ->
  process_video_segments E (PyList items) paths transition_type (Some a)
    filter_type w =
    (Ok None,
     logged [UiError "Error processing video" (Some OSError)]
       (with_file (AudioBytes None) w)).
Proof.
  intros Hloop Hd.
  unfold process_video_segments, try_except, mbind, M_bind, lift, get_disk.
  cbn [iterate]. rewrite Hloop.
  unfold add_background_music, new_temp_file, mbind, M_bind, lift.
  rewrite Hd. reflexivity.
Qed.

End StageMore.

(** X11 on the end-to-end scenario: of the two entries one clip is kept,
    cut from the first source, whose start is before its end. *)
Lemma process_loop_clips_are_valid_witness :
  (length [Examples.kept_clip] <= 2)%nat /\
  Forall (fun c => Py.py_ge (Assembler.clip_start c) (Assembler.clip_end c) = false /\
                   Assembler.clip_path c ∈ [0%nat; 1%nat])
    [Examples.kept_clip].
Proof.
  destruct (process_loop_clips_are_valid Examples.two_sources_disk [0%nat; 1%nat]
              [] [] [Examples.segment 0 2 8; Examples.segment 1 5 5.3]
              [Examples.kept_clip]) as (Hlen & Hall).
  - vm_compute. reflexivity.
  - split; [exact Hlen|].
    eapply Forall_impl; [exact Hall|].
    intros c (Hse & _ & _ & Hp & _). split; assumption.
Defined.

(** X13 on an entry whose index is the float 0.0. *)
Lemma float_index_is_rejected_witness :
  Assembler.process_segment Examples.two_sources_disk [0%nat; 1%nat] [] []
    (Py.PyDict [(codes "source_index", Py.PyFloat 0);
                (codes "start_time", Py.PyFloat 2);
                (codes "end_time", Py.PyFloat 8)]) = Raise TypeError.
Proof.
  apply (float_index_is_rejected Examples.two_sources_disk [0%nat; 1%nat] [] []
           (Py.PyDict [(codes "source_index", Py.PyFloat 0);
                       (codes "start_time", Py.PyFloat 2);
                       (codes "end_time", Py.PyFloat 8)])
           0%float (Py.PyFloat 2) (Py.PyFloat 8) eq_refl eq_refl eq_refl).
  reflexivity.
Defined.

(** X14 on a list whose only entry is too short. *)
Lemma no_valid_segment_no_effect_witness :
  Assembler.process_video_segments (Examples.answers Py.PyNone)
    (Py.PyList [Examples.segment 1 5 5.3]) [0%nat; 1%nat] []
    (Some (Assembler.AudioUpload (Some 3%Q))) [] Examples.two_sources_written =
  (Ok None, Examples.two_sources_written).
Proof.
  apply (no_valid_segment_no_effect (Examples.answers Py.PyNone)).
  vm_compute. reflexivity.
Defined.

(** X15 on the scenario with three seconds of music, on a machine whose
    encoder misses the music file: the stage fails, the music file (file 2)
    is gone and the output file (file 3) is left. *)
Lemma music_file_is_removed_before_encoding_witness :
  Assembler.process_video_segments Examples.encoder_reads_music
    (Py.PyList [Examples.segment 0 2 8]) [0%nat; 1%nat] []
    (Some (Assembler.AudioUpload (Some 3%Q))) [] Examples.two_sources_written =
  (Ok None,
   World.World_ (<[3%nat := World.Rendered]> Examples.two_sources_disk) 4%nat
     1%nat
     [World.UiError "Error processing video"
        (Some (Exception (codes "write_videofile failed")))]
     [0%nat; 1%nat]) /\
  (<[3%nat := World.Rendered]> Examples.two_sources_disk) !! 2%nat = None.
Proof.
  destruct (music_file_is_removed_before_encoding Examples.encoder_reads_music
              [Examples.segment 0 2 8] [0%nat; 1%nat] []
              (Assembler.AudioUpload (Some 3%Q))
              3%Q [] Examples.two_sources_written Examples.kept_clip [])
    as (Hgone & Hrun); try (vm_compute; reflexivity).
  split; [|exact Hgone].
  etransitivity; [exact Hrun|]. vm_compute. reflexivity.
Defined.

(** X16 on the scenario when the encoder fails. *)
Lemma output_file_stays_when_encoding_fails_witness :
  exists w',
    Assembler.process_video_segments Examples.encoder_fails
      (Py.PyList [Examples.segment 0 2 8]) [0%nat; 1%nat] [] None []
      Examples.two_sources_written = (Ok None, w') /\
    World.fs w' !! 2%nat = Some World.Rendered.
Proof.
  eexists. split.
  - apply (output_file_stays_when_encoding_fails Examples.encoder_fails
             [Examples.segment 0 2 8] [0%nat; 1%nat] [] []
             Examples.two_sources_written Examples.kept_clip []);
      vm_compute; reflexivity.
  - vm_compute. reflexivity.
Defined.

(** X17 on the scenario with music that does not decode. *)
Lemma music_file_stays_when_it_does_not_decode_witness :
  exists w',
    Assembler.process_video_segments (Examples.answers Py.PyNone)
      (Py.PyList [Examples.segment 0 2 8]) [0%nat; 1%nat] []
      (Some (Assembler.AudioUpload None)) []
      Examples.two_sources_written = (Ok None, w') /\
    World.fs w' !! 2%nat = Some (World.AudioBytes None).
Proof.
  eexists. split.
  - apply (music_file_stays_when_it_does_not_decode (Examples.answers Py.PyNone)
             [Examples.segment 0 2 8] [0%nat; 1%nat] [] []
             (Assembler.AudioUpload None)
             Examples.two_sources_written Examples.kept_clip []);
      vm_compute; reflexivity.
  - vm_compute. reflexivity.
Defined.

(** ** More on the page script (lines 322-386) *)

Section PageMore.
Import Py World Selector Assembler Page Measures.
Variable E : env.

Lemma logged_nil (w : world) : logged [] w = w.
Proof. unfold logged. rewrite app_nil_r. destruct w; reflexivity. Qed.

Lemma limit_uploads_take (uploaded_files : list upload) (w : world) :
  limit_uploads uploaded_files w =
    (Ok (take 4 uploaded_files), logged (limit_events uploaded_files) w).
Proof.
  unfold limit_uploads, limit_events.
  destruct (Nat.ltb_spec 4 (length uploaded_files)) as [Hgt|Hle].
  - destruct (Nat.eqb_spec (length uploaded_files) 0) as [H0|_]; [lia|].
    reflexivity.
  - rewrite andb_false_r, logged_nil, take_ge by lia. reflexivity.
Qed.

(** X18.  The upload list is always cut to its first four files, which
    leaves a list of at most four unchanged; the limit is reported exactly
    when there were more than four; cutting again changes nothing and
    reports nothing. *)
Theorem limit_uploads_keeps_first_four (uploaded_files : list upload) (w : world) :
  limit_uploads uploaded_files w =
    (Ok (take 4 uploaded_files), logged (limit_events uploaded_files) w) /\
  (length (take 4 uploaded_files) <= 4)%nat /\
  ((length uploaded_files <= 4)%nat ->
   limit_uploads uploaded_files w = (Ok uploaded_files, w)) /\
  (forall w', limit_uploads (take 4 uploaded_files) w' =
                (Ok (take 4 uploaded_files), w')).
Proof.
  split; [apply limit_uploads_take|].
  split; [rewrite length_take; lia|]. split.
  - intros Hle. rewrite limit_uploads_take. unfold limit_events.
    destruct (Nat.ltb_spec 4 (length uploaded_files)); [lia|].
    rewrite logged_nil, take_ge by lia. reflexivity.
  - intros w'. rewrite limit_uploads_take. unfold limit_events.
    destruct (Nat.ltb_spec 4 (length (take 4 uploaded_files))) as [H|_].
    + rewrite length_take in H. lia.
    + rewrite logged_nil, take_take. reflexivity.
Qed.

(** X19.  Without a key, without uploads, or without the button pressed,
    one execution of the script starts no run: no file is written, the
    service is not called, and only the matching message is shown. *)
Theorem page_starts_no_run (api_key : str) (uploaded_files : list upload)
    (transition_option : str) (bg_music : option audio_upload)
    (filter_option : str) (w : world) :
  page E [] uploaded_files true transition_option bg_music filter_option w =
    (Ok None,
     logged (limit_events uploaded_files ++ [UiError "API Key is missing!" None]) w) /\
  (api_key <> [] ->
   page E api_key [] true transition_option bg_music filter_option w =
     (Ok None, logged [UiError "Please upload at least one video." None] w)) /\
  page E api_key uploaded_files false transition_option bg_music filter_option w =
    (Ok None, logged (limit_events uploaded_files) w).
Proof.
  unfold page. split; [|split].
  - rewrite (bind_ok _ _ _ _ _ (limit_uploads_take uploaded_files w)).
    unfold mbind, M_bind, emit, logged. cbn. rewrite <- app_assoc. reflexivity.
  - intros Hkey. rewrite (bind_ok _ _ _ _ _ (limit_uploads_take [] w)).
    destruct api_key; [congruence|].
    change (take 4 (@nil upload)) with (@nil upload).
    change (limit_events []) with (@nil event). rewrite logged_nil. reflexivity.
  - rewrite (bind_ok _ _ _ _ _ (limit_uploads_take uploaded_files w)). reflexivity.
Qed.

(** The cleanup loop does nothing on paths that are absent or cannot be
    removed. *)
Lemma cleanup_nothing_to_do (paths : list path) (w : world) :
  (forall p, p ∈ paths -> fs w !! p = None \/ remove_ok E p = false) ->
  cleanup E paths w = (Ok tt, w).
Proof.
  induction paths as [|q rest IH]; intros H; [reflexivity|].
  cbn [cleanup]. unfold mbind, M_bind, try_except, os_remove.
  assert (Hrest : cleanup E rest w = (Ok tt, w)).
  { apply IH. intros p Hp. apply H. apply elem_of_cons. auto. }
  destruct (H q ltac:(apply elem_of_cons; auto)) as [Hq|Hq].
  - rewrite Hq. cbn. exact Hrest.
  - destruct (fs w !! q); rewrite ?Hq; cbn; exact Hrest.
Qed.

(** X20.  The cleanup loop never raises, whatever the state of the disk,
    and running it again on the same paths changes nothing. *)
Theorem cleanup_is_idempotent (paths : list path) (w : world) :
  let w' := snd (cleanup E paths w) in
  cleanup E paths w = (Ok tt, w') /\
  cleanup E paths w' = (Ok tt, w').
Proof.
  destruct (cleanup_files E paths w) as (w1 & Hrun & Hgone & _).
  rewrite Hrun. cbn [snd]. split; [reflexivity|].
  apply cleanup_nothing_to_do. intros p Hp.
  destruct (remove_ok E p) eqn:Hok; [left; apply Hgone; assumption|right; reflexivity].
Qed.

(** X21.  The analysis never raises: whatever fails, it returns a pair whose
    second component is the list of the temporary files it recorded.  These
    are new files, at most one per upload, and the files that were there
    before are untouched. *)
Theorem analysis_always_returns_its_files (video_files : list upload) (w : world) :
  exists segments w',
    analyze_videos_with_gemini E video_files w =
      (Ok (segments, temp_paths w'), w') /\
    (length (temp_paths w') <= length video_files)%nat /\
    (next_tmp w <= next_tmp w')%nat /\
    (forall p, p ∈ temp_paths w' -> (next_tmp w <= p < next_tmp w')%nat) /\
    (forall p, (p < next_tmp w)%nat -> fs w' !! p = fs w !! p).
Proof. apply analyze_files. Qed.

(** X22.  A run never removes or rewrites a file that was on the disk
    before it started. *)
Theorem run_keeps_older_files (uploaded_files : list upload)
    (transition_option : str) (bg_music : option audio_upload)
    (filter_option : str) (w : world) (p : path) :
  (p < next_tmp w)%nat ->
  fs (snd (run E uploaded_files transition_option bg_music filter_option w)) !! p =
    fs w !! p.
Proof.
  intros Hp. unfold run.
  rewrite (bind_ok _ _ _ _ _ (emit_ok _ w)).
  set (wa := World_ (fs w) (next_tmp w) (calls w)
               (log w ++ [UiStatus "Analyzing footage"]) (temp_paths w)).
  destruct (analyze_files E uploaded_files wa)
    as (segments & w1 & Han & Hlen & Hnext1 & Hfresh & Hold1).
  cbn [next_tmp fs wa] in Hnext1, Hfresh, Hold1.
  rewrite (bind_ok _ _ _ _ _ Han).
  assert (Hnotin : p ∉ temp_paths w1).
  { intros Hin. specialize (Hfresh p Hin). lia. }
  destruct (segments_truthy segments).
  - set (ws := World_ (fs w1) (next_tmp w1) (calls w1)
                 (log w1 ++ [UiStatus "Analysis Complete"]) (temp_paths w1)).
    destruct (process_files E (default PyNone segments) (temp_paths w1)
                transition_option bg_music filter_option ws)
      as (r & w2 & Hproc & Htp2 & Hnext2 & Hold2 & Hout).
    cbn [next_tmp temp_paths fs ws] in Htp2, Hnext2, Hold2, Hout.
    unfold mbind, M_bind, emit. fold ws. rewrite Hproc.
    destruct r as [out|]; unfold mret, M_ret; cbv beta iota;
      match goal with |- context [cleanup E (temp_paths w1) ?wc] =>
        destruct (cleanup_files E (temp_paths w1) wc)
          as (w3 & Hc & Hgone & Hkeep & Hnone & Htp3 & Hlog3) end;
      cbn [fs temp_paths] in Hkeep;
      rewrite Hc; cbv beta iota; cbn [snd];
      rewrite (Hkeep p Hnotin);
      (etransitivity; [apply Hold2; lia|apply Hold1, Hp]).
  - unfold mbind, M_bind, emit, mret, M_ret. cbv beta iota.
    match goal with |- context [cleanup E (temp_paths w1) ?wc] =>
      destruct (cleanup_files E (temp_paths w1) wc)
        as (w3 & Hc & Hgone & Hkeep & Hnone & Htp3 & Hlog3) end.
    cbn [fs temp_paths] in Hkeep.
    rewrite Hc. cbv beta iota. cbn [snd].
    rewrite (Hkeep p Hnotin). apply Hold1, Hp.
Qed.

Lemma retry_loop_response (attempts : list Z) (w w' : world) (text : str) :
  retry_loop E attempts w = (Ok text, w') ->
  exists k, generate_content E k = Generated text.
Proof.
  revert w. induction attempts as [|attempt rest IH]; intros w H; [discriminate|].
  cbn [retry_loop] in H. unfold mbind, M_bind, call_generate in H.
  destruct (generate_content E (calls w)) as [response|msg] eqn:Hg.
  - injection H as <- _. eauto.
  - destruct (rate_limited msg); [|discriminate].
    destruct (attempt <? max_retries - 1); [|discriminate].
    cbn in H. eapply IH, H.
Qed.

Lemma parse_response_decoded (text : str) (w w' : world) (segments : pyval) :
  parse_response E text w = (Ok (Some segments), w') ->
  first_success (strategies E) text = Some segments.
Proof.
  rewrite first_success_strategies. unfold parse_response.
  destruct (json_loads E text) as [v|e];
    [intros H; injection H as <- _; reflexivity|].
  destruct e; try discriminate. cbn [decoded]. unfold recover.
  destruct (parse_fenced E text); [intros H; injection H as <- _; reflexivity|].
  destruct (parse_bracketed E text); [intros H; injection H as <- _; reflexivity|].
  discriminate.
Qed.

Lemma read_answer_decoded (w w' : world) (segments : pyval) (paths : list path) :
  read_answer E w = (Ok (Some segments, paths), w') ->
  exists text k,
    generate_content E k = Generated text /\
    first_success (strategies E) text = Some segments.
Proof.
  unfold read_answer, generate_or_report, generate_with_retry, try_except,
    mbind, M_bind, get_temp_paths, mret, M_ret.
  destruct (retry_loop E (range max_retries) w) as [[text|e] w1] eqn:Hretry.
  - destruct (parse_response E text w1) as [[parsed|e] w2] eqn:Hparse; [|discriminate].
    intros H. injection H as -> _ _.
    destruct (retry_loop_response _ _ _ _ Hretry) as (k & Hk).
    exists text, k. split; [exact Hk|]. eapply parse_response_decoded, Hparse.
  - unfold emit, list_models. destruct (list_models_ok E); cbn; discriminate.
Qed.

(** X23.  The analysis returns a list of segments only when one of the
    generation calls returned a text and one of the three strategies decoded
    that text to this list: it never makes up segments after a failure. *)
Theorem analysis_segments_come_from_the_answer (video_files : list upload)
    (w w' : world) (segments : pyval) (paths : list path) :
  analyze_videos_with_gemini E video_files w = (Ok (Some segments, paths), w') ->
  exists text k,
    generate_content E k = Generated text /\
    first_success (strategies E) text = Some segments.
Proof.
  unfold analyze_videos_with_gemini.
  unfold mbind at 1. unfold M_bind at 1. unfold clear_temp_paths, try_except.
  unfold mbind at 1. unfold M_bind at 1.
  destruct (materialize E video_files 0 _) as [[[]|e] w1].
  - unfold mbind at 1. unfold M_bind at 1.
    destruct (wait_for_files_active E _ w1) as [[[]|e] w2].
    + destruct (read_answer E w2) as [[[found paths']|e] w3] eqn:Hread.
      * intros H. injection H as -> _ _. eapply read_answer_decoded, Hread.
      * cbn. discriminate.
    + cbn. discriminate.
  - cbn. discriminate.
Qed.

(** X24.  When the first upload cannot be written to its temporary file,
    the run ends without a reel and the file that was created for it stays
    on the disk: it was never recorded, so the cleanup loop does not see
    it. *)
Theorem unwritten_temp_file_is_left (f : upload) (rest : list upload)
    (transition_option : str) (bg_music : option audio_upload)
    (filter_option : str) (w : world) :
  write_ok E 0 = false ->
  run E (f :: rest) transition_option bg_music filter_option w =
    (Ok None,
     World_ (<[next_tmp w := VideoBytes None]> (fs w)) (S (next_tmp w)) (calls w)
       (log w ++ [UiStatus "Analyzing footage";
                  UiError "An error occurred during AI analysis" (Some OSError);
                  UiStatus "Could not analyze videos"])
       []).
Proof.
  intros Hw. unfold run, analyze_videos_with_gemini, try_except, mbind, M_bind,
    emit, clear_temp_paths.
  cbn [materialize]. rewrite Hw.
  unfold mbind, M_bind, new_temp_file, raise, get_temp_paths. cbn.
  rewrite <- !app_assoc. reflexivity.
Qed.

(** X25.  When the first upload was written but cannot be sent to the
    service, the run ends without a reel and the cleanup loop removes the
    temporary file: the disk is as it was before the run. *)
Theorem failed_upload_is_cleaned_up (f : upload) (rest : list upload)
    (transition_option : str) (bg_music : option audio_upload)
    (filter_option : str) (w : world) :
  write_ok E 0 = true ->
  upload_ok E 0 = false ->
  remove_ok E (next_tmp w) = true ->
  fs w !! next_tmp w = None ->
  run E (f :: rest) transition_option bg_music filter_option w =
    (Ok None,
     World_ (fs w) (S (next_tmp w)) (calls w)
       (log w ++ [UiStatus "Analyzing footage";
                  UiError "An error occurred during AI analysis"
                    (Some (Exception (codes "upload failed")));
                  UiStatus "Could not analyze videos"])
       [next_tmp w]).
Proof.
  intros Hw Hu Hrm Hfresh. unfold run, analyze_videos_with_gemini, try_except,
    mbind, M_bind, emit, clear_temp_paths.
  cbn [materialize]. rewrite Hw.
  unfold mbind, M_bind, new_temp_file, append_temp_path.
  cbn [fs next_tmp calls log temp_paths]. rewrite Hu.
  unfold raise, get_temp_paths. cbn [fs next_tmp calls log temp_paths
    segments_truthy mret M_ret cleanup app].
  unfold mbind, M_bind, try_except, os_remove.
  cbn [fs next_tmp calls log temp_paths]. rewrite lookup_insert_eq, Hrm.
  cbn. rewrite (delete_insert_id _ _ _ Hfresh), <- !app_assoc. reflexivity.
Qed.

End PageMore.

(** X22 on a disk that holds the reel of an earlier run. *)
Lemma run_keeps_older_files_witness :
  World.fs (snd (Page.run (Examples.answers Examples.scenario_segments)
                   Examples.two_sources [] None [] Examples.used_disk)) !! 0%nat
    = Some World.Rendered.
Proof.
  etransitivity.
  - apply (run_keeps_older_files (Examples.answers Examples.scenario_segments)
             Examples.two_sources [] None [] Examples.used_disk 0%nat).
    cbn. lia.
  - reflexivity.
Defined.

(** X23 on the scenario. *)
Lemma analysis_segments_come_from_the_answer_witness :
  exists text k,
    World.generate_content (Examples.answers Examples.scenario_segments) k =
      World.Generated text /\
    Selector.first_success
      (Selector.strategies (Examples.answers Examples.scenario_segments)) text =
      Some Examples.scenario_segments.
Proof.
  eapply (analysis_segments_come_from_the_answer
            (Examples.answers Examples.scenario_segments)
            Examples.two_sources Examples.w0 _ Examples.scenario_segments _).
  reflexivity.
Defined.

(** X24 on a full disk. *)
Lemma unwritten_temp_file_is_left_witness :
  exists w',
    Page.run Examples.disk_full Examples.two_sources [] None [] Examples.w0 =
      (Ok None, w') /\
    World.fs w' !! 0%nat = Some (World.VideoBytes None) /\
    World.temp_paths w' = [].
Proof.
  eexists. split.
  - apply (unwritten_temp_file_is_left Examples.disk_full). reflexivity.
  - split; reflexivity.
Defined.

(** X25 without a network. *)
Lemma failed_upload_is_cleaned_up_witness :
  exists w',
    Page.run Examples.network_down Examples.two_sources [] None [] Examples.w0 =
      (Ok None, w') /\
    World.fs w' = ∅ /\
    World.temp_paths w' = [0%nat].
Proof.
  eexists. split.
  - apply (failed_upload_is_cleaned_up Examples.network_down); reflexivity.
  - split; reflexivity.
Defined.

(** ** More on the geometry (lines 198-223) *)

Section GeometryMore.
Import Geometry.

(** X26.  For every source frame the crop rectangle lies inside the
    frame, and its sides are in the ratio 9:16 up to the truncation of one
    side: [16 * crop_w - 9 * crop_h] is above -16 and below 9.  The crop is
    never empty in height; it is empty in width exactly for a source that is
    one pixel high. *)
Theorem crop_box_inside_frame (w h : Z) :
  0 < w -> 0 < h ->
  exists b, crop_region w h = Ok b /\
    0 <= x1 b /\ 0 <= y1 b /\
    x1 b + crop_w b <= w /\ y1 b + crop_h b <= h /\
    -16 < 16 * crop_w b - 9 * crop_h b < 9 /\
    0 < crop_h b /\
    (0 < crop_w b <-> 2 <= h) /\
    (crop_w b = 0 <-> h = 1).
Proof.
  intros Hw Hh. rewrite crop_region_closed by lia.
  eexists. split; [reflexivity|].
  destruct (Z.ltb_spec (9 * h) (16 * w)) as [Hlt|Hge]; cbn [x1 y1 crop_w crop_h].
  - pose proof (Z.div_mod (9 * h) 16 ltac:(lia)) as Hd.
    pose proof (Z.mod_pos_bound (9 * h) 16 ltac:(lia)) as Hm.
    set (c := 9 * h / 16) in *.
    pose proof (Z.div_mod (w - c) 2 ltac:(lia)) as Hd2.
    pose proof (Z.mod_pos_bound (w - c) 2 ltac:(lia)) as Hm2.
    repeat split; try lia.
  - pose proof (Z.div_mod (16 * w) 9 ltac:(lia)) as Hd.
    pose proof (Z.mod_pos_bound (16 * w) 9 ltac:(lia)) as Hm.
    set (c := 16 * w / 9) in *.
    pose proof (Z.div_mod (h - c) 2 ltac:(lia)) as Hd2.
    pose proof (Z.mod_pos_bound (h - c) 2 ltac:(lia)) as Hm2.
    repeat split; try lia.
Qed.

(** X27.  On IEEE binary64 numbers, as Python computes them, the two
    truncated values [int(orig_h * target_ratio)] and
    [int(orig_w / target_ratio)] are the exact integer quotients
    [9 * x / 16] and [16 * x / 9] for every dimension up to 8192: no
    rounding error reaches the integer part. *)
Theorem binary64_truncations_are_exact (x : Z) :
  1 <= x <= 8192 ->
  Binary64.int_of_float
    (PrimFloat.mul (Binary64.float_of_int x) Binary64.target_ratio) = 9 * x / 16 /\
  Binary64.int_of_float
    (PrimFloat.div (Binary64.float_of_int x) Binary64.target_ratio) = 16 * x / 9 /\
  Binary64.int_of_float
    (PrimFloat.mul (Binary64.float_of_int x) Binary64.target_ratio) =
    py_int (inject_Z x * target_ratio) /\
  Binary64.int_of_float
    (PrimFloat.div (Binary64.float_of_int x) Binary64.target_ratio) =
    py_int (inject_Z x / target_ratio).
Proof.
  intros Hx. destruct (binary64_sizes x Hx) as (Hm & Hd).
  rewrite crop_w_closed, crop_h_closed by lia. auto.
Qed.

(** X28.  For every source frame up to 512x512 the crop rectangle
    computed on IEEE binary64 numbers is the one computed on exact
    rationals: the test of line 207 and both truncations agree. *)
Theorem binary64_crop_is_the_rational_crop (w h : Z) :
  1 <= w <= 512 -> 1 <= h <= 512 ->
  Binary64.crop_region w h = crop_region w h.
Proof. apply binary64_crop_region. Qed.

End GeometryMore.

(** X26 on a 1920x1080 source. *)
Lemma crop_box_inside_frame_witness :
  exists b, Geometry.crop_region 1920 1080 = Ok b /\
    Geometry.x1 b + Geometry.crop_w b <= 1920 /\
    -16 < 16 * Geometry.crop_w b - 9 * Geometry.crop_h b < 9.
Proof.
  destruct (crop_box_inside_frame 1920 1080) as (b & Hb & _ & _ & Hx & _ & Hr & _);
    [lia|lia|].
  exists b. auto.
Defined.

(** X27 at 1080. *)
Lemma binary64_truncations_are_exact_witness :
  Binary64.int_of_float
    (PrimFloat.mul (Binary64.float_of_int 1080) Binary64.target_ratio) = 607.
Proof.
  destruct (binary64_truncations_are_exact 1080) as (H & _); [lia|]. exact H.
Defined.

(** X28 on a 480x360 source. *)
Lemma binary64_crop_is_the_rational_crop_witness :
  Binary64.crop_region 480 360 = Geometry.crop_region 480 360.
Proof. apply binary64_crop_is_the_rational_crop; lia. Defined.
